(** * AI Recipe Studio ([app.py]): a shallow embedding and its properties

    The development follows the helper functions of [app.py]:
    the recipe store ([load_saved_recipes], [save_all_recipes],
    [add_recipe], [delete_recipe]), the PDF generator
    ([recipe_to_pdf_bytes]), the nutrition estimator ([NUTRITION_DB],
    [estimate_nutrition]), the text splitter ([re_split_commas]) and the
    handler of the "Build Shopping List" button.

    Conventions.
    - A Python [str] is a [string]; a character is read as the code point
      of the same number (0..255), with Python's classification of these
      code points (whitespace, line boundaries, word characters, lower
      case).
    - A Python [int] is a [Z]; a Python [float] is a binary64 value of
      [SpecFloat].
    - An exception is a value of [exn]; a computation that may raise
      returns a [result]. *)

From Stdlib Require Import ZArith List String Ascii Bool Lia PeanoNat.
From Stdlib Require Import Floats.SpecFloat.
Import ListNotations.

Set Warnings "-register-all".

Local Open Scope string_scope.
Local Open Scope list_scope.

(** ** Exceptions *)

Inductive exn : Type :=
| JSONDecodeError
| AttributeError
| TypeError
| KeyError
| IndexError
| OverflowError
| NameError.

Inductive result (A : Type) : Type :=
| Ok (a : A)
| Raise (e : exn).

Arguments Ok {A} a.
Arguments Raise {A} e.

Definition bind {A B : Type} (m : result A) (k : A -> result B) : result B :=
  match m with
  | Ok a => k a
  | Raise e => Raise e
  end.

Notation "x <- m ;; k" := (bind m (fun x => k))
  (at level 61, m at next level, right associativity).

(** ** Strings *)

Module Str.

Definition code (c : ascii) : nat := nat_of_ascii c.

Definition between (lo hi n : nat) : bool := (lo <=? n)%nat && (n <=? hi)%nat.

(** [str.isspace] on one code point: TAB..CR, FS..US, SPACE, NEL, NBSP. *)
Definition isspace (c : ascii) : bool :=
  let n := code c in
  between 9 13 n || between 28 32 n || (n =? 133)%nat || (n =? 160)%nat.

(** The line boundaries of [str.splitlines]: LF, VT, FF, CR, FS, GS, RS, NEL
    (CR LF counts as one boundary). *)
Definition is_linebreak (c : ascii) : bool :=
  let n := code c in
  between 10 13 n || between 28 30 n || (n =? 133)%nat.

(** The word characters of the regular expression [\b] for a [str]
    pattern: letters, digits, numeric characters and the underscore. *)
Definition is_word (c : ascii) : bool :=
  let n := code c in
  between 48 57 n || between 65 90 n || (n =? 95)%nat || between 97 122 n
  || (n =? 170)%nat || between 178 179 n || (n =? 181)%nat
  || between 185 186 n || between 188 190 n
  || between 192 214 n || between 216 246 n || between 248 255 n.

(** [str.lower] on one code point. *)
Definition lower_char (c : ascii) : ascii :=
  let n := code c in
  if between 65 90 n || (between 192 222 n && negb (n =? 215)%nat)
  then ascii_of_nat (n + 32)
  else c.

Fixpoint lower (s : string) : string :=
  match s with
  | EmptyString => EmptyString
  | String c r => String (lower_char c) (lower r)
  end.

Definition is_empty (s : string) : bool :=
  match s with
  | EmptyString => true
  | String _ _ => false
  end.

Fixpoint lstrip (s : string) : string :=
  match s with
  | EmptyString => EmptyString
  | String c r => if isspace c then lstrip r else s
  end.

Fixpoint rstrip (s : string) : string :=
  match s with
  | EmptyString => EmptyString
  | String c r =>
      let r' := rstrip r in
      if isspace c && is_empty r' then EmptyString else String c r'
  end.

(** [s.strip()] *)
Definition strip (s : string) : string := rstrip (lstrip s).

(** Puts [c] in front of the first string of [l]. *)
Definition cons_head (c : ascii) (l : list string) : list string :=
  match l with
  | [] => [String c EmptyString]
  | f :: fs => String c f :: fs
  end.

(** [s.splitlines()] *)
Fixpoint splitlines (s : string) : list string :=
  match s with
  | EmptyString => []
  | String c r =>
      if is_linebreak c then
        match r with
        | String c2 r2 =>
            if ((code c =? 13)%nat && (code c2 =? 10)%nat)%bool
            then EmptyString :: splitlines r2
            else EmptyString :: splitlines r
        | EmptyString => [EmptyString]
        end
      else cons_head c (splitlines r)
  end.

(** [s.split()]: the maximal runs of characters that are not whitespace. *)
Fixpoint split (s : string) : list string :=
  match s with
  | EmptyString => []
  | String c r =>
      if isspace c then split r
      else
        match r with
        | EmptyString => [String c EmptyString]
        | String c2 _ =>
            if isspace c2 then String c EmptyString :: split r
            else cons_head c (split r)
        end
  end.

(** [needle in hay] *)
Fixpoint contains (needle hay : string) : bool :=
  prefix needle hay
  || match hay with
     | EmptyString => false
     | String _ r => contains needle r
     end.

Definition starts_word (s : string) : bool :=
  match s with
  | EmptyString => false
  | String c _ => is_word c
  end.

(** [re.split(r',|\band\b', s)], scanning [s] from a position whose
    previous character is a word character exactly when [prev_word] holds.
    The result is never empty: its head is the fragment under
    construction. *)
Fixpoint re_split (prev_word : bool) (s : string) : list string :=
  match s with
  | EmptyString => [EmptyString]
  | String c r =>
      if (c =? ",")%char then EmptyString :: re_split false r
      else
        match r with
        | String c2 (String c3 r3) =>
            if ((c =? "a")%char && (c2 =? "n")%char && (c3 =? "d")%char
                && negb prev_word && negb (starts_word r3))%bool
            then EmptyString :: re_split true r3
            else cons_head c (re_split (is_word c) r)
        | _ => cons_head c (re_split (is_word c) r)
        end
  end.

Definition starts_nonspace (s : string) : bool :=
  match s with
  | EmptyString => false
  | String c _ => negb (isspace c)
  end.

Fixpoint ends_nonspace (s : string) : bool :=
  match s with
  | EmptyString => false
  | String c EmptyString => negb (isspace c)
  | String _ r => ends_nonspace r
  end.

End Str.

(** [re_split_commas] *)
Definition re_split_commas (line : string) : list string :=
  map Str.strip
      (filter (fun p => negb (Str.is_empty (Str.strip p)))
              (Str.re_split false line)).

(** ** JSON values

    The values that [json.loads] returns and [json.dumps] accepts.  A
    [dict] is an association list in insertion order, its keys pairwise
    distinct. *)

Inductive json : Type :=
| JNull
| JBool (b : bool)
| JInt (z : Z)
| JFloat (f : spec_float)
| JStr (s : string)
| JList (l : list json)
| JDict (kv : list (string * json)).

Fixpoint assoc {V : Type} (k : string) (d : list (string * V)) : option V :=
  match d with
  | [] => None
  | (k', v) :: r => if (k' =? k)%string then Some v else assoc k r
  end.

(** [l.pop(i)] for [0 <= i < len(l)]: the list without its element at [i]. *)
Fixpoint remove_nth {A : Type} (i : nat) (l : list A) : list A :=
  match l with
  | [] => []
  | x :: r =>
      match i with
      | O => r
      | S j => x :: remove_nth j r
      end
  end.

(** ** The recipe store

    The state is the file [data/saved_recipes.json]: [None] when it does
    not exist, otherwise its text.  [json.loads] and [json.dumps] belong
    to the Python library and are parameters; [json_loads] returns [None]
    where [json.loads] raises [JSONDecodeError]. *)

Definition file : Type := option string.

Section Store.

Variable json_loads : string -> option json.
Variable json_dumps : json -> string.

Definition load_saved_recipes (f : file) : result json :=
  match f with
  | Some text =>
      match json_loads text with
      | Some v => Ok v
      | None => Raise JSONDecodeError
      end
  | None => Ok (JList [])
  end.

Definition save_all_recipes (recipes : json) (f : file) : file :=
  Some (json_dumps recipes).

(** [recipes.insert(0, recipe_obj)]: only a list has [insert]. *)
Definition insert0 (recipes obj : json) : result json :=
  match recipes with
  | JList l => Ok (JList (obj :: l))
  | _ => Raise AttributeError
  end.

Definition add_recipe (recipe_obj : json) (f : file) : result unit * file :=
  match load_saved_recipes f with
  | Raise e => (Raise e, f)
  | Ok recipes =>
      match insert0 recipes recipe_obj with
      | Raise e => (Raise e, f)
      | Ok recipes' => (Ok tt, save_all_recipes recipes' f)
      end
  end.

(** [len(recipes)] *)
Definition len (recipes : json) : result Z :=
  match recipes with
  | JList l => Ok (Z.of_nat (List.length l))
  | JDict kv => Ok (Z.of_nat (List.length kv))
  | JStr s => Ok (Z.of_nat (String.length s))
  | _ => Raise TypeError
  end.

(** [recipes.pop(index)] for an [index] within the length: a [dict] has no
    integer key, a [str] has no [pop]. *)
Definition pop (recipes : json) (index : Z) : result json :=
  match recipes with
  | JList l => Ok (JList (remove_nth (Z.to_nat index) l))
  | JDict _ => Raise KeyError
  | _ => Raise AttributeError
  end.

Definition delete_recipe (index : Z) (f : file) : result unit * file :=
  match load_saved_recipes f with
  | Raise e => (Raise e, f)
  | Ok recipes =>
      if (0 <=? index)%Z then
        match len recipes with
        | Raise e => (Raise e, f)
        | Ok n =>
            if (index <? n)%Z then
              match pop recipes index with
              | Raise e => (Raise e, f)
              | Ok recipes' => (Ok tt, save_all_recipes recipes' f)
              end
            else (Ok tt, f)
        end
      else (Ok tt, f)
  end.

End Store.

(** ** The PDF generator

    Of the canvas only what decides the pages is kept: the operations
    appended to the page under construction, [showPage], which closes it
    and starts an empty one, and [save], which closes the page under
    construction when operations are pending on it.  Positions are in
    points; the page is [letter], 612 by 792, and every position the
    function computes is a small integer, exact as a [float]. *)

Module Pdf.

Inductive op : Type :=
| SetFont (name : string) (size : Z)
| DrawString (x y : Z) (text : string).

Record canvas : Type := {
  pages : list (list op);
  code : list op
}.

Definition new_canvas : canvas := {| pages := []; code := [] |}.

Definition emit (o : op) (c : canvas) : canvas :=
  {| pages := pages c; code := code c ++ [o] |}.

Definition showPage (c : canvas) : canvas :=
  {| pages := pages c ++ [code c]; code := [] |}.

Definition save (c : canvas) : list (list op) :=
  match code c with
  | [] => pages c
  | _ :: _ => pages (showPage c)
  end.

Definition height : Z := 792.

(** One turn of the loop over the lines. *)
Definition draw_line (st : canvas * Z) (line : string) : canvas * Z :=
  let '(pdf, y) := st in
  let pdf := emit (DrawString 40 y line) pdf in
  let y := (y - 14)%Z in
  if (y <? 50)%Z then (showPage pdf, (height - 60)%Z) else (pdf, y).

Definition start (title : string) : canvas * Z :=
  let y := (height - 60)%Z in
  let pdf := emit (SetFont "Helvetica-Bold" 14) new_canvas in
  let pdf := emit (DrawString 40 y title) pdf in
  let pdf := emit (SetFont "Helvetica" 10) pdf in
  (pdf, (y - 30)%Z).


(** The pages of the document that [recipe_to_pdf_bytes] writes. *)
Definition recipe_to_pdf_bytes (recipe_text title : string) : list (list op) :=
  save (fst (fold_left draw_line (Str.splitlines recipe_text) (start title))).

End Pdf.

(** ** The names of the script

    The pages are statements at the top level of the script, which runs
    from top to bottom in a namespace of its own: a page can use the names
    that an [import], an assignment or a [def] above it has bound.  These
    are the names bound above the pages in every run.  [re_split_commas],
    with the [import re] it needs, stands at the end of the script, below
    every page. *)

Definition bound_above_pages : list string :=
  ["os"; "json"; "time"; "BytesIO"; "Path"; "List"; "Dict"; "st"; "pd";
   "genai"; "letter"; "canvas"; "DATA_DIR"; "RECIPES_FILE";
   "load_saved_recipes"; "save_all_recipes"; "add_recipe"; "delete_recipe";
   "recipe_to_pdf_bytes"; "NUTRITION_DB"; "estimate_nutrition";
   "configure_gemini"; "page"].

(** The global [name] as a page finds it: [value] when the name is bound,
    [NameError] otherwise. *)
Definition global {A : Type} (name : string) (value : A) : result A :=
  if existsb (String.eqb name) bound_above_pages then Ok value
  else Raise NameError.

(** ** The shopping list

    The handler of the "Build Shopping List" button, from [items = {}] to
    the end of the loop over the recipes.  [items] is a [dict] from phrase
    to count, kept in insertion order. *)

Module Shopping.

Definition dict : Type := list (string * Z).

(** [items.get(k, default)] *)
Definition get (items : dict) (k : string) (default : Z) : Z :=
  match assoc k items with
  | Some v => v
  | None => default
  end.

(** [items[k] = v]: a present key keeps its place, a new one goes last. *)
Fixpoint set (items : dict) (k : string) (v : Z) : dict :=
  match items with
  | [] => [(k, v)]
  | (k', v') :: r =>
      if (k' =? k)%string then (k', v) :: r else (k', v') :: set r k v
  end.

(** [items[p] = items.get(p, 0) + 1] *)
Definition count (items : dict) (p : string) : dict :=
  set items p (get items p 0 + 1)%Z.

Definition unit_keywords : list string :=
  ["cup"; "tsp"; "tbsp"; "g"; "kg"; "ml"; "slice"; "pieces"; "pieces"; "pinch"].

Definition name_keywords : list string :=
  ["tomato"; "onion"; "garlic"; "chicken"; "rice"; "pasta"; "cheese"; "egg"].

(** [any(k in low for k in keywords)] *)
Definition any_in (keywords : list string) (low : string) : bool :=
  existsb (fun k => Str.contains k low) keywords.

(** The body of the loop over the lines of one recipe.  The first rule
    calls the global [re_split_commas]. *)
Definition scan_line (items : dict) (line : string) : result dict :=
  if any_in unit_keywords (Str.lower line) || Str.contains "," line then
    split <- global "re_split_commas" re_split_commas ;;
    let parts := map Str.strip (split line) in
    Ok (fold_left
          (fun items p =>
             if (2 <? String.length p)%nat then count items p else items)
          parts items)
  else if any_in name_keywords (Str.lower line) then
    Ok (count items (Str.strip line))
  else Ok items.

(** The loop over the lines of one recipe. *)
Fixpoint scan_lines (lines : list string) (items : dict) : result dict :=
  match lines with
  | [] => Ok items
  | line :: rest =>
      items <- scan_line items line ;;
      scan_lines rest items
  end.

(** [rec.get("text", default)] with the empty string as default: only a
    [dict] has [get]. *)
Definition get_text (rec : json) : result json :=
  match rec with
  | JDict kv =>
      match assoc "text" kv with
      | Some v => Ok v
      | None => Ok (JStr EmptyString)
      end
  | _ => Raise AttributeError
  end.

(** The lines of that text: only a [str] has [splitlines]. *)
Definition text_lines (rec : json) : result (list string) :=
  v <- get_text rec ;;
  match v with
  | JStr s => Ok (Str.splitlines s)
  | _ => Raise AttributeError
  end.

(** [lines[0]] *)
Definition first (lines : list string) : result string :=
  match lines with
  | l :: _ => Ok l
  | [] => Raise IndexError
  end.

(** [title in selected] *)
Definition mem (title : string) (selected : list string) : bool :=
  existsb (fun s => (s =? title)%string) selected.

(** The loop over the recipes. *)
Fixpoint scan_recipes (recipes : list json) (selected : list string)
    (items : dict) : result dict :=
  match recipes with
  | [] => Ok items
  | rec :: rest =>
      ls <- text_lines rec ;;
      title <- first ls ;;
      if mem title selected then
        lines <- text_lines rec ;;
        items <- scan_lines lines items ;;
        scan_recipes rest selected items
      else scan_recipes rest selected items
  end.

(** The mapping built from an empty [items]. *)
Definition build (recipes : list json) (selected : list string) : result dict :=
  scan_recipes recipes selected [].

(** A key without blanks at its ends, of three characters or more, counted
    at least once. *)
Definition well_formed_entry (kv : string * Z) : Prop :=
  Str.strip (fst kv) = fst kv
  /\ (3 <= String.length (fst kv))%nat
  /\ (1 <= snd kv)%Z.

End Shopping.

Local Open Scope Z_scope.

(** ** Floats

    A Python [float] is an IEEE 754 binary64 value: 53 bits of precision,
    exponent bound 1024, every operation rounded to nearest, ties to
    even. *)

Module F64.

Definition prec : Z := 53.
Definition emax : Z := 1024.

Definition add : spec_float -> spec_float -> spec_float := SFadd prec emax.
Definition div : spec_float -> spec_float -> spec_float := SFdiv prec emax.

(** The float nearest to the integer [z]. *)
Definition of_Z (z : Z) : spec_float := binary_normalize prec emax z 0 false.

(** The conversion of an [int] operand: [OverflowError] when the nearest
    float is not finite. *)
Definition of_int (z : Z) : result spec_float :=
  match of_Z z with
  | S754_infinity _ => Raise OverflowError
  | f => Ok f
  end.

(** The literal with one decimal [n / 10]: the float nearest to it. *)
Definition tenth (n : Z) : spec_float := div (of_Z n) (of_Z 10).

(** [10 * m * 2^e] rounded to the nearest integer, ties to even. *)
Definition tenths (m : positive) (e : Z) : Z :=
  let n := (10 * Zpos m)%Z in
  match e with
  | Zneg p =>
      let d := Z.pow_pos 2 p in
      let q := (n / d)%Z in
      let r := (n mod d)%Z in
      match (2 * r ?= d)%Z with
      | Lt => q
      | Gt => (q + 1)%Z
      | Eq => if Z.even q then q else (q + 1)%Z
      end
  | _ => (n * 2 ^ e)%Z
  end.

(** The float nearest to [k / 10] for [k > 0], with the sign [s]. *)
Definition of_tenths (s : bool) (k : positive) : spec_float :=
  div (S754_finite s k 0) (S754_finite false 10 0).

(** [round(x, 1)]: a float that is not finite is returned as it is;
    otherwise the exact value of [x] is rounded to one decimal, ties to
    even, and the float nearest to that decimal is returned. *)
Definition round1 (x : spec_float) : spec_float :=
  match x with
  | S754_finite s m e =>
      match tenths m e with
      | Zpos k => of_tenths s k
      | _ => S754_zero s
      end
  | _ => x
  end.

(** [x >= 0] *)
Definition nonneg (x : spec_float) : bool :=
  SFleb (S754_zero false) x.

(** *** The steps of a rounding

    [binary_round_aux] rounds [m * 2^e], located by [l] within its unit,
    in two shifts; the definitions below name its intermediate values. *)

(** The exponent of the format at magnitude [z]. *)
Definition fexp (z : Z) : Z := SpecFloat.fexp prec emax z.

(** The float of mantissa [mc] and exponent [ec], or an infinity past the
    largest exponent. *)
Definition out (sx : bool) (mc ec : Z) : spec_float :=
  match mc with
  | Z0 => S754_zero sx
  | Zpos p => if ec <=? emax - prec then S754_finite sx p ec else S754_infinity sx
  | Zneg _ => S754_nan
  end.

(** [m] shifted right by [n] bits, with the bits that fell off. *)
Definition shifted (m : Z) (l : location) (n : Z) : shr_record :=
  fst (shr (shr_record_of_loc m l) 0 n).

(** [m / 2^n] rounded to nearest, ties to even. *)
Definition rnd (m : Z) (l : location) (n : Z) : Z :=
  let r := shifted m l n in
  round_nearest_even (shr_m r) (loc_of_shr_record r).

(** The exponent and the mantissa that [binary_round_aux] arrives at. *)
Definition rounded_exp (m e : Z) (l : location) : Z :=
  let ea := Z.max e (fexp (Zdigits2 m + e)) in
  let mb := rnd m l (ea - e) in
  Z.max ea (fexp (Zdigits2 mb + ea)).

Definition rounded_man (m e : Z) (l : location) : Z :=
  let ea := Z.max e (fexp (Zdigits2 m + e)) in
  let mb := rnd m l (ea - e) in
  let ec := Z.max ea (fexp (Zdigits2 mb + ea)) in
  shr_m (shifted mb loc_Exact (ec - ea)).

(** A float that is not negative, its mantissa within 53 bits and its
    exponent within the format. *)
Definition nonneg_bounded (x : spec_float) : Prop :=
  match x with
  | S754_zero s => s = false
  | S754_infinity s => s = false
  | S754_nan => False
  | S754_finite s m e =>
      s = false /\ Zdigits2 (Zpos m) <= 53 /\ -1074 <= e <= 971
  end.

(** A float that is zero or below [2 ^ (-1019)]. *)
Definition tiny (x : spec_float) : Prop :=
  match x with
  | S754_zero s => s = false
  | S754_finite s m e => s = false /\ Zdigits2 (Zpos m) + e <= -1019
  | _ => False
  end.

(** The float nearest to [k / 10], for [k >= 0]. *)
Definition decimal (k : Z) : spec_float :=
  match k with
  | Zpos p => of_tenths false p
  | _ => S754_zero false
  end.

(** [y2] is half of [y1] up to the rounding to one decimal: both are
    infinite, or they are the floats of [k2 / 10] and [k1 / 10] with
    [k2 / 10] within 0.05 of half of [k1 / 10]. *)
Definition halves (y2 y1 : spec_float) : Prop :=
  (y1 = S754_infinity false /\ y2 = S754_infinity false)
  \/ exists k1 k2,
       0 <= k1 /\ 0 <= k2 /\ y1 = decimal k1 /\ y2 = decimal k2
       /\ -1 <= 2 * k2 - k1 <= 1.

End F64.

(** ** The nutrition estimator *)

Record macros : Type := {
  cal : spec_float;
  protein : spec_float;
  fat : spec_float;
  carb : spec_float
}.

(** An [int] entry of the table is converted when it is added to a float
    total; the conversion is written in the table. *)
Definition entry (c p f b : spec_float) : macros :=
  {| cal := c; protein := p; fat := f; carb := b |}.

Definition NUTRITION_DB : list (string * macros) :=
  let i := F64.of_Z in
  let d := F64.tenth in
  [ ("chicken", entry (i 165) (i 31) (d 36) (i 0));
    ("rice", entry (i 130) (d 24) (d 2) (i 28));
    ("pasta", entry (i 131) (i 5) (d 11) (i 25));
    ("tomato", entry (i 18) (d 9) (d 2) (d 39));
    ("onion", entry (i 40) (d 11) (d 1) (d 93));
    ("potato", entry (i 77) (i 2) (d 1) (i 17));
    ("cheese", entry (i 402) (i 25) (i 33) (d 13));
    ("egg", entry (i 155) (i 13) (i 11) (d 11));
    ("milk", entry (i 42) (d 34) (i 1) (i 5));
    ("butter", entry (i 717) (d 9) (i 81) (d 1));
    ("broccoli", entry (i 34) (d 28) (d 4) (i 7));
    ("quinoa", entry (i 120) (d 44) (d 19) (i 21));
    ("beans", entry (i 347) (i 21) (d 12) (i 63));
    ("avocado", entry (i 160) (i 2) (i 15) (i 9)) ].

(** The contribution of an ingredient that is not in the table. *)
Definition default_entry : macros :=
  entry (F64.of_Z 20) (F64.tenth 5) (F64.tenth 1) (F64.of_Z 1).

Definition zero_total : macros :=
  entry (S754_zero false) (S754_zero false) (S754_zero false) (S754_zero false).

Definition add_macros (total d : macros) : macros :=
  {| cal := F64.add (cal total) (cal d);
     protein := F64.add (protein total) (protein d);
     fat := F64.add (fat total) (fat d);
     carb := F64.add (carb total) (carb d) |}.

(** [ing.strip().lower().split()[0]] *)
Definition key_of (ing : string) : result string :=
  match Str.split (Str.lower (Str.strip ing)) with
  | k :: _ => Ok k
  | [] => Raise IndexError
  end.

(** What the ingredient of key [key] adds to the totals. *)
Definition contribution (key : string) : macros :=
  match assoc key NUTRITION_DB with
  | Some d => d
  | None => default_entry
  end.

(** The loop over the ingredients. *)
Fixpoint sum_ingredients (ingredients_list : list string) (total : macros)
    : result macros :=
  match ingredients_list with
  | [] => Ok total
  | ing :: rest =>
      key <- key_of ing ;;
      sum_ingredients rest (add_macros total (contribution key))
  end.

(** [round(v / max(1, servings), 1)] *)
Definition per_serving (v : spec_float) (servings : Z) : result spec_float :=
  d <- F64.of_int (Z.max 1 servings) ;;
  Ok (F64.round1 (F64.div v d)).

Definition estimate_nutrition (ingredients_list : list string) (servings : Z)
    : result macros :=
  total <- sum_ingredients ingredients_list zero_total ;;
  c <- per_serving (cal total) servings ;;
  p <- per_serving (protein total) servings ;;
  f <- per_serving (fat total) servings ;;
  b <- per_serving (carb total) servings ;;
  Ok (entry c p f b).

(** Totals that are not negative. *)
Definition macros_bounded (m : macros) : Prop :=
  F64.nonneg_bounded (cal m) /\ F64.nonneg_bounded (protein m)
  /\ F64.nonneg_bounded (fat m) /\ F64.nonneg_bounded (carb m).

(** ** A JSON reader and writer

    [MiniJson.loads] and [MiniJson.dumps] read and write the fragment of
    JSON without floats and without escapes in strings.  They stand for
    [json.loads] and [json.dumps] where the store is run on a concrete
    document. *)

Module MiniJson.

Local Open Scope string_scope.

Definition dquote : ascii := ascii_of_nat 34.

Definition quote (s : string) : string :=
  String dquote (s ++ String dquote EmptyString).

Fixpoint digits_of (fuel : nat) (n : N) (acc : string) : string :=
  match fuel with
  | O => acc
  | S fuel' =>
      let acc' := String (ascii_of_N (48 + N.modulo n 10)) acc in
      if (N.div n 10 =? 0)%N then acc' else digits_of fuel' (N.div n 10) acc'
  end.

Definition string_of_Z (z : Z) : string :=
  let n := Z.abs_N z in
  let ds := digits_of (S (N.to_nat (N.log2 n))) n EmptyString in
  if (z <? 0)%Z then String "-" ds else ds.

Fixpoint join (l : list string) : string :=
  match l with
  | [] => EmptyString
  | [x] => x
  | x :: r => x ++ ", " ++ join r
  end.

Fixpoint dumps (v : json) : string :=
  match v with
  | JNull => "null"
  | JBool true => "true"
  | JBool false => "false"
  | JInt z => string_of_Z z
  | JFloat _ => "NaN"
  | JStr s => quote s
  | JList l => "[" ++ join (map dumps l) ++ "]"
  | JDict kv =>
      "{" ++ join (map (fun p => quote (fst p) ++ ": " ++ dumps (snd p)) kv) ++ "}"
  end.

Fixpoint drop (n : nat) (s : string) : string :=
  match n, s with
  | S n', String _ r => drop n' r
  | _, _ => s
  end.

(** The characters up to the closing quote, and what follows it. *)
Fixpoint read_string (s : string) : option (string * string) :=
  match s with
  | EmptyString => None
  | String c r =>
      if (c =? dquote)%char then Some (EmptyString, r)
      else if (c =? "\")%char then None
      else
        match read_string r with
        | Some (t, rest) => Some (String c t, rest)
        | None => None
        end
  end.

Definition is_digit (c : ascii) : bool := Str.between 48 57 (Str.code c).

Fixpoint read_digits (acc : Z) (s : string) : Z * string :=
  match s with
  | String c r =>
      if is_digit c
      then read_digits (10 * acc + Z.of_nat (Str.code c) - 48)%Z r
      else (acc, s)
  | EmptyString => (acc, s)
  end.

Definition read_number (s : string) : option (json * string) :=
  match s with
  | String "-" (String c r) =>
      if is_digit c
      then let '(n, rest) := read_digits 0%Z (String c r) in
           Some (JInt (- n)%Z, rest)
      else None
  | String c _ =>
      if is_digit c
      then let '(n, rest) := read_digits 0%Z s in Some (JInt n, rest)
      else None
  | EmptyString => None
  end.

Fixpoint value (fuel : nat) (s : string) : option (json * string) :=
  match fuel with
  | O => None
  | S n =>
      let s := Str.lstrip s in
      if prefix "null" s then Some (JNull, drop 4 s)
      else if prefix "true" s then Some (JBool true, drop 4 s)
      else if prefix "false" s then Some (JBool false, drop 5 s)
      else
        match s with
        | String "[" r =>
            match Str.lstrip r with
            | String "]" r' => Some (JList [], r')
            | _ =>
                match elements n r with
                | Some (l, rest) => Some (JList l, rest)
                | None => None
                end
            end
        | String "{" r =>
            match Str.lstrip r with
            | String "}" r' => Some (JDict [], r')
            | _ =>
                match members n r with
                | Some (kv, rest) => Some (JDict kv, rest)
                | None => None
                end
            end
        | String c r =>
            if (c =? dquote)%char then
              match read_string r with
              | Some (t, rest) => Some (JStr t, rest)
              | None => None
              end
            else read_number s
        | EmptyString => None
        end
  end

with elements (fuel : nat) (s : string) : option (list json * string) :=
  match fuel with
  | O => None
  | S n =>
      match value n s with
      | Some (v, rest) =>
          match Str.lstrip rest with
          | String "," r =>
              match elements n r with
              | Some (l, rest') => Some (v :: l, rest')
              | None => None
              end
          | String "]" r => Some ([v], r)
          | _ => None
          end
      | None => None
      end
  end

with members (fuel : nat) (s : string) : option (list (string * json) * string) :=
  match fuel with
  | O => None
  | S n =>
      match Str.lstrip s with
      | String c r =>
          if (c =? dquote)%char then
            match read_string r with
            | Some (k, rest) =>
                match Str.lstrip rest with
                | String ":" r1 =>
                    match value n r1 with
                    | Some (v, rest1) =>
                        match Str.lstrip rest1 with
                        | String "," r2 =>
                            match members n r2 with
                            | Some (kv, rest2) => Some ((k, v) :: kv, rest2)
                            | None => None
                            end
                        | String "}" r2 => Some ([(k, v)], r2)
                        | _ => None
                        end
                    | None => None
                    end
                | _ => None
                end
            | None => None
            end
          else None
      | EmptyString => None
      end
  end.

(** A document is one value, with nothing but whitespace after it. *)
Definition loads (s : string) : option json :=
  match value (S (String.length s)) s with
  | Some (v, rest) => if Str.is_empty (Str.lstrip rest) then Some v else None
  | None => None
  end.

End MiniJson.

(** ** The "Shopping List" page

    The page loads the store and shows a notice when [recipes] is falsy.
    Otherwise it computes the options of the multiselect, the first line
    of every record, and, when the button is pressed, builds the mapping
    from the recipes it iterates over.  The store is read, never
    written. *)

Section ShoppingPage.

Variable json_loads : string -> option json.

(** [not recipes] *)
Definition falsy (v : json) : bool :=
  match v with
  | JNull => true
  | JBool b => negb b
  | JInt z => (z =? 0)%Z
  | JFloat (S754_zero _) => true
  | JFloat _ => false
  | JStr s => Str.is_empty s
  | JList l => match l with [] => true | _ :: _ => false end
  | JDict kv => match kv with [] => true | _ :: _ => false end
  end.

(** The values that [for rec in recipes] goes through. *)
Definition iterate (v : json) : result (list json) :=
  match v with
  | JList l => Ok l
  | JDict kv => Ok (map (fun p => JStr (fst p)) kv)
  | JStr s => Ok (map (fun c => JStr (String c EmptyString)) (list_ascii_of_string s))
  | _ => Raise TypeError
  end.

(** The options of the multiselect, which the page computes before the
    button: the first line of every record. *)
Fixpoint first_lines (recipes : list json) : result (list string) :=
  match recipes with
  | [] => Ok []
  | rec :: rest =>
      ls <- Shopping.text_lines rec ;;
      title <- Shopping.first ls ;;
      titles <- first_lines rest ;;
      Ok (title :: titles)
  end.

(** The page: [selected] is the answer of the multiselect and [pressed]
    that of the button.  The result is the mapping that the handler has
    built, or [None] when the page shows no list: the store is empty or
    the button is not pressed. *)
Definition shopping_list_page (selected : list string) (pressed : bool)
    (f : file) : result (option Shopping.dict) * file :=
  match load_saved_recipes json_loads f with
  | Raise e => (Raise e, f)
  | Ok recipes =>
      if falsy recipes then (Ok None, f)
      else (recs <- iterate recipes ;;
            options <- first_lines recs ;;
            if pressed then
              items <- Shopping.build recs selected ;;
              Ok (Some items)
            else Ok None,
            f)
  end.

End ShoppingPage.

(** ** Sample data *)

(** A record with the fields that the "Discover" page saves (the time stamp
    left out), its text being [text]. *)
Definition sample_recipe (text : string) : json :=
  JDict [("ingredients_input", JStr "tomato, onion");
         ("cuisine", JStr "Any");
         ("diet", JStr "Any");
         ("servings", JInt 2);
         ("text", JStr text)].

Definition newline : string := String (ascii_of_nat 10) EmptyString.


(** A saved recipe of three lines. *)
Definition tomato_soup : json :=
  sample_recipe
    (String.concat newline ["Tomato soup"; "2 cups tomato, 1 onion"; "Simmer."]).

(** The same text saved with other parameters. *)
Definition tomato_soup_for_four : json :=
  JDict [("servings", JInt 4);
         ("text",
          JStr (String.concat newline
                  ["Tomato soup"; "2 cups tomato, 1 onion"; "Simmer."]))].

(** Records of one line, which is their title. *)
Definition onion_tart : json := sample_recipe "Onion tart".

Definition onion_tart_for_four : json :=
  JDict [("servings", JInt 4); ("text", JStr "Onion tart")].

Definition tomato_onion : json := sample_recipe "2 cups tomato, 1 onion".

(** ** The "Clear saved recipes" button

    The button of the "Settings" page: [RECIPES_FILE.unlink()] when the
    file exists.  The answer tells whether a file was removed. *)

Definition clear_saved_recipes (f : file) : bool * file :=
  match f with
  | Some _ => (true, None)
  | None => (false, f)
  end.

(** ** What a canvas shows

    Views of the operations of a page, and of a canvas: its closed pages
    followed by the page under construction. *)

Module PdfView.

(** The strings drawn on a page, in order. *)
Definition texts (page : list Pdf.op) : list string :=
  flat_map (fun o => match o with
                     | Pdf.DrawString _ _ t => [t]
                     | Pdf.SetFont _ _ => []
                     end) page.

(** The positions at which they are drawn. *)
Definition positions (page : list Pdf.op) : list (Z * Z) :=
  flat_map (fun o => match o with
                     | Pdf.DrawString x y _ => [(x, y)]
                     | Pdf.SetFont _ _ => []
                     end) page.

(** The fonts set on a page. *)
Definition fonts (page : list Pdf.op) : list (string * Z) :=
  flat_map (fun o => match o with
                     | Pdf.SetFont n s => [(n, s)]
                     | Pdf.DrawString _ _ _ => []
                     end) page.

(** Successive ordinates that drop by at least one line height. *)
Fixpoint spaced (ys : list Z) : Prop :=
  match ys with
  | y1 :: ((y2 :: _) as rest) => (y2 <= y1 - 14)%Z /\ spaced rest
  | _ => True
  end.

(** The loop's layout invariant: the strings of every page are spaced, and
    the cursor is a line height below all those of the pending page. *)
Definition line_spacing (st : Pdf.canvas * Z) : Prop :=
  Forall (fun page => spaced (map snd (positions page))) (Pdf.pages (fst st))
  /\ spaced (map snd (positions (Pdf.code (fst st))))
  /\ Forall (fun p => (snd st <= p - 14)%Z)
            (map snd (positions (Pdf.code (fst st)))).

(** A view over the whole canvas. *)
Definition whole {A : Type} (view : list Pdf.op -> list A) (c : Pdf.canvas)
    : list A :=
  List.concat (map view (Pdf.pages c)) ++ view (Pdf.code c).

End PdfView.

(** ** More of [str] *)

Module Text.

(** [s.split(sep)] for a separator of one character: the fragments between
    its occurrences, never an empty list. *)
Fixpoint split_on (sep : ascii) (s : string) : list string :=
  match s with
  | EmptyString => [EmptyString]
  | String c r =>
      if (c =? sep)%char then EmptyString :: split_on sep r
      else Str.cons_head c (split_on sep r)
  end.

(** Every character of [s] satisfies [p]. *)
Fixpoint all_chars (p : ascii -> bool) (s : string) : bool :=
  match s with
  | EmptyString => true
  | String c r => p c && all_chars p r
  end.

(** [s.isspace()] on every character, the empty string included. *)
Definition blank (s : string) : bool := all_chars Str.isspace s.

(** A run of characters none of which is whitespace. *)
Definition solid (s : string) : bool :=
  all_chars (fun c => negb (Str.isspace c)) s.

End Text.

(** ** The "Nutrition" page

    The handler of the "Analyze Nutrition" button up to its call of
    [estimate_nutrition]: [None] stands for the warning "Enter
    ingredients.", [Some per] for the totals handed to the displays.
    [servings] is what [st.number_input] returns. *)

(** [[s.strip() for s in sample.split(",") if s.strip()]] *)
Definition nutrition_ingredients (sample : string) : list string :=
  map Str.strip
      (filter (fun s => negb (Str.is_empty (Str.strip s)))
              (Text.split_on "," sample)).

Definition analyze_nutrition (sample : string) (servings : Z)
    : result (option macros) :=
  let ings := nutrition_ingredients sample in
  match ings with
  | [] => Ok None
  | _ :: _ => per <- estimate_nutrition ings servings ;; Ok (Some per)
  end.

(** ** What the shopping list counts

    The phrases that the loops of the "Build Shopping List" handler count,
    in the order they count them. *)

Module ShoppingView.

Import Shopping.

(** The phrases that one line adds. *)
Definition phrases_of_line (line : string) : result (list string) :=
  if any_in unit_keywords (Str.lower line) || Str.contains "," line then
    split <- global "re_split_commas" re_split_commas ;;
    Ok (filter (fun p => (2 <? String.length p)%nat)
               (map Str.strip (split line)))
  else if any_in name_keywords (Str.lower line) then Ok [Str.strip line]
  else Ok [].

(** The phrases of the lines of one recipe. *)
Fixpoint phrases_of_lines (lines : list string) : result (list string) :=
  match lines with
  | [] => Ok []
  | line :: rest =>
      ps <- phrases_of_line line ;;
      qs <- phrases_of_lines rest ;;
      Ok (ps ++ qs)
  end.

(** The phrases of the selected recipes. *)
Fixpoint phrases (recipes : list json) (selected : list string)
    : result (list string) :=
  match recipes with
  | [] => Ok []
  | rec :: rest =>
      ls <- text_lines rec ;;
      title <- first ls ;;
      ps <- (if mem title selected then phrases_of_lines ls else Ok []) ;;
      qs <- phrases rest selected ;;
      Ok (ps ++ qs)
  end.

(** The keys of a [dict] after [items[p] = ...]: a new key goes last. *)
Definition add_key (keys : list string) (p : string) : list string :=
  if mem p keys then keys else keys ++ [p].

(** The phrases in the order of their first occurrence. *)
Definition first_seen (ps : list string) : list string :=
  fold_left add_key ps [].

(** The records whose first line is selected. *)
Definition is_selected (selected : list string) (rec : json) : bool :=
  match text_lines rec with
  | Ok (title :: _) => mem title selected
  | _ => false
  end.

End ShoppingView.

(** ** Titles

    The title of a recipe is the first line of its text.  [text] is a
    [str]: what [resp.text.strip()] gives on the "Discover" page, and the
    text of a saved record on "My Recipes". *)

(** [text.splitlines()[0]] *)
Definition first_line (text : string) : result string :=
  Shopping.first (Str.splitlines text).

(** [text.splitlines()[0] if text else "Recipe"] *)
Definition title_or_default (text : string) : result string :=
  if Str.is_empty text then Ok "Recipe" else first_line text.

(** The "Download PDF" button of "Discover". *)
Definition discover_pdf (text : string) : result (list (list Pdf.op)) :=
  title <- title_or_default text ;;
  Ok (Pdf.recipe_to_pdf_bytes text title).

(** The "Download PDF" button of "My Recipes". *)
Definition my_recipes_pdf (text : string) : result (list (list Pdf.op)) :=
  title <- first_line text ;;
  Ok (Pdf.recipe_to_pdf_bytes text title).

(** ** The search of "My Recipes"

    The loop that fills [filtered] with the records to show, each with its
    index in the store.  [py_str] is [str] on the values that are not
    strings, as an f-string formats them. *)

Section MyRecipes.

Variable py_str : json -> string.

(** [f"{v}"] *)
Definition format_value (v : json) : string :=
  match v with
  | JStr s => s
  | _ => py_str v
  end.

(** [rec.get(key, default)]: only a [dict] has [get]. *)
Definition dict_get (rec : json) (key : string) (default : json)
    : result json :=
  match rec with
  | JDict kv =>
      match assoc key kv with
      | Some v => Ok v
      | None => Ok default
      end
  | _ => Raise AttributeError
  end.

(** [(rec.get("text") or "").lower()]: only a [str] has [lower]. *)
Definition search_text (rec : json) : result string :=
  v <- dict_get rec "text" JNull ;;
  match (if falsy v then JStr EmptyString else v) with
  | JStr s => Ok (Str.lower s)
  | _ => Raise AttributeError
  end.

(** [f"{rec.get('cuisine','')} {rec.get('diet','')}".lower()] *)
Definition search_meta (rec : json) : result string :=
  c <- dict_get rec "cuisine" (JStr EmptyString) ;;
  d <- dict_get rec "diet" (JStr EmptyString) ;;
  Ok (Str.lower (format_value c ++ " " ++ format_value d)).

(** The test of the loop: whether the record is appended. *)
Definition keeps (search_q : string) (rec : json) : result bool :=
  text <- search_text rec ;;
  meta <- search_meta rec ;;
  if Str.contains (Str.lower (Str.strip search_q)) (text ++ meta) then Ok true
  else if Str.is_empty (Str.strip search_q) then Ok true
  else Ok false.

(** [for idx, rec in enumerate(recipes)], from the index [idx] on. *)
Fixpoint search_loop (idx : Z) (search_q : string) (recipes : list json)
    (filtered : list (Z * json)) : result (list (Z * json)) :=
  match recipes with
  | [] => Ok filtered
  | rec :: rest =>
      k <- keeps search_q rec ;;
      search_loop (idx + 1) search_q rest
                  (if k then filtered ++ [(idx, rec)] else filtered)
  end.

Definition search (search_q : string) (recipes : list json)
    : result (list (Z * json)) :=
  search_loop 0 search_q recipes [].

End MyRecipes.

(** ** The shopping list as a text

    The text of the "Download as TXT" button: ["\n".join(items.keys())]. *)

Definition shopping_list_txt (items : Shopping.dict) : string :=
  String.concat newline (map fst items).

(** * Properties *)

(** ** Strings *)

Module StrFacts.

Import Str.

Lemma isspace_lower_char (c : ascii) : isspace (lower_char c) = isspace c.
Proof. destruct c as [[] [] [] [] [] [] [] []]; reflexivity. Qed.

Lemma length_lower (s : string) : String.length (lower s) = String.length s.
Proof. induction s; simpl; congruence. Qed.

Lemma is_empty_lower (s : string) : is_empty (lower s) = is_empty s.
Proof. destruct s; reflexivity. Qed.

Lemma lower_lstrip (s : string) : lower (lstrip s) = lstrip (lower s).
Proof.
  induction s as [|c r IH]; simpl; trivial.
  rewrite isspace_lower_char; destruct (isspace c); trivial.
Qed.

Lemma lower_rstrip (s : string) : lower (rstrip s) = rstrip (lower s).
Proof.
  induction s as [|c r IH]; simpl; trivial.
  rewrite isspace_lower_char, <- IH, is_empty_lower.
  destruct (isspace c && is_empty (rstrip r)); trivial.
Qed.

Lemma lower_strip (s : string) : lower (strip s) = strip (lower s).
Proof. unfold strip; now rewrite lower_rstrip, lower_lstrip. Qed.

(** *** [strip] gives a trimmed string *)

Lemma lstrip_starts (s : string) :
  lstrip s = EmptyString \/ starts_nonspace (lstrip s) = true.
Proof.
  induction s as [|c r IH]; simpl; auto.
  destruct (isspace c) eqn:E; trivial.
  right; simpl; now rewrite E.
Qed.

Lemma lstrip_nonspace (s : string) : starts_nonspace s = true -> lstrip s = s.
Proof.
  destruct s as [|c r]; simpl; trivial.
  now destruct (isspace c).
Qed.

Lemma rstrip_starts (s : string) :
  starts_nonspace s = true -> starts_nonspace (rstrip s) = true.
Proof.
  destruct s as [|c r]; simpl; trivial.
  destruct (isspace c) eqn:E; simpl; [discriminate|now rewrite E].
Qed.

Lemma rstrip_idem (s : string) : rstrip (rstrip s) = rstrip s.
Proof.
  induction s as [|c r IH]; simpl; trivial.
  destruct (isspace c && is_empty (rstrip r)) eqn:E; simpl; trivial.
  now rewrite IH, E.
Qed.

Lemma strip_idem (s : string) : strip (strip s) = strip s.
Proof.
  unfold strip.
  destruct (lstrip_starts s) as [E | E].
  - rewrite E; reflexivity.
  - rewrite (lstrip_nonspace (rstrip (lstrip s))) by now apply rstrip_starts.
    apply rstrip_idem.
Qed.

(** *** A word inside a string survives [strip] *)

Lemma prefix_nil_r (n : string) :
  prefix n EmptyString = true -> n = EmptyString.
Proof. destruct n; simpl; [trivial|discriminate]. Qed.

Lemma prefix_cons (a b : ascii) (n h : string) :
  prefix (String a n) (String b h) = true -> a = b /\ prefix n h = true.
Proof. simpl; destruct (ascii_dec a b); [auto|discriminate]. Qed.

Lemma prefix_cons_same (a : ascii) (n h : string) :
  prefix (String a n) (String a h) = prefix n h.
Proof. simpl; destruct (ascii_dec a a); [trivial|congruence]. Qed.

Lemma prefix_length (n h : string) :
  prefix n h = true -> (String.length n <= String.length h)%nat.
Proof.
  revert n; induction h as [|b h IH]; intros [|a n] H; simpl; try lia.
  - discriminate.
  - apply prefix_cons in H as [_ H]; apply IH in H; lia.
Qed.

Lemma contains_length (n h : string) :
  contains n h = true -> (String.length n <= String.length h)%nat.
Proof.
  induction h as [|b h IH]; cbn [contains]; rewrite orb_true_iff; intros [H | H].
  - now apply prefix_length in H.
  - discriminate.
  - now apply prefix_length in H.
  - apply IH in H; cbn [String.length]; lia.
Qed.

Lemma contains_nil_r (n : string) :
  contains n EmptyString = true -> n = EmptyString.
Proof.
  cbn [contains]; rewrite orb_false_r; apply prefix_nil_r.
Qed.

Lemma contains_lstrip (n h : string) :
  starts_nonspace n = true -> contains n h = true ->
  contains n (lstrip h) = true.
Proof.
  intros Hn; induction h as [|b h IH]; trivial.
  intros H; cbn [lstrip]; destruct (isspace b) eqn:E; trivial.
  cbn [contains] in H; apply orb_true_iff in H as [H | H]; auto.
  destruct n as [|a n]; [discriminate|].
  apply prefix_cons in H as [-> _]; simpl in Hn; now rewrite E in Hn.
Qed.

Lemma prefix_rstrip (n h : string) :
  ends_nonspace n = true -> prefix n h = true -> prefix n (rstrip h) = true.
Proof.
  revert n; induction h as [|b h IH]; intros [|a n] Hn H; trivial.
  - discriminate.
  - apply prefix_cons in H as [<- H].
    cbn [rstrip]; destruct n as [|a' n].
    + simpl in Hn; apply negb_true_iff in Hn; rewrite Hn; cbn [andb].
      rewrite prefix_cons_same; now destruct (rstrip h).
    + assert (Hn' : ends_nonspace (String a' n) = true) by exact Hn.
      pose proof (IH _ Hn' H) as P.
      destruct (rstrip h) as [|c t]; [discriminate|].
      cbn [is_empty]; rewrite andb_false_r.
      now rewrite prefix_cons_same.
Qed.

Lemma contains_rstrip (n h : string) :
  ends_nonspace n = true -> contains n h = true ->
  contains n (rstrip h) = true.
Proof.
  intros Hn; induction h as [|b h IH]; trivial.
  intros H.
  assert (N : n <> EmptyString) by (intros ->; discriminate).
  cbn [contains] in H; apply orb_true_iff in H as [H | H].
  - apply (prefix_rstrip _ _ Hn) in H.
    destruct (rstrip (String b h)); simpl; simpl in H; now rewrite H.
  - apply IH in H; cbn [rstrip].
    destruct (rstrip h) as [|c t].
    + apply contains_nil_r in H; contradiction.
    + cbn [is_empty]; rewrite andb_false_r.
      cbn [contains]; cbn [contains] in H; rewrite H; apply orb_true_r.
Qed.

Lemma contains_strip (n h : string) :
  starts_nonspace n = true -> ends_nonspace n = true ->
  contains n h = true -> contains n (strip h) = true.
Proof.
  intros; unfold strip; now apply contains_rstrip, contains_lstrip.
Qed.

(** A line whose lower case holds a word without blanks at its ends is,
    once stripped, at least as long as the word. *)
Lemma strip_length_contains (n line : string) :
  starts_nonspace n = true -> ends_nonspace n = true ->
  contains n (lower line) = true ->
  (String.length n <= String.length (strip line))%nat.
Proof.
  intros Hs He H.
  rewrite <- (length_lower (strip line)), lower_strip.
  now apply contains_length, contains_strip.
Qed.

End StrFacts.

(** ** The recipe store *)

Section StoreFacts.

Variable json_loads : string -> option json.
Variable json_dumps : json -> string.

Local Abbreviation load := (load_saved_recipes json_loads).
Local Abbreviation add := (add_recipe json_loads json_dumps).
Local Abbreviation delete := (delete_recipe json_loads json_dumps).


Lemma remove_nth_out_of_range (A : Type) (i : nat) (l : list A) :
  (List.length l <= i)%nat -> remove_nth i l = l.
Proof.
  revert i; induction l as [|x l IH]; intros [|i] H; simpl in *; trivial.
  - lia.
  - f_equal; apply IH; lia.
Qed.


(** C2.  A document that is not valid JSON makes [load_saved_recipes]
    raise the decoder's error; [add_recipe] and [delete_recipe] then raise
    the same error before they save, and the file keeps its text. *)
Theorem invalid_document_is_never_overwritten (text : string) :
  json_loads text = None ->
  load (Some text) = Raise JSONDecodeError
  /\ (forall recipe_obj,
        add recipe_obj (Some text) = (Raise JSONDecodeError, Some text))
  /\ (forall index,
        delete index (Some text) = (Raise JSONDecodeError, Some text)).
Proof.
  intros H; unfold add_recipe, delete_recipe, load_saved_recipes.
  rewrite H; repeat split.
Qed.



End StoreFacts.

Lemma invalid_document_is_never_overwritten_witness :
  load_saved_recipes MiniJson.loads (Some "[1, 2") = Raise JSONDecodeError
  /\ (forall recipe_obj,
        add_recipe MiniJson.loads MiniJson.dumps recipe_obj (Some "[1, 2")
        = (Raise JSONDecodeError, Some "[1, 2"))
  /\ (forall index,
        delete_recipe MiniJson.loads MiniJson.dumps index (Some "[1, 2")
        = (Raise JSONDecodeError, Some "[1, 2")).
Proof.
  apply (invalid_document_is_never_overwritten
           MiniJson.loads MiniJson.dumps "[1, 2").
  vm_compute; reflexivity.
Defined.



(** ** The PDF generator *)

Module PdfFacts.

Import Pdf.

(** The canvas and the cursor after [k] lines: either the first page is
    still open, or [q] further pages were closed and [c] lines stand on
    the open one. *)
Lemma draw_line_step (k : Z) (st : canvas * Z) (line : string) :
  (0 <= k)%Z ->
  ((k < 47 /\ pages (fst st) = [] /\ code (fst st) <> []
    /\ snd st = 702 - 14 * k)
   \/ (exists q c, k = 47 + 49 * q + c /\ 0 <= q /\ 0 <= c < 49
        /\ Z.of_nat (List.length (pages (fst st))) = 1 + q
        /\ snd st = 732 - 14 * c
        /\ (code (fst st) = [] <-> c = 0)))%Z ->
  let st' := draw_line st line in
  ((k + 1 < 47 /\ pages (fst st') = [] /\ code (fst st') <> []
    /\ snd st' = 702 - 14 * (k + 1))
   \/ (exists q c, k + 1 = 47 + 49 * q + c /\ 0 <= q /\ 0 <= c < 49
        /\ Z.of_nat (List.length (pages (fst st'))) = 1 + q
        /\ snd st' = 732 - 14 * c
        /\ (code (fst st') = [] <-> c = 0)))%Z.
Proof.
  destruct st as [pdf y]; cbn [fst snd]; intros Hk H.
  assert (NE : forall o, code pdf ++ [o] <> [])
    by (intros o E; destruct (code pdf); discriminate).
  unfold draw_line.
  destruct H as [(Hlt & Hp & Hc & Hy) | (q & c & Hq & Hq0 & Hc & Hp & Hy & Hcode)].
  - destruct (Z.ltb_spec (y - 14) 50); cbn [fst snd emit showPage pages code].
    + right; exists 0, 0; rewrite Hp; cbn [app List.length].
      repeat split; try lia; trivial.
    + left; repeat split; try lia; trivial.
  - right; destruct (Z.ltb_spec (y - 14) 50); cbn [fst snd emit showPage pages code].
    + exists (q + 1), 0; rewrite length_app; cbn [List.length].
      repeat split; try lia; trivial.
    + exists q, (c + 1).
      repeat split; try lia; trivial.
      intros E; exfalso; exact (NE _ E).
Qed.

Lemma draw_lines_state (lines : list string) :
  forall (k : Z) (st : canvas * Z),
  (0 <= k)%Z ->
  ((k < 47 /\ pages (fst st) = [] /\ code (fst st) <> []
    /\ snd st = 702 - 14 * k)
   \/ (exists q c, k = 47 + 49 * q + c /\ 0 <= q /\ 0 <= c < 49
        /\ Z.of_nat (List.length (pages (fst st))) = 1 + q
        /\ snd st = 732 - 14 * c
        /\ (code (fst st) = [] <-> c = 0)))%Z ->
  let n := (k + Z.of_nat (List.length lines))%Z in
  let st' := fold_left draw_line lines st in
  ((n < 47 /\ pages (fst st') = [] /\ code (fst st') <> []
    /\ snd st' = 702 - 14 * n)
   \/ (exists q c, n = 47 + 49 * q + c /\ 0 <= q /\ 0 <= c < 49
        /\ Z.of_nat (List.length (pages (fst st'))) = 1 + q
        /\ snd st' = 732 - 14 * c
        /\ (code (fst st') = [] <-> c = 0)))%Z.
Proof.
  induction lines as [|line lines IH]; intros k st Hk H.
  - simpl; now rewrite Z.add_0_r.
  - cbn [fold_left List.length].
    replace (k + Z.of_nat (S (List.length lines)))%Z
      with ((k + 1) + Z.of_nat (List.length lines))%Z by lia.
    apply IH; [lia|].
    now apply draw_line_step.
Qed.

Lemma save_length (c : canvas) :
  List.length (save c)
  = (List.length (pages c) + match code c with [] => 0 | _ :: _ => 1 end)%nat.
Proof.
  unfold save, showPage; destruct (code c); simpl.
  - lia.
  - now rewrite length_app.
Qed.

(** The number of pages for a text of [n] lines. *)
Lemma page_count (recipe_text title : string) :
  let n := Z.of_nat (List.length (Str.splitlines recipe_text)) in
  Z.of_nat (List.length (recipe_to_pdf_bytes recipe_text title))
  = (1 + (n + 1) / 49)%Z.
Proof.
  intros n; unfold recipe_to_pdf_bytes.
  pose proof (draw_lines_state (Str.splitlines recipe_text) 0 (start title)) as H.
  cbv zeta in H; rewrite Z.add_0_l in H; fold n in H.
  rewrite save_length.
  destruct H as [(Hn & Hp & Hc & _) | (q & c & Hn & Hq & Hc & Hp & _ & Hcode)].
  - lia.
  - left; repeat split; try lia; discriminate.
  - rewrite Hp.
    destruct (code (fst (fold_left draw_line (Str.splitlines recipe_text)
                           (start title)))); [exfalso; auto|].
    pose proof (Zle_0_nat (List.length (Str.splitlines recipe_text))) as H0.
    fold n in H0; rewrite (Z.div_small (n + 1) 49) by lia.
    cbn [List.length]; lia.
  - rewrite Nat2Z.inj_add, Hp.
    destruct (code (fst (fold_left draw_line (Str.splitlines recipe_text)
                           (start title)))) as [|o os].
    + assert (c = 0)%Z by (apply Hcode; reflexivity); subst c.
      replace (n + 1)%Z with (q * 49 + 48)%Z by lia.
      rewrite Z.div_add_l by lia.
      rewrite (Z.div_small 48 49) by lia; lia.
    + assert (c <> 0)%Z by (intros E; apply Hcode in E; discriminate).
      replace (n + 1)%Z with ((q + 1) * 49 + (c - 1))%Z by lia.
      rewrite Z.div_add_l by lia.
      rewrite (Z.div_small (c - 1) 49) by lia; lia.
Qed.

End PdfFacts.



(** ** The shopping list *)

Module ShoppingFacts.

Import Shopping.

Lemma assoc_set_same (items : dict) (k : string) (v : Z) :
  assoc k (set items k v) = Some v.
Proof.
  induction items as [|[k' v'] r IH]; simpl.
  - now rewrite String.eqb_refl.
  - destruct (String.eqb_spec k' k) as [E | E]; simpl.
    + subst; now rewrite String.eqb_refl.
    + destruct (String.eqb_spec k' k); [contradiction | exact IH].
Qed.

Lemma assoc_set_other (items : dict) (k k' : string) (v : Z) :
  k' <> k -> assoc k' (set items k v) = assoc k' items.
Proof.
  intros N; induction items as [|[k0 v0] r IH]; simpl.
  - destruct (String.eqb_spec k k'); [congruence | trivial].
  - destruct (String.eqb_spec k0 k) as [E | E]; simpl.
    + subst; destruct (String.eqb_spec k k'); [congruence | trivial].
    + destruct (String.eqb_spec k0 k'); trivial.
Qed.

Lemma in_set (items : dict) (k : string) (v : Z) (e : string * Z) :
  In e (set items k v) -> e = (k, v) \/ In e items.
Proof.
  induction items as [|[k0 v0] r IH]; simpl.
  - intros [H | []]; auto.
  - destruct (String.eqb_spec k0 k) as [E | E]; simpl.
    + subst; intros [H | H]; auto.
    + intros [H | H]; auto.
      destruct (IH H); auto.
Qed.

Lemma assoc_in (items : dict) (k : string) (v : Z) :
  assoc k items = Some v -> In (k, v) items.
Proof.
  induction items as [|[k0 v0] r IH]; simpl; [discriminate|].
  destruct (String.eqb_spec k0 k) as [E | E].
  - intros [= ->]; subst; auto.
  - auto.
Qed.

Lemma get_count_same (items : dict) (p : string) :
  get (count items p) p 0 = get items p 0 + 1.
Proof. unfold count, get at 1; now rewrite assoc_set_same. Qed.

Lemma get_count_other (items : dict) (p k : string) :
  k <> p -> get (count items p) k 0 = get items k 0.
Proof. intros N; unfold count, get at 1 3; now rewrite assoc_set_other. Qed.

Lemma get_count_mono (items : dict) (p k : string) :
  get items k 0 <= get (count items p) k 0.
Proof.
  destruct (string_dec k p) as [-> | N].
  - rewrite get_count_same; lia.
  - rewrite get_count_other by trivial; lia.
Qed.

Lemma get_positive (items : dict) (k : string) :
  1 <= get items k 0 -> exists v, assoc k items = Some v /\ 1 <= v.
Proof.
  unfold get; destruct (assoc k items) as [v|]; [eauto | lia].
Qed.

(** *** Every entry is well formed *)

Lemma get_nonneg (items : dict) (k : string) :
  Forall well_formed_entry items -> 0 <= get items k 0.
Proof.
  intros W; unfold get; destruct (assoc k items) as [v|] eqn:E; [|lia].
  apply assoc_in in E.
  rewrite Forall_forall in W; destruct (W _ E) as (_ & _ & H); simpl in H; lia.
Qed.

Lemma count_well_formed (items : dict) (p : string) :
  Str.strip p = p -> (3 <= String.length p)%nat ->
  Forall well_formed_entry items ->
  Forall well_formed_entry (count items p).
Proof.
  intros Hs Hl W; pose proof (get_nonneg items p W) as G.
  rewrite Forall_forall in *; intros e He.
  apply in_set in He as [-> | He]; [|auto].
  repeat split; simpl; trivial; lia.
Qed.

Lemma name_keywords_shape :
  forallb (fun k => Str.starts_nonspace k && Str.ends_nonspace k
                    && (3 <=? String.length k)%nat)
          name_keywords = true.
Proof. reflexivity. Qed.

Lemma name_line_length (line : string) :
  any_in name_keywords (Str.lower line) = true ->
  (3 <= String.length (Str.strip line))%nat.
Proof.
  unfold any_in; rewrite existsb_exists; intros (k & Hk & Hc).
  pose proof name_keywords_shape as S.
  rewrite forallb_forall in S; specialize (S k Hk).
  apply andb_true_iff in S as [S L]; apply andb_true_iff in S as [S E].
  apply Nat.leb_le in L.
  pose proof (StrFacts.strip_length_contains k line S E Hc); lia.
Qed.

(** *** The first rule

    [re_split_commas] is not bound when the pages run: a line of the first
    rule stops the handler. *)

Lemma re_split_commas_unbound (A : Type) (value : A) :
  global "re_split_commas" value = Raise NameError.
Proof. reflexivity. Qed.

Local Abbreviation first_rule line :=
  (any_in unit_keywords (Str.lower line) || Str.contains "," line).

Lemma scan_line_first_rule (items : dict) (line : string) :
  first_rule line = true -> scan_line items line = Raise NameError.
Proof. intros H; unfold scan_line; now rewrite H. Qed.

Lemma scan_line_returns (items items' : dict) (line : string) :
  scan_line items line = Ok items' ->
  first_rule line = false
  /\ items' = if any_in name_keywords (Str.lower line)
              then count items (Str.strip line) else items.
Proof.
  unfold scan_line. destruct (first_rule line); [discriminate|].
  destruct (any_in name_keywords (Str.lower line)); intros [= <-]; auto.
Qed.

Lemma scan_line_raises (items : dict) (line : string) (e : exn) :
  scan_line items line = Raise e -> e = NameError.
Proof.
  unfold scan_line. destruct (first_rule line).
  - rewrite re_split_commas_unbound; cbn [bind]; congruence.
  - destruct (any_in name_keywords (Str.lower line)); discriminate.
Qed.

Lemma scan_lines_raises (lines : list string) :
  forall items e, scan_lines lines items = Raise e -> e = NameError.
Proof.
  induction lines as [|l lines IH]; intros items e; cbn [scan_lines];
    [discriminate|].
  destruct (scan_line items l) as [items'|e'] eqn:S; cbn [bind].
  - apply IH.
  - intros [= <-]; now apply scan_line_raises in S.
Qed.

Lemma scan_lines_first_rule (lines : list string) (line : string) :
  In line lines -> first_rule line = true ->
  forall items, scan_lines lines items = Raise NameError.
Proof.
  intros I H; induction lines as [|l lines IH]; [destruct I|].
  intros items; cbn [scan_lines].
  destruct I as [-> | I].
  - now rewrite scan_line_first_rule.
  - destruct (scan_line items l) as [items'|e] eqn:S; cbn [bind]; [auto|].
    apply scan_line_raises in S; now subst.
Qed.

Lemma scan_recipes_first_rule (recipes : list json) (selected : list string)
    (rec : json) (lines : list string) (title line : string) :
  Forall (fun r => exists ls t, text_lines r = Ok ls /\ first ls = Ok t)
         recipes ->
  In rec recipes ->
  text_lines rec = Ok lines ->
  first lines = Ok title ->
  mem title selected = true ->
  In line lines -> first_rule line = true ->
  forall items, scan_recipes recipes selected items = Raise NameError.
Proof.
  intros F I Hl Ht Hm IL H.
  induction F as [|r rest (ls & t & L & T) _ IH]; [destruct I|].
  intros items; cbn [scan_recipes]; rewrite L; cbn [bind]; rewrite T;
    cbn [bind].
  destruct I as [-> | I].
  - assert (ls = lines) by congruence; subst ls.
    assert (t = title) by congruence; subst t.
    rewrite Hm, (scan_lines_first_rule lines line IL H); reflexivity.
  - destruct (mem t selected); [|auto].
    destruct (scan_lines ls items) as [items'|e] eqn:S; cbn [bind]; [auto|].
    apply scan_lines_raises in S; now subst.
Qed.

(** *** The mappings that the handler builds *)

Lemma scan_line_well_formed (items items' : dict) (line : string) :
  Forall well_formed_entry items ->
  scan_line items line = Ok items' ->
  Forall well_formed_entry items'.
Proof.
  intros W H; apply scan_line_returns in H as [_ ->].
  destruct (any_in name_keywords (Str.lower line)) eqn:E; trivial.
  apply count_well_formed; trivial.
  - apply StrFacts.strip_idem.
  - now apply name_line_length.
Qed.

Lemma scan_lines_well_formed (lines : list string) :
  forall items items',
  Forall well_formed_entry items ->
  scan_lines lines items = Ok items' ->
  Forall well_formed_entry items'.
Proof.
  induction lines as [|l lines IH]; intros items items' W; cbn [scan_lines].
  - now intros [= <-].
  - destruct (scan_line items l) as [items1|e] eqn:S; cbn [bind];
      [|discriminate].
    apply IH. now apply (scan_line_well_formed items items1 l).
Qed.

Lemma scan_recipes_well_formed (recipes : list json) (selected : list string) :
  forall items items',
  Forall well_formed_entry items ->
  scan_recipes recipes selected items = Ok items' ->
  Forall well_formed_entry items'.
Proof.
  induction recipes as [|r rest IH]; intros items items' W; cbn [scan_recipes].
  - now intros [= <-].
  - destruct (text_lines r) as [ls|e]; [|discriminate]; cbn [bind].
    destruct (first ls) as [t|e]; [|discriminate]; cbn [bind].
    destruct (mem t selected); [|now apply IH].
    destruct (scan_lines ls items) as [items1|e] eqn:S; cbn [bind];
      [|discriminate].
    apply IH. now apply (scan_lines_well_formed ls items items1).
Qed.

(** *** The result depends on the texts only *)

Lemma scan_recipes_texts (selected : list string) (recipes1 : list json) :
  forall recipes2 items,
  map text_lines recipes1 = map text_lines recipes2 ->
  scan_recipes recipes1 selected items = scan_recipes recipes2 selected items.
Proof.
  induction recipes1 as [|r1 rest1 IH]; intros [|r2 rest2] items; simpl;
    try discriminate; trivial.
  intros [= E1 E2]; rewrite E1.
  destruct (text_lines r2) as [ls|e]; trivial; cbn [bind].
  destruct (first ls) as [t|e]; trivial; cbn [bind].
  destruct (mem t selected); [|now apply IH].
  destruct (scan_lines ls items); cbn [bind]; trivial. now apply IH.
Qed.

Lemma first_lines_texts (recipes1 : list json) :
  forall recipes2,
  map text_lines recipes1 = map text_lines recipes2 ->
  first_lines recipes1 = first_lines recipes2.
Proof.
  induction recipes1 as [|r1 rest1 IH]; intros [|r2 rest2]; simpl;
    try discriminate; trivial.
  intros [= E1 E2]; rewrite E1, (IH rest2 E2); reflexivity.
Qed.

(** *** The options of the multiselect *)

Lemma first_lines_total (recipes : list json) :
  Forall (fun r => exists ls t, text_lines r = Ok ls /\ first ls = Ok t)
         recipes ->
  exists titles, first_lines recipes = Ok titles.
Proof.
  induction 1 as [|r rest (ls & t & L & T) _ (titles & IH)];
    cbn [first_lines]; [eauto|].
  rewrite L; cbn [bind]; rewrite T; cbn [bind]; rewrite IH; cbn [bind]; eauto.
Qed.

Lemma first_lines_no_first_line (recipes : list json) :
  Forall (fun r => exists ls, text_lines r = Ok ls) recipes ->
  Exists (fun r => text_lines r = Ok []) recipes ->
  first_lines recipes = Raise IndexError.
Proof.
  intros F E; induction E as [rec rest H | rec rest E IH];
    cbn [first_lines].
  - now rewrite H.
  - inversion F as [|? ? (ls & L) F']; subst.
    rewrite L; cbn [bind].
    destruct ls as [|t ls']; trivial; cbn [first bind].
    now rewrite (IH F').
Qed.

Lemma first_lines_build (recipes : list json) (selected : list string)
    (titles : list string) (e : exn) :
  first_lines recipes = Ok titles ->
  build recipes selected = Raise e -> e = NameError.
Proof.
  unfold build; generalize (@nil (string * Z)).
  revert titles; induction recipes as [|r rest IH]; intros titles acc;
    cbn [first_lines scan_recipes]; [discriminate|].
  destruct (text_lines r) as [ls|e1]; cbn [bind]; [|discriminate].
  destruct (first ls) as [t|e1]; cbn [bind]; [|discriminate].
  destruct (first_lines rest) as [ts|e1]; cbn [bind]; [|discriminate].
  intros _. destruct (mem t selected); [|now apply (IH ts)].
  destruct (scan_lines ls acc) as [items1|e1] eqn:S; cbn [bind].
  - now apply (IH ts).
  - intros [= <-]; now apply scan_lines_raises in S.
Qed.

End ShoppingFacts.

(** C6.  When a recipe of the store is selected and one of its lines is
    ["2 cups tomato, 1 onion"], the handler builds no mapping: the line
    falls under the first rule, whose call of [re_split_commas] raises
    [NameError], the name being bound below the pages only.  This holds
    from every store whose records all have a first line, so that the page
    gets as far as the handler. *)
Theorem tomato_onion_line_raises (json_loads : string -> option json)
    (selected : list string) (f : file) (recipes : list json)
    (rec : json) (lines : list string) (title : string) :
  load_saved_recipes json_loads f = Ok (JList recipes) ->
  Forall (fun r => exists ls t,
            Shopping.text_lines r = Ok ls /\ Shopping.first ls = Ok t)
         recipes ->
  In rec recipes ->
  Shopping.text_lines rec = Ok lines ->
  Shopping.first lines = Ok title ->
  Shopping.mem title selected = true ->
  In "2 cups tomato, 1 onion" lines ->
  Shopping.build recipes selected = Raise NameError
  /\ shopping_list_page json_loads selected true f = (Raise NameError, f).
Proof.
  intros L F I Hl Ht Hm IL.
  assert (B : Shopping.build recipes selected = Raise NameError).
  { unfold Shopping.build.
    apply (ShoppingFacts.scan_recipes_first_rule recipes selected rec lines
             title "2 cups tomato, 1 onion"); trivial. }
  split; trivial.
  destruct (ShoppingFacts.first_lines_total recipes F) as [titles T].
  unfold shopping_list_page; rewrite L.
  destruct recipes as [|r rest]; [destruct I|].
  cbn [falsy iterate bind]. rewrite T; cbn [bind]. now rewrite B.
Qed.

Lemma tomato_onion_line_raises_witness :
  Shopping.build [onion_tart; tomato_onion] ["2 cups tomato, 1 onion"]
  = Raise NameError
  /\ shopping_list_page MiniJson.loads ["2 cups tomato, 1 onion"] true
       (Some (MiniJson.dumps (JList [onion_tart; tomato_onion])))
     = (Raise NameError,
        Some (MiniJson.dumps (JList [onion_tart; tomato_onion]))).
Proof.
  apply (tomato_onion_line_raises MiniJson.loads ["2 cups tomato, 1 onion"]
           (Some (MiniJson.dumps (JList [onion_tart; tomato_onion])))
           [onion_tart; tomato_onion] tomato_onion
           ["2 cups tomato, 1 onion"] "2 cups tomato, 1 onion").
  - vm_compute; reflexivity.
  - repeat constructor; eexists; eexists; split; vm_compute; reflexivity.
  - right; left; reflexivity.
  - reflexivity.
  - reflexivity.
  - reflexivity.
  - left; reflexivity.
Defined.

(** C10.  In a mapping that the page builds every key is unchanged by
    [strip], has three characters or more, and is counted at least once.
    The keys are lines of the second rule: a line of the first rule stops
    the handler before it counts a fragment. *)
Theorem shopping_keys_well_formed (json_loads : string -> option json)
    (selected : list string) (pressed : bool) (f : file)
    (items : Shopping.dict) :
  fst (shopping_list_page json_loads selected pressed f) = Ok (Some items) ->
  forall k v,
    In (k, v) items ->
    Str.strip k = k /\ (3 <= String.length k)%nat /\ 1 <= v.
Proof.
  unfold shopping_list_page.
  destruct (load_saved_recipes json_loads f) as [recipes|e]; [|discriminate].
  destruct (falsy recipes); [discriminate|]; cbn [fst].
  destruct (iterate recipes) as [recs|e]; cbn [bind]; [|discriminate].
  destruct (first_lines recs) as [titles|e]; cbn [bind]; [|discriminate].
  destruct pressed; [|discriminate].
  destruct (Shopping.build recs selected) as [items'|e] eqn:B; cbn [bind];
    [|discriminate].
  intros [= <-] k v Hin.
  apply ShoppingFacts.scan_recipes_well_formed in B; [|constructor].
  rewrite Forall_forall in B; exact (B _ Hin).
Qed.

Lemma shopping_keys_well_formed_witness :
  Str.strip "Onion tart" = "Onion tart"
  /\ (3 <= String.length "Onion tart")%nat /\ 1 <= 2.
Proof.
  apply (shopping_keys_well_formed MiniJson.loads ["Onion tart"] true
           (Some (MiniJson.dumps
                    (JList [onion_tart; sample_recipe "Rice";
                            onion_tart_for_four])))
           [("Onion tart", 2)]).
  - vm_compute; reflexivity.
  - left; reflexivity.
Defined.

(** C7.  The page leaves the store as it finds it, so a second run from
    the state the first one leaves returns the same answer: the same
    keys in the same order with the same counts, or the same exception.
    The answer is a function of the lines of the stored texts, of the
    selection and of the button: from two stores whose records differ in
    other fields only, the page gives the same mapping or raises the same
    exception. *)
Theorem shopping_list_deterministic (json_loads : string -> option json)
    (selected : list string) (pressed : bool) (f : file) :
  snd (shopping_list_page json_loads selected pressed f) = f
  /\ shopping_list_page json_loads selected pressed
       (snd (shopping_list_page json_loads selected pressed f))
     = shopping_list_page json_loads selected pressed f
  /\ (forall f1 f2 recipes1 recipes2,
        load_saved_recipes json_loads f1 = Ok (JList recipes1) ->
        load_saved_recipes json_loads f2 = Ok (JList recipes2) ->
        map Shopping.text_lines recipes1 = map Shopping.text_lines recipes2 ->
        fst (shopping_list_page json_loads selected pressed f1)
        = fst (shopping_list_page json_loads selected pressed f2)).
Proof.
  assert (E : snd (shopping_list_page json_loads selected pressed f) = f).
  { unfold shopping_list_page.
    destruct (load_saved_recipes json_loads f) as [v|e]; trivial.
    destruct (falsy v); trivial. }
  repeat split; trivial.
  - now rewrite E.
  - intros f1 f2 recipes1 recipes2 L1 L2 M.
    unfold shopping_list_page; rewrite L1, L2.
    assert (N : falsy (JList recipes1) = falsy (JList recipes2)).
    { destruct recipes1, recipes2; trivial; discriminate. }
    rewrite N; destruct (falsy (JList recipes2)); trivial.
    cbn [fst iterate bind].
    rewrite (ShoppingFacts.first_lines_texts recipes1 recipes2 M).
    unfold Shopping.build.
    now rewrite (ShoppingFacts.scan_recipes_texts selected recipes1 recipes2 []
                   M).
Qed.

Lemma shopping_list_deterministic_witness :
  fst (shopping_list_page MiniJson.loads ["Onion tart"] true
         (Some (MiniJson.dumps (JList [onion_tart; sample_recipe "Rice"]))))
  = fst (shopping_list_page MiniJson.loads ["Onion tart"] true
           (Some (MiniJson.dumps
                    (JList [onion_tart_for_four; sample_recipe "Rice"])))).
Proof.
  destruct (shopping_list_deterministic MiniJson.loads ["Onion tart"] true
              None) as (_ & _ & H).
  apply (H (Some (MiniJson.dumps (JList [onion_tart; sample_recipe "Rice"])))
           (Some (MiniJson.dumps
                    (JList [onion_tart_for_four; sample_recipe "Rice"])))
           [onion_tart; sample_recipe "Rice"]
           [onion_tart_for_four; sample_recipe "Rice"]).
  - vm_compute; reflexivity.
  - vm_compute; reflexivity.
  - reflexivity.
Defined.

(** ** Binary64 arithmetic *)

Module F64Facts.
Import F64.

Lemma fexp_eq z : fexp z = Z.max (z - 53) (-1074).
Proof. reflexivity. Qed.

Lemma digits2_size p : digits2_pos p = Pos.size p.
Proof. induction p; simpl; congruence. Qed.

Lemma Zdigits2_log2 m : 0 < m -> Zdigits2 m = Z.log2 m + 1.
Proof.
  destruct m as [|p|p]; try lia; intros _.
  unfold Zdigits2; rewrite digits2_size.
  destruct p; simpl; rewrite ?Pos2Z.inj_succ; lia.
Qed.

Lemma Zdigits2_0 : Zdigits2 0 = 0.
Proof. reflexivity. Qed.

Lemma Zdigits2_nonneg m : 0 <= Zdigits2 m.
Proof. destruct m; simpl; lia. Qed.

Lemma Zdigits2_pos m : 0 < m -> 0 < Zdigits2 m.
Proof. destruct m; simpl; lia. Qed.

Lemma Zdigits2_bounds m : 0 < m -> 2 ^ (Zdigits2 m - 1) <= m < 2 ^ Zdigits2 m.
Proof.
  intros H; rewrite Zdigits2_log2 by trivial.
  replace (Z.log2 m + 1 - 1) with (Z.log2 m) by lia.
  apply Z.log2_spec; trivial.
Qed.

Lemma Zdigits2_le a b : 0 <= a <= b -> Zdigits2 a <= Zdigits2 b.
Proof.
  intros [Ha Hb].
  destruct (Z.eq_dec a 0) as [-> | Na]; [apply Zdigits2_nonneg|].
  rewrite !Zdigits2_log2 by lia.
  pose proof (Z.log2_le_mono a b Hb); lia.
Qed.

Lemma Zdigits2_lt_pow2 m k : 0 <= m -> 0 <= k -> m < 2 ^ k -> Zdigits2 m <= k.
Proof.
  intros Hm Hk H.
  destruct (Z.eq_dec m 0) as [-> | N]; [simpl; lia|].
  rewrite Zdigits2_log2 by lia.
  apply Z.log2_lt_pow2 in H; lia.
Qed.

Lemma Zdigits2_ge_pow2 m k : 0 <= k -> 2 ^ k <= m -> k + 1 <= Zdigits2 m.
Proof.
  intros Hk H.
  assert (0 < m) by (pose proof (Z.pow_pos_nonneg 2 k); lia).
  rewrite Zdigits2_log2 by lia.
  apply Z.log2_le_pow2 in H; lia.
Qed.

Lemma Zdigits2_succ m : 0 <= m -> Zdigits2 (m + 1) <= Zdigits2 m + 1.
Proof.
  intros Hm.
  destruct (Z.eq_dec m 0) as [-> | N]; [simpl; lia|].
  rewrite !Zdigits2_log2 by lia.
  pose proof (Z.log2_succ_le m); unfold Z.succ in *; lia.
Qed.

Lemma Zdigits2_div_pow2 m n :
  0 <= m -> 0 <= n -> Zdigits2 (m / 2 ^ n) = Z.max 0 (Zdigits2 m - n).
Proof.
  intros Hm Hn.
  destruct (Z.eq_dec m 0) as [-> | N].
  { rewrite Z.div_0_l by (apply Z.pow_nonzero; lia). simpl; lia. }
  rewrite <- Z.shiftr_div_pow2 by trivial.
  destruct (Z.eq_dec (Z.shiftr m n) 0) as [E | E].
  - rewrite E; apply Z.shiftr_eq_0_iff in E as [E | [_ E]]; [lia|].
    rewrite (Zdigits2_log2 m) by lia; change (Zdigits2 0) with 0; lia.
  - assert (0 < Z.shiftr m n).
    { pose proof (proj2 (Z.shiftr_nonneg m n) Hm); lia. }
    rewrite !Zdigits2_log2 by lia.
    rewrite Z.log2_shiftr by lia.
    assert (~ (Z.log2 m < n)).
    { intros L; apply E; apply Z.shiftr_eq_0; lia. }
    lia.
Qed.

Lemma Zdigits2_mul_pow2 m n :
  0 < m -> 0 <= n -> Zdigits2 (m * 2 ^ n) = Zdigits2 m + n.
Proof.
  intros Hm Hn.
  assert (0 < m * 2 ^ n) by (apply Z.mul_pos_pos; [lia|apply Z.pow_pos_nonneg; lia]).
  rewrite !Zdigits2_log2 by lia.
  rewrite Z.log2_mul_pow2 by lia; lia.
Qed.

(** shr *)

Lemma iter_pos_iter (A : Type) (f : A -> A) p : forall x,
  iter_pos f p x = Pos.iter f x p.
Proof.
  induction p as [p IH|p IH|]; intros x; simpl; trivial.
  - rewrite !IH, <- !Pos.iter_swap; reflexivity.
  - now rewrite !IH.
Qed.

Lemma shr_m_shr_1 r : 0 <= shr_m r -> shr_m (shr_1 r) = shr_m r / 2.
Proof.
  destruct r as [m r s]; simpl; intros H.
  rewrite <- Z.div2_div.
  destruct m as [|[p|p|]|p]; try reflexivity; lia.
Qed.

Lemma shr_m_iter p : forall r,
  0 <= shr_m r -> shr_m (Pos.iter shr_1 r p) = shr_m r / 2 ^ Zpos p.
Proof.
  induction p as [|p IH] using Pos.peano_ind; intros r H.
  - simpl. rewrite shr_m_shr_1 by trivial. reflexivity.
  - rewrite Pos.iter_succ, shr_m_shr_1.
    + rewrite IH by trivial.
      rewrite Pos2Z.inj_succ, Z.pow_succ_r by lia.
      rewrite Z.div_div by (try apply Z.pow_pos_nonneg; lia).
      f_equal; lia.
    + rewrite IH by trivial. apply Z.div_pos; [trivial|apply Z.pow_pos_nonneg; lia].
Qed.

Lemma shr_m_of_loc m l : shr_m (shr_record_of_loc m l) = m.
Proof. destruct l as [|[]]; reflexivity. Qed.

Lemma shr_m_shifted m l n :
  0 <= m -> shr_m (shifted m l n) = m / 2 ^ Z.max 0 n.
Proof.
  intros H; unfold shifted, shr.
  destruct n as [|p|p]; simpl fst.
  - rewrite shr_m_of_loc, Z.div_1_r; trivial.
  - rewrite iter_pos_iter, shr_m_iter by (rewrite shr_m_of_loc; trivial).
    rewrite shr_m_of_loc. reflexivity.
  - rewrite shr_m_of_loc. simpl. rewrite Z.div_1_r; trivial.
Qed.

Lemma rne_bounds m l : m <= round_nearest_even m l <= m + 1.
Proof. destruct l as [|[]]; simpl; try destruct (Z.even m); lia. Qed.

Lemma rnd_bounds m l n :
  0 <= m -> m / 2 ^ Z.max 0 n <= rnd m l n <= m / 2 ^ Z.max 0 n + 1.
Proof.
  intros H; unfold rnd. rewrite <- (shr_m_shifted m l n H). apply rne_bounds.
Qed.

Lemma shr_fst r e n : fst (shr r e n) = fst (shr r 0 n).
Proof. destruct n; reflexivity. Qed.

Lemma shr_snd r e n : snd (shr r e n) = Z.max e (e + n).
Proof. destruct n; simpl; lia. Qed.

(** The rounding of [m * 2^e], located by [l], in terms of [rnd]. *)
Lemma binary_round_aux_out sx m e l :
  binary_round_aux prec emax sx m e l
  = let ea := Z.max e (fexp (Zdigits2 m + e)) in
    let mb := rnd m l (ea - e) in
    let ec := Z.max ea (fexp (Zdigits2 mb + ea)) in
    out sx (shr_m (shifted mb loc_Exact (ec - ea))) ec.
Proof.
  unfold binary_round_aux, shr_fexp.
  set (n1 := SpecFloat.fexp prec emax (Zdigits2 m + e) - e).
  destruct (shr (shr_record_of_loc m l) e n1) as [mrs' e'] eqn:E1.
  assert (F1 : mrs' = shifted m l n1)
    by (unfold shifted; rewrite <- (shr_fst _ e n1), E1; reflexivity).
  assert (S1 : e' = Z.max e (e + n1))
    by (rewrite <- (shr_snd (shr_record_of_loc m l)), E1; reflexivity).
  set (mb := round_nearest_even (shr_m mrs') (loc_of_shr_record mrs')).
  set (n2 := SpecFloat.fexp prec emax (Zdigits2 mb + e') - e').
  destruct (shr (shr_record_of_loc mb loc_Exact) e' n2) as [mrs'' e''] eqn:E2.
  assert (F2 : mrs'' = shifted mb loc_Exact n2)
    by (unfold shifted; rewrite <- (shr_fst _ e' n2), E2; reflexivity).
  assert (S2 : e'' = Z.max e' (e' + n2))
    by (rewrite <- (shr_snd (shr_record_of_loc mb loc_Exact)), E2; reflexivity).
  cbv zeta.
  assert (A : Z.max e (fexp (Zdigits2 m + e)) = e') by (unfold fexp; lia).
  rewrite A.
  assert (B : rnd m l (e' - e) = mb).
  { unfold rnd, mb; rewrite F1.
    assert (shifted m l (e' - e) = shifted m l n1) as ->; trivial.
    unfold shifted, shr. destruct n1 as [|p|p] eqn:N.
    - replace (e' - e) with 0 by lia; reflexivity.
    - replace (e' - e) with (Zpos p) by lia; reflexivity.
    - replace (e' - e) with 0 by lia; reflexivity. }
  rewrite B.
  assert (C : Z.max e' (fexp (Zdigits2 mb + e')) = e'') by (unfold fexp; lia).
  rewrite C.
  assert (D : shifted mb loc_Exact (e'' - e') = mrs'').
  { rewrite F2. unfold shifted, shr. destruct n2 as [|p|p] eqn:N.
    - replace (e'' - e') with 0 by lia; reflexivity.
    - replace (e'' - e') with (Zpos p) by lia; reflexivity.
    - replace (e'' - e') with 0 by lia; reflexivity. }
  rewrite D. unfold out. destruct (shr_m mrs''); reflexivity.
Qed.

Lemma binary_round_aux_rounded sx m e l :
  binary_round_aux prec emax sx m e l
  = out sx (rounded_man m e l) (rounded_exp m e l).
Proof. apply binary_round_aux_out. Qed.

Lemma rnd_nonneg m l n : 0 <= m -> 0 <= rnd m l n.
Proof.
  intros H; pose proof (rnd_bounds m l n H) as [B _].
  assert (0 <= m / 2 ^ Z.max 0 n)
    by (apply Z.div_pos; [trivial|apply Z.pow_pos_nonneg; lia]).
  lia.
Qed.

Lemma rounded_man_eq m e l :
  0 <= m ->
  let ea := Z.max e (fexp (Zdigits2 m + e)) in
  let mb := rnd m l (ea - e) in
  rounded_man m e l = mb / 2 ^ (rounded_exp m e l - ea).
Proof.
  intros H ea mb; unfold rounded_man, rounded_exp; fold ea; fold mb.
  rewrite shr_m_shifted by (apply rnd_nonneg; trivial).
  f_equal; f_equal; lia.
Qed.

Lemma rounded_exp_ge m e l :
  Z.max e (fexp (Zdigits2 m + e)) <= rounded_exp m e l.
Proof. unfold rounded_exp; lia. Qed.

Lemma rounded_man_nonneg m e l : 0 <= m -> 0 <= rounded_man m e l.
Proof.
  intros H; rewrite rounded_man_eq by trivial.
  pose proof (rounded_exp_ge m e l).
  apply Z.div_pos; [apply rnd_nonneg; trivial|apply Z.pow_pos_nonneg; lia].
Qed.

Lemma rounded_exp_ge_emin m e l : -1074 <= rounded_exp m e l.
Proof. unfold rounded_exp; rewrite !fexp_eq; lia. Qed.

Lemma rounded_man_digits m e l :
  0 <= m -> Zdigits2 (rounded_man m e l) <= 53.
Proof.
  intros H; rewrite rounded_man_eq by trivial.
  set (ea := Z.max e (fexp (Zdigits2 m + e))).
  set (mb := rnd m l (ea - e)).
  assert (0 <= mb) by (apply rnd_nonneg; trivial).
  assert (E : 0 <= rounded_exp m e l - ea)
    by (unfold rounded_exp; fold ea; fold mb; lia).
  rewrite Zdigits2_div_pow2 by trivial.
  unfold rounded_exp; fold ea; fold mb; rewrite fexp_eq; lia.
Qed.

(** The magnitude of the result is that of the rounded mantissa. *)
Lemma rounded_magnitude m e l :
  0 <= m -> 0 < rounded_man m e l ->
  let ea := Z.max e (fexp (Zdigits2 m + e)) in
  Zdigits2 (rounded_man m e l) + rounded_exp m e l
  = Zdigits2 (rnd m l (ea - e)) + ea.
Proof.
  intros H P ea; rewrite rounded_man_eq in * by trivial; fold ea in P |- *.
  set (mb := rnd m l (ea - e)) in *.
  assert (0 <= mb) by (apply rnd_nonneg; trivial).
  assert (E : 0 <= rounded_exp m e l - ea)
    by (unfold rounded_exp; fold ea; fold mb; lia).
  pose proof (Zdigits2_pos _ P) as D.
  rewrite Zdigits2_div_pow2 in * by trivial. lia.
Qed.

Lemma rnd_digits_upper m l e :
  0 <= m ->
  let ea := Z.max e (fexp (Zdigits2 m + e)) in
  Zdigits2 (rnd m l (ea - e)) + ea <= Z.max (Zdigits2 m + e) (-1074) + 1.
Proof.
  intros H ea.
  pose proof (rnd_bounds m l (ea - e) H) as [_ U].
  assert (Q : 0 <= m / 2 ^ Z.max 0 (ea - e))
    by (apply Z.div_pos; [trivial|apply Z.pow_pos_nonneg; lia]).
  pose proof (Zdigits2_le (rnd m l (ea - e)) (m / 2 ^ Z.max 0 (ea - e) + 1)) as L.
  pose proof (Zdigits2_succ _ Q) as S.
  rewrite Zdigits2_div_pow2 in S by lia.
  pose proof (rnd_nonneg m l (ea - e) H).
  pose proof (Zdigits2_nonneg m).
  unfold ea in *; rewrite fexp_eq in *. lia.
Qed.

Lemma rounded_magnitude_upper m e l :
  0 <= m -> 0 < rounded_man m e l ->
  Zdigits2 (rounded_man m e l) + rounded_exp m e l
  <= Z.max (Zdigits2 m + e) (-1074) + 1.
Proof.
  intros H P; rewrite rounded_magnitude by trivial.
  apply rnd_digits_upper; trivial.
Qed.

Lemma rnd_digits_lower m l e :
  0 < m -> -1074 <= Zdigits2 m + e - 53 ->
  let ea := Z.max e (fexp (Zdigits2 m + e)) in
  Zdigits2 m + e <= Zdigits2 (rnd m l (ea - e)) + ea.
Proof.
  intros H U ea.
  assert (H0 : 0 <= m) by lia.
  pose proof (rnd_bounds m l (ea - e) H0) as [L _].
  assert (Q : 0 <= m / 2 ^ Z.max 0 (ea - e))
    by (apply Z.div_pos; [trivial|apply Z.pow_pos_nonneg; lia]).
  pose proof (Zdigits2_le _ _ (conj Q L)) as M.
  rewrite Zdigits2_div_pow2 in M by lia.
  pose proof (Zdigits2_pos m H).
  unfold ea in *; rewrite fexp_eq in *. lia.
Qed.

(** Away from the subnormal range the result is not zero and keeps the
    magnitude or gains one. *)
Lemma rounded_man_pos m e l :
  0 < m -> -1074 <= Zdigits2 m + e - 53 -> 0 < rounded_man m e l.
Proof.
  intros H U.
  assert (H0 : 0 <= m) by lia.
  rewrite rounded_man_eq by trivial.
  set (ea := Z.max e (fexp (Zdigits2 m + e))).
  set (mb := rnd m l (ea - e)).
  pose proof (rnd_digits_lower m l e H U) as L; cbv zeta in L; fold ea in L; fold mb in L.
  assert (0 <= mb) by (apply rnd_nonneg; trivial).
  assert (E : 0 <= rounded_exp m e l - ea)
    by (unfold rounded_exp; fold ea; fold mb; lia).
  assert (D : 0 < Zdigits2 (mb / 2 ^ (rounded_exp m e l - ea))).
  { rewrite Zdigits2_div_pow2 by trivial.
    pose proof (Zdigits2_pos m H).
    unfold rounded_exp; fold ea; fold mb; unfold ea in *; rewrite !fexp_eq in *. lia. }
  assert (0 <= mb / 2 ^ (rounded_exp m e l - ea))
    by (apply Z.div_pos; [trivial|apply Z.pow_pos_nonneg; lia]).
  destruct (Z.eq_dec (mb / 2 ^ (rounded_exp m e l - ea)) 0) as [Z0|]; [|lia].
  rewrite Z0 in D; simpl in D; lia.
Qed.

Lemma rounded_magnitude_lower m e l :
  0 < m -> -1074 <= Zdigits2 m + e - 53 ->
  Zdigits2 m + e <= Zdigits2 (rounded_man m e l) + rounded_exp m e l.
Proof.
  intros H U.
  rewrite rounded_magnitude by (try apply rounded_man_pos; trivial; lia).
  apply rnd_digits_lower; trivial.
Qed.

(** One exponent lower, away from the subnormal range: the same mantissa,
    one exponent lower. *)
Lemma rounded_scale m e l :
  0 < m -> -1074 <= Zdigits2 m + e - 54 ->
  rounded_man m (e - 1) l = rounded_man m e l
  /\ rounded_exp m (e - 1) l = rounded_exp m e l - 1.
Proof.
  intros H U.
  assert (U' : -1074 <= Zdigits2 m + e - 53) by lia.
  pose proof (rnd_digits_lower m l e H U') as L; cbv zeta in L.
  unfold rounded_man, rounded_exp.
  set (ea := Z.max e (fexp (Zdigits2 m + e))) in *.
  set (ea' := Z.max (e - 1) (fexp (Zdigits2 m + (e - 1)))).
  assert (A : ea' = ea - 1) by (unfold ea, ea'; rewrite !fexp_eq; lia).
  replace (ea' - (e - 1)) with (ea - e) by lia.
  set (mb := rnd m l (ea - e)) in *.
  assert (C : Z.max ea' (fexp (Zdigits2 mb + ea'))
              = Z.max ea (fexp (Zdigits2 mb + ea)) - 1).
  { rewrite A, !fexp_eq. lia. }
  rewrite C; split; [|reflexivity].
  f_equal; f_equal; lia.
Qed.

Lemma out_nonneg_bounded m e l :
  0 <= m -> nonneg_bounded (binary_round_aux prec emax false m e l).
Proof.
  intros H; rewrite binary_round_aux_rounded.
  pose proof (rounded_man_nonneg m e l H) as N.
  pose proof (rounded_man_digits m e l H) as D.
  pose proof (rounded_exp_ge_emin m e l) as E.
  unfold out; destruct (rounded_man m e l) as [|p|p]; simpl; trivial; [|lia].
  change (emax - prec) with 971.
  destruct (Z.leb_spec (rounded_exp m e l) 971); simpl; trivial.
  repeat split; trivial; lia.
Qed.

(** *** Exact shifts *)

Lemma shr_1_even k :
  shr_1 {| shr_m := 2 * k; shr_r := false; shr_s := false |}
  = {| shr_m := k; shr_r := false; shr_s := false |}.
Proof. destruct k as [|p|p]; reflexivity. Qed.

Lemma iter_shr_exact p : forall m,
  (2 ^ Zpos p | m) ->
  Pos.iter shr_1 {| shr_m := m; shr_r := false; shr_s := false |} p
  = {| shr_m := m / 2 ^ Zpos p; shr_r := false; shr_s := false |}.
Proof.
  induction p as [|p IH] using Pos.peano_ind; intros m [k ->].
  - cbn [Pos.iter]. change (2 ^ 1) with 2.
    rewrite Z.div_mul by lia. rewrite (Z.mul_comm k 2). apply shr_1_even.
  - rewrite Pos.iter_succ.
    rewrite Pos2Z.inj_succ, Z.pow_succ_r by lia.
    rewrite IH by (exists (k * 2); lia).
    assert (P : 0 < 2 ^ Zpos p) by (apply Z.pow_pos_nonneg; lia).
    replace (k * (2 * 2 ^ Z.pos p)) with ((2 * k) * 2 ^ Zpos p) by lia.
    rewrite Z.div_mul by lia.
    replace (2 * k * 2 ^ Z.pos p) with (k * (2 * 2 ^ Zpos p)) by lia.
    rewrite Z.div_mul by lia.
    apply shr_1_even.
Qed.

Lemma rnd_exact m n :
  (2 ^ Z.max 0 n | m) -> rnd m loc_Exact n = m / 2 ^ Z.max 0 n.
Proof.
  intros H; unfold rnd, shifted, shr.
  destruct n as [|p|p]; cbn [fst shr_record_of_loc].
  - simpl. now rewrite Z.div_1_r.
  - rewrite iter_pos_iter, iter_shr_exact by exact H. reflexivity.
  - simpl. now rewrite Z.div_1_r.
Qed.

(** *** Division *)

Lemma div_core_eq mT eT md ed :
  let a := Zdigits2 (Zpos mT) + eT - (Zdigits2 (Zpos md) + ed) in
  let e' := Z.min (fexp a) (eT - ed) in
  let m' := Zpos mT * 2 ^ (eT - ed - e') in
  SFdiv_core_binary prec emax (Zpos mT) eT (Zpos md) ed
  = (m' / Zpos md, e', new_location (Zpos md) (m' mod Zpos md)).
Proof.
  intros a e' m'; unfold SFdiv_core_binary.
  fold (fexp (Zdigits2 (Z.pos mT) + eT - (Zdigits2 (Z.pos md) + ed))).
  fold a; fold e'.
  assert (S : 0 <= eT - ed - e') by (unfold e'; lia).
  assert (M : match eT - ed - e' with
              | 0 => Z.pos mT
              | Z.pos _ => Z.shiftl (Z.pos mT) (eT - ed - e')
              | Z.neg _ => 0
              end = m').
  { unfold m'. destruct (eT - ed - e') as [|p|p] eqn:E.
    - simpl; lia.
    - rewrite Z.shiftl_mul_pow2 by lia; reflexivity.
    - lia. }
  rewrite M.
  unfold Z.div, Z.modulo.
  destruct (Z.div_eucl m' (Z.pos md)) as [q r]; reflexivity.
Qed.

Lemma div_finite sx mT eT sy md ed :
  div (S754_finite sx mT eT) (S754_finite sy md ed)
  = let '(q, e', l) := SFdiv_core_binary prec emax (Zpos mT) eT (Zpos md) ed in
    out (xorb sx sy) (rounded_man q e' l) (rounded_exp q e' l).
Proof.
  unfold div, SFdiv.
  destruct (SFdiv_core_binary prec emax (Z.pos mT) eT (Z.pos md) ed) as [[q e'] l].
  apply binary_round_aux_rounded.
Qed.

Lemma quotient_digits m' md :
  0 <= m' -> 0 < md ->
  Zdigits2 (m' / md) <= Z.max 0 (Zdigits2 m' - Zdigits2 md + 1).
Proof.
  intros Hm Hd.
  assert (Q : 0 <= m' / md) by (apply Z.div_pos; lia).
  destruct (Z.eq_dec (m' / md) 0) as [-> | N]; [simpl; lia|].
  assert (P : 0 < m').
  { destruct (Z.eq_dec m' 0) as [-> | ]; [|lia]. rewrite Z.div_0_l in N; lia. }
  pose proof (Zdigits2_bounds m' P) as [_ U].
  pose proof (Zdigits2_bounds md Hd) as [L _].
  pose proof (Zdigits2_pos md Hd) as Pd.
  pose proof (Zdigits2_pos m' P) as Pm.
  assert (md <= m').
  { destruct (Z.lt_ge_cases m' md); [|lia]. rewrite Z.div_small in N; lia. }
  assert (Zdigits2 md <= Zdigits2 m') by (apply Zdigits2_le; lia).
  assert (K : m' / md < 2 ^ (Zdigits2 m' - Zdigits2 md + 1)).
  { apply Z.div_lt_upper_bound; trivial.
    replace (Zdigits2 m') with ((Zdigits2 md - 1) + (Zdigits2 m' - Zdigits2 md + 1)) in U by lia.
    rewrite Z.pow_add_r in U by lia.
    assert (0 < 2 ^ (Zdigits2 m' - Zdigits2 md + 1)) by (apply Z.pow_pos_nonneg; lia).
    nia. }
  apply Zdigits2_lt_pow2 in K; lia.
Qed.

(** The magnitude of the quotient before it is rounded. *)
Lemma div_core_upper mT eT md ed :
  let a := Zdigits2 (Zpos mT) + eT - (Zdigits2 (Zpos md) + ed) in
  let '(q, e', l) := SFdiv_core_binary prec emax (Zpos mT) eT (Zpos md) ed in
  0 <= q /\ e' <= fexp a /\ (0 < q -> Zdigits2 q + e' <= a + 1).
Proof.
  intros a; rewrite div_core_eq; fold a.
  set (e' := Z.min (fexp a) (eT - ed)).
  set (m' := Zpos mT * 2 ^ (eT - ed - e')).
  assert (S : 0 <= eT - ed - e') by (unfold e'; lia).
  assert (P : 0 < m') by (apply Z.mul_pos_pos; [lia|apply Z.pow_pos_nonneg; lia]).
  repeat split.
  - apply Z.div_pos; lia.
  - unfold e'; lia.
  - intros Q.
    pose proof (quotient_digits m' (Zpos md)) as D.
    assert (Dm : Zdigits2 m' = Zdigits2 (Zpos mT) + (eT - ed - e'))
      by (unfold m'; apply Zdigits2_mul_pow2; lia).
    rewrite Dm in D.
    pose proof (Zdigits2_pos _ Q). unfold a. lia.
Qed.

Lemma fexp_le a b : a <= b -> fexp a <= fexp b.
Proof. rewrite !fexp_eq; lia. Qed.

Lemma rounded_exp_upper m e l :
  0 <= m ->
  rounded_exp m e l
  <= Z.max e (fexp (Z.max (Zdigits2 m + e) (-1074) + 1)).
Proof.
  intros H; unfold rounded_exp.
  pose proof (rnd_digits_upper m l e H) as U; cbv zeta in U.
  set (ea := Z.max e (fexp (Zdigits2 m + e))) in *.
  apply fexp_le in U.
  assert (fexp (Zdigits2 m + e) <= fexp (Z.max (Zdigits2 m + e) (-1074) + 1))
    by (apply fexp_le; lia).
  unfold ea in *; lia.
Qed.

Lemma rounded_exp_exact m e :
  0 <= m ->
  let ea := Z.max e (fexp (Zdigits2 m + e)) in
  (2 ^ (ea - e) | m) ->
  rounded_exp m e loc_Exact = ea.
Proof.
  intros H ea X; unfold rounded_exp; fold ea.
  assert (N : Z.max 0 (ea - e) = ea - e) by (unfold ea; lia).
  rewrite rnd_exact by (rewrite N; trivial).
  rewrite N, Zdigits2_div_pow2 by (trivial; lia).
  pose proof (Zdigits2_nonneg m).
  unfold ea; rewrite !fexp_eq; lia.
Qed.

(** The quotient in the subnormal range is zero or tiny. *)
Lemma div_tiny mT eT md ed :
  Zdigits2 (Zpos mT) + eT - (Zdigits2 (Zpos md) + ed) <= -1021 ->
  tiny (div (S754_finite false mT eT) (S754_finite false md ed)).
Proof.
  intros A; rewrite div_finite.
  pose proof (div_core_upper mT eT md ed) as U; cbv zeta in U.
  destruct (SFdiv_core_binary prec emax (Z.pos mT) eT (Z.pos md) ed) as [[q e'] l].
  destruct U as (Q & E & D).
  pose proof (rounded_man_nonneg q e' l Q) as N.
  pose proof (rounded_magnitude_upper q e' l Q) as M.
  rewrite fexp_eq in E.
  assert (Dq : Zdigits2 q + e' <= -1020).
  { destruct (Z.eq_dec q 0) as [-> | ]; [simpl; lia|]. assert (0 < q) by lia. lia. }
  unfold out; cbn [xorb].
  destruct (rounded_man q e' l) as [|p|p]; cbn [tiny]; trivial; [|lia].
  assert (P : 0 < Zpos p) by lia. specialize (M P).
  pose proof (Zdigits2_pos (Zpos p) P).
  change (emax - prec) with 971.
  destruct (Z.leb_spec (rounded_exp q e' l) 971); cbn [tiny]; [split; trivial; lia|lia].
Qed.

Lemma new_location_0 nb : new_location nb 0 = loc_Exact.
Proof.
  unfold new_location, new_location_even, new_location_odd.
  destruct (Z.even nb); reflexivity.
Qed.

(** Away from the subnormal range, a divisor twice as large gives the same
    mantissa one exponent lower, and neither quotient overflows when the
    divisor is 1 or at least 2. *)
Lemma div_normal mT eT md ed :
  Zdigits2 (Zpos mT) <= 53 -> eT <= 971 ->
  -1020 <= Zdigits2 (Zpos mT) + eT - (Zdigits2 (Zpos md) + ed) ->
  2 <= Zdigits2 (Zpos md) + ed \/ (Zpos md = 2 ^ 52 /\ ed = -52) ->
  exists p e,
    div (S754_finite false mT eT) (S754_finite false md ed)
    = S754_finite false p e
    /\ div (S754_finite false mT eT) (S754_finite false md (ed + 1))
       = S754_finite false p (e - 1).
Proof.
  intros DT ET A DD.
  rewrite !div_finite, !div_core_eq.
  set (dT := Zdigits2 (Zpos mT)) in *.
  set (dd := Zdigits2 (Zpos md)) in *.
  set (a := dT + eT - (dd + ed)) in *.
  replace (dT + eT - (dd + (ed + 1))) with (a - 1) by (unfold a; lia).
  assert (PT : 0 < dT) by (apply Zdigits2_pos; lia).
  assert (Pd : 0 < dd) by (apply Zdigits2_pos; lia).
  assert (E1 : Z.min (fexp a) (eT - ed) = a - 53)
    by (rewrite fexp_eq; unfold a; lia).
  assert (E2 : Z.min (fexp (a - 1)) (eT - (ed + 1)) = a - 54)
    by (rewrite fexp_eq; unfold a; lia).
  rewrite E1, E2.
  replace (eT - (ed + 1) - (a - 54)) with (eT - ed - (a - 53)) by lia.
  set (s := eT - ed - (a - 53)).
  assert (Hs : s = 53 - dT + dd) by (unfold s, a; lia).
  set (m' := Zpos mT * 2 ^ s).
  set (q := m' / Zpos md).
  set (l := new_location (Zpos md) (m' mod Zpos md)).
  cbv zeta; cbn [xorb].
  assert (Pm : 0 < m') by (apply Z.mul_pos_pos; [lia|apply Z.pow_pos_nonneg; lia]).
  assert (Dm : Zdigits2 m' = dT + s)
    by (unfold m'; apply Zdigits2_mul_pow2; lia).
  assert (Q52 : 2 ^ 52 <= q).
  { apply Z.div_le_lower_bound; [lia|].
    pose proof (Zdigits2_bounds m' Pm) as [L _].
    pose proof (Zdigits2_bounds (Zpos md)) as [_ U]; [lia|]. fold dd in U.
    rewrite Dm in L. replace (dT + s - 1) with (dd + 52) in L by lia.
    rewrite Z.pow_add_r in L by lia.
    assert (0 < 2 ^ 52) by (apply Z.pow_pos_nonneg; lia). nia. }
  assert (Pq : 0 < q) by (assert (0 < 2 ^ 52) by (apply Z.pow_pos_nonneg; lia); lia).
  assert (Dq : 53 <= Zdigits2 q) by (apply (Zdigits2_ge_pow2 q 52); lia).
  assert (Dq' : Zdigits2 q <= 54).
  { pose proof (quotient_digits m' (Zpos md)) as D. fold q in D. fold dd in D.
    rewrite Dm in D. lia. }
  destruct (rounded_scale q (a - 53) l Pq) as [SM SE]; [lia|].
  replace (a - 53 - 1) with (a - 54) in * by lia.
  rewrite SM, SE.
  pose proof (rounded_man_pos q (a - 53) l Pq) as MP.
  assert (EC : rounded_exp q (a - 53) l <= 971).
  { destruct DD as [DD | [M1 E1']].
    - pose proof (rounded_exp_upper q (a - 53) l) as U.
      rewrite !fexp_eq in U. unfold a in *. lia.
    - assert (Hdd : dd = 53) by (unfold dd; rewrite M1; reflexivity).
      assert (Hq : q = Zpos mT * 2 ^ (54 - dT)).
      { unfold q, m'. rewrite M1, Hs, Hdd.
        replace (53 - dT + 53) with ((54 - dT) + 52) by lia.
        rewrite Z.pow_add_r, Z.mul_assoc by lia.
        apply Z.div_mul. apply Z.pow_nonzero; lia. }
      assert (Hl : l = loc_Exact).
      { unfold l, m'. rewrite M1, Hs, Hdd.
        replace (53 - dT + 53) with ((54 - dT) + 52) by lia.
        rewrite Z.pow_add_r, Z.mul_assoc by lia.
        rewrite Z.mod_mul by (apply Z.pow_nonzero; lia).
        apply new_location_0. }
      rewrite Hl.
      pose proof (rounded_exp_exact q (a - 53)) as X; cbv zeta in X.
      assert (Ea : Z.max (a - 53) (fexp (Zdigits2 q + (a - 53))) = a - 52).
      { assert (Zdigits2 q = 54).
        { rewrite Hq, Zdigits2_mul_pow2 by lia. fold dT. lia. }
        rewrite fexp_eq. lia. }
      rewrite Ea in X. rewrite X; [unfold a; lia|lia|].
      replace (a - 52 - (a - 53)) with 1 by lia.
      exists (Zpos mT * 2 ^ (53 - dT)). rewrite Hq.
      replace (54 - dT) with (53 - dT + 1) by lia.
      rewrite Z.pow_add_r by lia. change (2 ^ 1) with 2. lia. }
  specialize (MP ltac:(lia)).
  unfold out. destruct (rounded_man q (a - 53) l) as [|p|p]; try lia.
  change (emax - prec) with 971.
  exists p, (rounded_exp q (a - 53) l).
  destruct (Z.leb_spec (rounded_exp q (a - 53) l) 971); [|lia].
  destruct (Z.leb_spec (rounded_exp q (a - 53) l - 1) 971); [|lia].
  split; reflexivity.
Qed.

(** *** Rounding to one decimal *)

Lemma tenths_neg m p :
  let n := 10 * Zpos m in
  let d := 2 ^ Zpos p in
  0 <= tenths m (Zneg p)
  /\ -d <= 2 * (tenths m (Zneg p) * d - n) <= d.
Proof.
  intros n d; unfold tenths.
  change (Z.pow_pos 2 p) with d. fold n.
  assert (Pd : 0 < d) by (apply Z.pow_pos_nonneg; lia).
  pose proof (Z.div_mod n d ltac:(lia)) as E.
  pose proof (Z.mod_pos_bound n d Pd) as B.
  assert (Q : 0 <= n / d) by (apply Z.div_pos; lia).
  destruct (Z.compare_spec (2 * (n mod d)) d);
    [destruct (Z.even (n / d))|..]; split; nia.
Qed.

Lemma tenths_nonneg m e : 0 <= tenths m e.
Proof.
  destruct e as [|p|p].
  - unfold tenths; lia.
  - unfold tenths. apply Z.mul_nonneg_nonneg; [lia|apply Z.pow_nonneg; lia].
  - apply tenths_neg.
Qed.

Lemma tenths_tiny m e :
  Zdigits2 (Zpos m) + e <= -5 -> tenths m e = 0.
Proof.
  intros H.
  pose proof (Zdigits2_bounds (Zpos m) ltac:(lia)) as [_ U].
  pose proof (Zdigits2_pos (Zpos m) ltac:(lia)) as P.
  destruct e as [|p|p]; try lia.
  pose proof (tenths_neg m p) as [N B]; cbv zeta in B.
  assert (L : 2 ^ (Zdigits2 (Zpos m) + 5) <= 2 ^ Zpos p)
    by (apply Z.pow_le_mono_r; lia).
  rewrite Z.pow_add_r in L by lia. change (2 ^ 5) with 32 in L.
  assert (0 < 2 ^ Zpos p) by (apply Z.pow_pos_nonneg; lia).
  nia.
Qed.

Lemma tenths_exact m e : 0 <= e -> tenths m e = 10 * Zpos m * 2 ^ e.
Proof. destruct e; try reflexivity; lia. Qed.

Lemma tenths_half m e :
  -1 <= 2 * tenths m (e - 1) - tenths m e <= 1.
Proof.
  destruct (Z.lt_trichotomy e 0) as [L | [-> | G]].
  - destruct e as [|p|p]; try lia.
    replace (Zneg p - 1) with (Zneg (p + 1)) by lia.
    pose proof (tenths_neg m p) as [N1 B1]; cbv zeta in B1.
    pose proof (tenths_neg m (p + 1)) as [N2 B2]; cbv zeta in B2.
    rewrite Pos2Z.inj_add, Z.pow_add_r in B2 by lia. change (2 ^ 1) with 2 in B2.
    assert (0 < 2 ^ Zpos p) by (apply Z.pow_pos_nonneg; lia).
    nia.
  - pose proof (tenths_neg m 1) as [N B]; cbv zeta in B.
    change (0 - 1) with (Zneg 1). change (2 ^ 1) with 2 in B.
    rewrite (tenths_exact m 0) by lia. change (2 ^ 0) with 1. lia.
  - rewrite (tenths_exact m e), (tenths_exact m (e - 1)) by lia.
    assert (P : 2 ^ e = 2 * 2 ^ (e - 1))
      by (rewrite <- Z.pow_succ_r by lia; f_equal; lia).
    rewrite P. lia.
Qed.

Lemma round1_finite m e :
  round1 (S754_finite false m e) = decimal (tenths m e).
Proof. unfold round1, decimal. destruct (tenths m e); reflexivity. Qed.

Lemma round1_tiny x : tiny x -> round1 x = decimal 0.
Proof.
  destruct x as [s|s| |s m e]; cbn [tiny]; try contradiction.
  - intros ->; reflexivity.
  - intros [-> H]. rewrite round1_finite, tenths_tiny by lia. reflexivity.
Qed.

(** *** The conversion of an integer *)

Lemma iter_xO mx d : Zpos (Pos.iter xO mx d) = Zpos mx * 2 ^ Zpos d.
Proof.
  induction d as [|d IH] using Pos.peano_ind.
  - simpl; lia.
  - rewrite Pos.iter_succ, Pos2Z.inj_xO, IH, Pos2Z.inj_succ, Z.pow_succ_r by lia.
    lia.
Qed.

Lemma shl_align_spec mx ex ex' :
  Zpos (fst (shl_align mx ex ex')) = Zpos mx * 2 ^ (ex - Z.min ex ex')
  /\ snd (shl_align mx ex ex') = Z.min ex ex'.
Proof.
  unfold shl_align. destruct (ex' - ex) as [|d|d] eqn:E; cbn [fst snd].
  - replace (Z.min ex ex') with ex by lia. rewrite Z.sub_diag. simpl; lia.
  - replace (Z.min ex ex') with ex by lia. rewrite Z.sub_diag. simpl; lia.
  - replace (Z.min ex ex') with ex' by lia.
    replace (ex - ex') with (Zpos d) by lia. split; [apply iter_xO|trivial].
Qed.

Lemma of_Z_pos p :
  of_Z (Zpos p)
  = let '(mz, ez) := shl_align p 0 (fexp (Zdigits2 (Zpos p))) in
    out false (rounded_man (Zpos mz) ez loc_Exact)
              (rounded_exp (Zpos mz) ez loc_Exact).
Proof.
  unfold of_Z, binary_normalize, binary_round.
  rewrite Z.add_0_r.
  change (SpecFloat.fexp prec emax (Z.pos (digits2_pos p)))
    with (fexp (Zdigits2 (Zpos p))).
  destruct (shl_align p 0 (fexp (Zdigits2 (Z.pos p)))) as [mz ez].
  apply binary_round_aux_rounded.
Qed.

Lemma shifted_double z n :
  0 <= n -> shifted (2 * z) loc_Exact (n + 1) = shifted z loc_Exact n.
Proof.
  intros H; unfold shifted, shr; cbn [shr_record_of_loc].
  destruct n as [|q|q]; try lia.
  - cbn [Z.add fst iter_pos]. apply shr_1_even.
  - replace (Zpos q + 1) with (Zpos (Pos.succ q)) by lia. cbn [fst].
    rewrite !iter_pos_iter, Pos.iter_succ, <- Pos.iter_swap, shr_1_even.
    reflexivity.
Qed.

Lemma rounded_double z :
  0 < z -> 53 <= Zdigits2 z ->
  rounded_man (2 * z) 0 loc_Exact = rounded_man z 0 loc_Exact
  /\ rounded_exp (2 * z) 0 loc_Exact = rounded_exp z 0 loc_Exact + 1.
Proof.
  intros P D.
  assert (D2 : Zdigits2 (2 * z) = Zdigits2 z + 1).
  { rewrite (Z.mul_comm 2 z). change 2 with (2 ^ 1) at 1.
    apply Zdigits2_mul_pow2; lia. }
  unfold rounded_man, rounded_exp. rewrite D2, !Z.add_0_r.
  set (n := Z.max 0 (fexp (Zdigits2 z))).
  assert (N : Z.max 0 (fexp (Zdigits2 z + 1)) = n + 1)
    by (unfold n; rewrite !fexp_eq; lia).
  assert (N0 : 0 <= n) by (unfold n; lia).
  rewrite N, !Z.sub_0_r.
  assert (R : rnd (2 * z) loc_Exact (n + 1) = rnd z loc_Exact n)
    by (unfold rnd; rewrite shifted_double by trivial; reflexivity).
  rewrite R. set (mb := rnd z loc_Exact n).
  pose proof (Zdigits2_nonneg mb).
  assert (C : Z.max (n + 1) (fexp (Zdigits2 mb + (n + 1)))
              = Z.max n (fexp (Zdigits2 mb + n)) + 1)
    by (rewrite !fexp_eq; lia).
  rewrite C. split; [|reflexivity].
  f_equal; f_equal; lia.
Qed.

(** An integer and its double convert to the same mantissa, one exponent
    apart. *)
Lemma of_Z_double p :
  exists mc ec,
    0 < mc
    /\ Zdigits2 (Zpos p) <= Zdigits2 mc + ec
    /\ of_Z (Zpos p) = out false mc ec
    /\ of_Z (Zpos p~0) = out false mc (ec + 1).
Proof.
  rewrite !of_Z_pos.
  set (dz := Zdigits2 (Zpos p)).
  assert (D2 : Zdigits2 (Zpos p~0) = dz + 1).
  { change (Zpos p~0) with (2 * Zpos p). rewrite (Z.mul_comm 2).
    change 2 with (2 ^ 1) at 1. apply Zdigits2_mul_pow2; lia. }
  rewrite D2.
  assert (Pz : 0 < dz) by (apply Zdigits2_pos; lia).
  pose proof (shl_align_spec p 0 (fexp dz)) as [M1 E1].
  pose proof (shl_align_spec p~0 0 (fexp (dz + 1))) as [M2 E2].
  destruct (shl_align p 0 (fexp dz)) as [mz ez].
  destruct (shl_align p~0 0 (fexp (dz + 1))) as [mz' ez'].
  cbn [fst snd] in *. rewrite !fexp_eq in *.
  destruct (Z.le_gt_cases dz 52) as [S | L].
  - assert (Ez : ez = dz - 53) by lia.
    assert (Ez' : ez' = ez + 1) by lia.
    assert (Mz : Zpos mz = Zpos p * 2 ^ (53 - dz))
      by (rewrite M1; f_equal; f_equal; lia).
    assert (Mz' : Zpos mz' = Zpos mz).
    { rewrite M2, Mz. change (Zpos p~0) with (2 * Zpos p).
      replace (0 - Z.min 0 (Z.max (dz + 1 - 53) (-1074))) with (52 - dz) by lia.
      replace (53 - dz) with (52 - dz + 1) by lia.
      rewrite (Z.pow_add_r 2 (52 - dz) 1) by lia. change (2 ^ 1) with 2. lia. }
    assert (Dm : Zdigits2 (Zpos mz) = 53)
      by (rewrite Mz, Zdigits2_mul_pow2 by lia; fold dz; lia).
    rewrite Mz', Ez'.
    destruct (rounded_scale (Zpos mz) (ez + 1) loc_Exact) as [SM SE]; [lia|lia|].
    replace (ez + 1 - 1) with ez in * by lia.
    exists (rounded_man (Zpos mz) ez loc_Exact), (rounded_exp (Zpos mz) ez loc_Exact).
    repeat split.
    + apply rounded_man_pos; lia.
    + pose proof (rounded_magnitude_lower (Zpos mz) ez loc_Exact); lia.
    + rewrite <- SM. f_equal. lia.
  - assert (Ez : ez = 0) by lia.
    assert (Ez' : ez' = 0) by lia.
    assert (Mz : Zpos mz = Zpos p)
      by (rewrite M1; replace (0 - Z.min 0 (Z.max (dz - 53) (-1074))) with 0 by lia;
          simpl; lia).
    assert (Mz' : Zpos mz' = 2 * Zpos p)
      by (rewrite M2; replace (0 - Z.min 0 (Z.max (dz + 1 - 53) (-1074))) with 0 by lia;
          simpl; lia).
    rewrite Mz, Mz', Ez, Ez'.
    destruct (rounded_double (Zpos p)) as [RM RE]; [lia|unfold dz in *; lia|].
    rewrite RM, RE.
    exists (rounded_man (Zpos p) 0 loc_Exact), (rounded_exp (Zpos p) 0 loc_Exact).
    repeat split.
    + apply rounded_man_pos; [lia|unfold dz in *; lia].
    + pose proof (rounded_magnitude_lower (Zpos p) 0 loc_Exact). unfold dz in *. lia.
Qed.

Lemma of_int_double s d d2 :
  1 <= s ->
  of_int s = Ok d -> of_int (2 * s) = Ok d2 ->
  exists md ed,
    d = S754_finite false md ed
    /\ d2 = S754_finite false md (ed + 1)
    /\ (2 <= Zdigits2 (Zpos md) + ed \/ (Zpos md = 2 ^ 52 /\ ed = -52)).
Proof.
  intros S; destruct s as [|p|p]; try lia.
  change (2 * Zpos p) with (Zpos p~0).
  unfold of_int.
  destruct (of_Z_double p) as (mc & ec & P & M & E1 & E2).
  rewrite E1, E2. unfold out.
  destruct mc as [|q|q]; try lia.
  change (emax - prec) with 971.
  destruct (Z.leb_spec (ec + 1) 971); [|discriminate].
  destruct (Z.leb_spec ec 971); [|lia].
  intros [= <-] [= <-]. exists q, ec. repeat split.
  destruct (Pos.eq_dec p 1) as [-> | N].
  - right.
    assert (O1 : of_Z 1 = S754_finite false 4503599627370496 (-52))
      by (vm_compute; reflexivity).
    rewrite O1 in E1. unfold out in E1.
    change (emax - prec) with 971 in E1.
    destruct (ec <=? 971); [|discriminate].
    injection E1 as <- <-. split; reflexivity.
  - left. assert (2 <= Zdigits2 (Zpos p)); [|lia].
    apply (Zdigits2_ge_pow2 (Zpos p) 1); lia.
Qed.

(** A positive integer converts to a positive float, when it converts. *)
Lemma of_int_finite s d :
  1 <= s -> of_int s = Ok d -> exists md ed, d = S754_finite false md ed.
Proof.
  intros S; destruct s as [|p|p]; try lia.
  unfold of_int.
  destruct (of_Z_double p) as (mc & ec & P & _ & E1 & _).
  rewrite E1. unfold out.
  destruct mc as [|q|q]; try lia.
  destruct (ec <=? emax - prec); [|discriminate].
  intros [= <-]; eauto.
Qed.

(** Below [2 ^ 1023] every positive integer converts. *)
Lemma of_int_defined z :
  1 <= z < 2 ^ 1023 -> exists md ed, of_int z = Ok (S754_finite false md ed).
Proof.
  intros [L U]; destruct z as [|p|p]; try lia.
  unfold of_int; rewrite of_Z_pos.
  set (dz := Zdigits2 (Zpos p)).
  assert (D1 : 0 < dz) by (apply Zdigits2_pos; lia).
  assert (D2 : dz <= 1023) by (apply Zdigits2_lt_pow2; lia).
  pose proof (shl_align_spec p 0 (fexp dz)) as [M E].
  destruct (shl_align p 0 (fexp dz)) as [mz ez]; cbn [fst snd] in M, E.
  rewrite fexp_eq in E.
  assert (Dm : Zdigits2 (Zpos mz) = dz - ez).
  { rewrite M, Zdigits2_mul_pow2 by lia. fold dz. rewrite fexp_eq. lia. }
  pose proof (rounded_man_pos (Zpos mz) ez loc_Exact) as MP.
  pose proof (rounded_exp_upper (Zpos mz) ez loc_Exact) as EU.
  rewrite Dm, !fexp_eq in EU.
  unfold out.
  destruct (rounded_man (Zpos mz) ez loc_Exact) as [|q|q]; try lia.
  change (emax - prec) with 971.
  destruct (Z.leb_spec (rounded_exp (Zpos mz) ez loc_Exact) 971); [eauto|lia].
Qed.

(** *** Sums and quotients stay non-negative *)

Lemma add_nonneg_bounded x y :
  nonneg_bounded x -> nonneg_bounded y -> nonneg_bounded (add x y).
Proof.
  destruct x as [sx|sx| |sx mx ex], y as [sy|sy| |sy my ey];
    cbn [nonneg_bounded]; intros Hx Hy; try contradiction;
    try destruct Hx as (Hx & Dx & Ex); try destruct Hy as (Hy & Dy & Ey);
    subst;
    try (unfold add, SFadd; cbn [nonneg_bounded]; repeat split; trivial; lia).
  unfold add, SFadd. cbn [cond_Zopp Z.add].
  unfold binary_normalize, binary_round.
  destruct (shl_align _ _ _) as [mz ez].
  apply out_nonneg_bounded; lia.
Qed.

Lemma div_nonneg_bounded x md ed :
  nonneg_bounded x ->
  nonneg_bounded (div x (S754_finite false md ed)).
Proof.
  destruct x as [sx|sx| |sx mx ex]; cbn [nonneg_bounded]; try contradiction.
  - intros ->; reflexivity.
  - intros ->; reflexivity.
  - intros (-> & _). unfold div, SFdiv.
    pose proof (div_core_upper mx ex md ed) as U; cbv zeta in U.
    destruct (SFdiv_core_binary prec emax (Z.pos mx) ex (Z.pos md) ed) as [[q e'] l].
    destruct U as (Q & _). cbn [xorb]. apply out_nonneg_bounded; trivial.
Qed.

Lemma nonneg_bounded_nonneg x : nonneg_bounded x -> nonneg x = true.
Proof.
  destruct x as [sx|sx| |sx mx ex]; cbn [nonneg_bounded]; try contradiction.
  - intros ->; reflexivity.
  - intros ->; reflexivity.
  - intros (-> & _); reflexivity.
Qed.

Lemma round1_nonneg x : nonneg_bounded x -> nonneg (round1 x) = true.
Proof.
  destruct x as [sx|sx| |sx mx ex]; cbn [nonneg_bounded]; try contradiction.
  - intros ->; reflexivity.
  - intros ->; reflexivity.
  - intros (-> & _). unfold round1.
    destruct (tenths mx ex) as [|k|k]; try reflexivity.
    apply nonneg_bounded_nonneg. unfold of_tenths, div, SFdiv.
    pose proof (div_core_upper k 0 10 0) as U; cbv zeta in U.
    destruct (SFdiv_core_binary prec emax (Z.pos k) 0 10 0) as [[q e'] l].
    destruct U as (Q & _). cbn [xorb]. apply out_nonneg_bounded; trivial.
Qed.

(** *** Twice the servings *)

Lemma halves_zero : halves (decimal 0) (decimal 0).
Proof. right; exists 0, 0; repeat split; lia. Qed.

Lemma per_serving_halves x md ed :
  nonneg_bounded x ->
  2 <= Zdigits2 (Zpos md) + ed \/ (Zpos md = 2 ^ 52 /\ ed = -52) ->
  halves (round1 (div x (S754_finite false md (ed + 1))))
         (round1 (div x (S754_finite false md ed))).
Proof.
  intros B D.
  destruct x as [sx|sx| |sx mx ex]; cbn [nonneg_bounded] in B; try contradiction.
  - subst sx. apply halves_zero.
  - subst sx. left; split; reflexivity.
  - destruct B as (-> & DT & ET).
    destruct (Z.le_gt_cases (-1020)
                (Zdigits2 (Zpos mx) + ex - (Zdigits2 (Zpos md) + ed))) as [N | T].
    + destruct (div_normal mx ex md ed) as (p & e & -> & ->); trivial; try lia.
      rewrite !round1_finite.
      right; exists (tenths p e), (tenths p (e - 1)).
      repeat split; try apply tenths_nonneg; apply tenths_half.
    + rewrite (round1_tiny (div _ (S754_finite false md ed)))
        by (apply div_tiny; lia).
      rewrite (round1_tiny (div _ (S754_finite false md (ed + 1))))
        by (apply div_tiny; lia).
      apply halves_zero.
Qed.

(** *** The totals *)

Lemma assoc_In (V : Type) (k : string) (d : list (string * V)) (v : V) :
  assoc k d = Some v -> exists k', In (k', v) d.
Proof.
  induction d as [|[k0 v0] r IH]; simpl; [discriminate|].
  destruct (k0 =? k)%string.
  - intros [= ->]; eauto.
  - intros H; destruct (IH H) as [k' I]; eauto.
Qed.

Lemma table_bounded :
  Forall (fun kv => macros_bounded (snd kv)) NUTRITION_DB
  /\ macros_bounded default_entry.
Proof.
  split; [repeat constructor|repeat split]; vm_compute; intuition discriminate.
Qed.

Lemma contribution_bounded key : macros_bounded (contribution key).
Proof.
  destruct table_bounded as [T D]. unfold contribution.
  destruct (assoc key NUTRITION_DB) as [d|] eqn:E; trivial.
  apply assoc_In in E as [k' I].
  rewrite Forall_forall in T. exact (T _ I).
Qed.

Lemma add_macros_bounded t d :
  macros_bounded t -> macros_bounded d -> macros_bounded (add_macros t d).
Proof.
  intros (A & B & C & D) (A' & B' & C' & D').
  repeat split; cbn [add_macros cal protein fat carb];
    apply add_nonneg_bounded; trivial.
Qed.

Lemma sum_ingredients_bounded l : forall t t',
  macros_bounded t -> sum_ingredients l t = Ok t' -> macros_bounded t'.
Proof.
  induction l as [|ing rest IH]; intros t t' B; cbn [sum_ingredients].
  - now intros [= <-].
  - destruct (key_of ing) as [key|e]; [|discriminate]; cbn [bind].
    apply IH. apply add_macros_bounded; [trivial|apply contribution_bounded].
Qed.

Lemma zero_total_bounded : macros_bounded zero_total.
Proof. repeat split. Qed.

End F64Facts.

(** ** The nutrition estimator *)

(** C9.  [estimate_nutrition(["chicken"], 1)] returns, as calories, the
    float 165.0: the table's entry, divided by 1 and rounded to one
    decimal. *)
Theorem estimate_chicken :
  exists m,
    estimate_nutrition ["chicken"] 1 = Ok m
    /\ cal m = F64.of_Z 165
    /\ cal m = S754_finite false 5805421394657280 (-45)
    /\ Zpos 5805421394657280 = 165 * 2 ^ 45
    /\ cal m = F64.round1 (F64.div (F64.of_Z 165) (F64.of_Z 1))
    /\ option_map cal (assoc "chicken" NUTRITION_DB) = Some (F64.of_Z 165).
Proof.
  eexists; split; [vm_compute; reflexivity|].
  repeat split; vm_compute; reflexivity.
Qed.

(** ** The nutrition estimator: where it is defined *)

Module EstimateFacts.

Lemma strip_starts (s : string) :
  Str.strip s <> EmptyString -> Str.starts_nonspace (Str.strip s) = true.
Proof.
  unfold Str.strip; intros N.
  destruct (StrFacts.lstrip_starts s) as [E | E].
  - rewrite E in N; now contradiction N.
  - now apply StrFacts.rstrip_starts.
Qed.

Lemma starts_nonspace_lower (s : string) :
  Str.starts_nonspace (Str.lower s) = Str.starts_nonspace s.
Proof.
  destruct s as [|c r]; simpl; trivial.
  now rewrite StrFacts.isspace_lower_char.
Qed.

Lemma split_nonempty (s : string) :
  Str.starts_nonspace s = true -> Str.split s <> [].
Proof.
  destruct s as [|c r]; simpl; [discriminate|].
  intros H; apply negb_true_iff in H; rewrite H.
  destruct r as [|c2 r2]; [discriminate|].
  destruct (Str.isspace c2); [discriminate|].
  destruct (Str.split (String c2 r2)); discriminate.
Qed.

(** An ingredient with a character that is not whitespace has a key. *)
Lemma key_of_defined (ing : string) :
  Str.strip ing <> EmptyString -> exists key, key_of ing = Ok key.
Proof.
  intros N; unfold key_of.
  pose proof (split_nonempty (Str.lower (Str.strip ing))) as S.
  rewrite starts_nonspace_lower in S; specialize (S (strip_starts _ N)).
  destruct (Str.split (Str.lower (Str.strip ing))); [contradiction|eauto].
Qed.

(** Conversely a blank ingredient has none. *)
Lemma key_of_blank (ing : string) :
  Str.strip ing = EmptyString -> key_of ing = Raise IndexError.
Proof. intros E; unfold key_of; now rewrite E. Qed.

Lemma sum_ingredients_defined (ingredients_list : list string) :
  Forall (fun ing => Str.strip ing <> EmptyString) ingredients_list ->
  forall total, exists total',
    sum_ingredients ingredients_list total = Ok total'.
Proof.
  induction 1 as [|ing rest N _ IH]; intros total; cbn [sum_ingredients];
    [eauto|].
  destruct (key_of_defined ing N) as [key ->]; cbn [bind]; apply IH.
Qed.

Lemma max_clamp (servings : Z) : servings <= 0 -> Z.max 1 servings = Z.max 1 1.
Proof. lia. Qed.

End EstimateFacts.

(** C1, as the code has it.  On ingredients that all have a character
    other than whitespace, and with a number of servings that converts
    to a float once clamped, [estimate_nutrition] returns the four totals,
    each divided by the clamped servings and rounded; an ingredient whose
    key is not in the table adds 20, 0.5, 0.1 and 1 to the totals; a
    number of servings of 0 or less gives what 1 gives; and every number
    of servings below [2 ^ 1023] converts. *)
Theorem estimate_nutrition_defined (ingredients_list : list string)
    (servings : Z) (d : spec_float) :
  Forall (fun ing => Str.strip ing <> EmptyString) ingredients_list ->
  F64.of_int (Z.max 1 servings) = Ok d ->
  (exists total,
     sum_ingredients ingredients_list zero_total = Ok total
     /\ estimate_nutrition ingredients_list servings
        = Ok {| cal := F64.round1 (F64.div (cal total) d);
                protein := F64.round1 (F64.div (protein total) d);
                fat := F64.round1 (F64.div (fat total) d);
                carb := F64.round1 (F64.div (carb total) d) |})
  /\ (forall ing key rest total,
        key_of ing = Ok key ->
        assoc key NUTRITION_DB = None ->
        sum_ingredients (ing :: rest) total
        = sum_ingredients rest
            {| cal := F64.add (cal total) (F64.of_Z 20);
               protein := F64.add (protein total) (F64.tenth 5);
               fat := F64.add (fat total) (F64.tenth 1);
               carb := F64.add (carb total) (F64.of_Z 1) |})
  /\ (servings <= 0 ->
      estimate_nutrition ingredients_list servings
      = estimate_nutrition ingredients_list 1)
  /\ (forall n, n < 2 ^ 1023 ->
        exists m e, F64.of_int (Z.max 1 n) = Ok (S754_finite false m e)).
Proof.
  intros N D; repeat split.
  - destruct (EstimateFacts.sum_ingredients_defined _ N zero_total) as [t E].
    exists t; split; trivial.
    unfold estimate_nutrition, per_serving; rewrite E, D; reflexivity.
  - intros ing key rest total K A; cbn [sum_ingredients].
    rewrite K; cbn [bind]; unfold contribution; rewrite A; reflexivity.
  - intros S; unfold estimate_nutrition, per_serving.
    now rewrite (EstimateFacts.max_clamp servings S).
  - intros n Hn; apply F64Facts.of_int_defined.
    assert (1 < 2 ^ 1023) by (apply Z.pow_gt_1; lia). lia.
Qed.

Lemma estimate_nutrition_defined_witness :
  exists total,
    sum_ingredients ["Chicken breast"; "   saffron threads"] zero_total = Ok total
    /\ estimate_nutrition ["Chicken breast"; "   saffron threads"] (-3)
       = Ok {| cal := F64.round1 (F64.div (cal total) (F64.of_Z 1));
               protein := F64.round1 (F64.div (protein total) (F64.of_Z 1));
               fat := F64.round1 (F64.div (fat total) (F64.of_Z 1));
               carb := F64.round1 (F64.div (carb total) (F64.of_Z 1)) |}.
Proof.
  apply (estimate_nutrition_defined ["Chicken breast"; "   saffron threads"]
           (-3) (F64.of_Z 1)).
  - repeat constructor; vm_compute; discriminate.
  - vm_compute; reflexivity.
Defined.

(** C1, as it is stated, fails: a blank ingredient has no first token and
    the subscript raises; and a number of servings too large for a float
    makes the division raise. *)
Lemma estimate_nutrition_raises :
  estimate_nutrition [EmptyString] 2 = Raise IndexError
  /\ estimate_nutrition ["rice"; "   "] 2 = Raise IndexError
  /\ estimate_nutrition ["rice"] (2 ^ 1024) = Raise OverflowError.
Proof. repeat split; vm_compute; reflexivity. Qed.

(** ** The nutrition estimator: twice the servings *)

(** C5.  Where [estimate_nutrition] returns for [s >= 1] servings, its
    four values are not negative; for twice as many servings it returns
    too (as long as [2 * s] is below [2 ^ 1023]), and each value for
    [2 * s] is then half of the value for [s] up to the rounding to one
    decimal: the two are the floats of [k2 / 10] and [k1 / 10] with
    [2 * k2] within 1 of [k1]. *)
Theorem estimate_halves_when_servings_double
    (ingredients_list : list string) (s : Z) (m1 : macros) :
  1 <= s ->
  estimate_nutrition ingredients_list s = Ok m1 ->
  (F64.nonneg (cal m1) = true /\ F64.nonneg (protein m1) = true
   /\ F64.nonneg (fat m1) = true /\ F64.nonneg (carb m1) = true)
  /\ (2 * s < 2 ^ 1023 ->
      exists m2, estimate_nutrition ingredients_list (2 * s) = Ok m2)
  /\ (forall m2,
        estimate_nutrition ingredients_list (2 * s) = Ok m2 ->
        (F64.nonneg (cal m2) = true /\ F64.nonneg (protein m2) = true
         /\ F64.nonneg (fat m2) = true /\ F64.nonneg (carb m2) = true)
        /\ F64.halves (cal m2) (cal m1)
        /\ F64.halves (protein m2) (protein m1)
        /\ F64.halves (fat m2) (fat m1)
        /\ F64.halves (carb m2) (carb m1)).
Proof.
  intros S; unfold estimate_nutrition, per_serving.
  destruct (sum_ingredients ingredients_list zero_total) as [t|e] eqn:T;
    [|discriminate]; cbn [bind].
  apply F64Facts.sum_ingredients_bounded in T; [|apply F64Facts.zero_total_bounded].
  destruct T as (A & B & C & D).
  rewrite !Z.max_r by lia.
  destruct (F64.of_int s) as [d|e] eqn:E1; [|discriminate].
  cbn [bind]; intros [= <-]; cbn [entry cal protein fat carb].
  destruct (F64Facts.of_int_finite s d S E1) as (md & ed & Hd).
  split; [|split].
  - subst d; repeat split;
      apply F64Facts.round1_nonneg, F64Facts.div_nonneg_bounded; assumption.
  - intros U.
    destruct (F64Facts.of_int_defined (2 * s)) as (m & e & ->); [lia|].
    cbn [bind]; eauto.
  - intros m2.
    destruct (F64.of_int (2 * s)) as [d2|e] eqn:E2; [|discriminate].
    cbn [bind]; intros [= <-]; cbn [entry cal protein fat carb].
    destruct (F64Facts.of_int_double s d d2 S E1 E2) as (md' & ed' & -> & -> & M).
    repeat split;
      try (apply F64Facts.round1_nonneg, F64Facts.div_nonneg_bounded; assumption);
      apply F64Facts.per_serving_halves; assumption.
Qed.

Lemma estimate_halves_when_servings_double_witness :
  exists m1 m2,
    estimate_nutrition ["chicken"; "brown rice"; "salt"] 1 = Ok m1
    /\ estimate_nutrition ["chicken"; "brown rice"; "salt"] 2 = Ok m2
    /\ F64.halves (fat m2) (fat m1).
Proof.
  eexists; eexists; split; [vm_compute; reflexivity|].
  split; [vm_compute; reflexivity|].
  eapply (estimate_halves_when_servings_double
            ["chicken"; "brown rice"; "salt"] 1).
  - lia.
  - vm_compute; reflexivity.
  - vm_compute; reflexivity.
Defined.

(** * Further properties *)

(** ** The recipe store: errors, round trip, clearing *)

Section StoreMore.

Variable json_loads : string -> option json.
Variable json_dumps : json -> string.

Local Abbreviation load := (load_saved_recipes json_loads).
Local Abbreviation add := (add_recipe json_loads json_dumps).
Local Abbreviation delete := (delete_recipe json_loads json_dumps).



(** X3.  After the "Clear saved recipes" button the store loads as the
    empty list and [add_recipe] succeeds, whatever the file held before,
    a text that is not JSON included; with no file the button changes
    nothing. *)
Theorem clear_then_add (f : file) (r : json) :
  load (snd (clear_saved_recipes f)) = Ok (JList [])
  /\ add r (snd (clear_saved_recipes f))
     = (Ok tt, Some (json_dumps (JList [r])))
  /\ (f = None -> clear_saved_recipes f = (false, None)).
Proof.
  destruct f as [t|]; repeat split; try reflexivity; discriminate.
Qed.

(** X4.  On a document that is valid JSON but not a list, [add_recipe]
    raises [AttributeError], [delete_recipe] with a negative index does
    nothing, and no call of [delete_recipe] rewrites the file. *)
Theorem document_that_is_not_a_list (text : string) (v : json) :
  json_loads text = Some v ->
  (forall l, v <> JList l) ->
  (forall r, add r (Some text) = (Raise AttributeError, Some text))
  /\ (forall i, i < 0 -> delete i (Some text) = (Ok tt, Some text))
  /\ (forall i, snd (delete i (Some text)) = Some text).
Proof.
  intros Hv N; repeat split.
  - intros r; unfold add_recipe, load_saved_recipes; rewrite Hv.
    destruct v; try reflexivity. now contradiction (N l).
  - intros i Hi; unfold delete_recipe, load_saved_recipes; rewrite Hv.
    destruct (Z.leb_spec 0 i); [lia|reflexivity].
  - intros i; unfold delete_recipe, load_saved_recipes; rewrite Hv.
    destruct (0 <=? i); trivial.
    destruct v; cbn [len pop]; trivial;
      try (now contradiction (N l));
      match goal with |- context [i <? ?n] => destruct (i <? n) end; trivial.
Qed.

End StoreMore.



Lemma clear_then_add_witness :
  clear_saved_recipes None = (false, None).
Proof.
  apply (clear_then_add MiniJson.loads MiniJson.dumps None JNull).
  reflexivity.
Defined.

Lemma document_that_is_not_a_list_witness :
  snd (delete_recipe MiniJson.loads MiniJson.dumps 5 (Some "{}")) = Some "{}".
Proof.
  apply (document_that_is_not_a_list MiniJson.loads MiniJson.dumps "{}" (JDict [])).
  - vm_compute; reflexivity.
  - intros l; discriminate.
Defined.

(** ** The PDF generator: what the document holds *)

Module PdfMore.

Import Pdf PdfView.

Lemma texts_app (a b : list op) : texts (a ++ b) = texts a ++ texts b.
Proof. apply flat_map_app. Qed.

Lemma positions_app (a b : list op) :
  positions (a ++ b) = positions a ++ positions b.
Proof. apply flat_map_app. Qed.

Lemma fonts_app (a b : list op) : fonts (a ++ b) = fonts a ++ fonts b.
Proof. apply flat_map_app. Qed.

(** What [save] writes is what the canvas shows, for a view that is
    empty on the empty page. *)
Lemma save_whole (A : Type) (view : list op -> list A) (c : canvas) :
  view [] = [] -> List.concat (map view (save c)) = whole view c.
Proof.
  intros V; unfold save, whole, showPage.
  destruct (code c) as [|o os]; cbn [pages].
  - now rewrite V, app_nil_r.
  - rewrite map_app, concat_app; cbn [map List.concat]. now rewrite app_nil_r.
Qed.

Lemma draw_line_texts (st : canvas * Z) (line : string) :
  whole texts (fst (draw_line st line)) = whole texts (fst st) ++ [line].
Proof.
  destruct st as [pdf y]; unfold draw_line, whole.
  destruct (y - 14 <? 50); cbn [fst emit showPage pages code].
  - rewrite map_app, concat_app; cbn [map List.concat].
    rewrite texts_app, !app_nil_r, app_assoc; reflexivity.
  - rewrite texts_app, app_assoc; reflexivity.
Qed.

Lemma draw_lines_texts (lines : list string) :
  forall st,
  whole texts (fst (fold_left draw_line lines st))
  = whole texts (fst st) ++ lines.
Proof.
  induction lines as [|l lines IH]; intros st; cbn [fold_left].
  - now rewrite app_nil_r.
  - rewrite IH, draw_line_texts, <- app_assoc; reflexivity.
Qed.

(** The cursor stays between the margin and the top, and every string is
    drawn at abscissa 40, above the margin. *)
Lemma draw_line_positions (st : canvas * Z) (line : string) :
  50 <= snd st <= 732 ->
  Forall (fun p => fst p = 40 /\ 50 <= snd p <= 732)
         (whole positions (fst st)) ->
  50 <= snd (draw_line st line) <= 732
  /\ Forall (fun p => fst p = 40 /\ 50 <= snd p <= 732)
            (whole positions (fst (draw_line st line))).
Proof.
  destruct st as [pdf y]; cbn [fst snd]; intros Hy H.
  unfold draw_line, whole in *.
  destruct (Z.ltb_spec (y - 14) 50); cbn [fst snd emit showPage pages code].
  - split; [unfold height; lia|].
    rewrite map_app, concat_app; cbn [map List.concat].
    rewrite positions_app, !app_nil_r, app_assoc.
    apply Forall_app; split; trivial.
    repeat constructor; cbn [fst snd]; lia.
  - split; [lia|].
    rewrite positions_app, app_assoc.
    apply Forall_app; split; trivial.
    repeat constructor; cbn [fst snd]; lia.
Qed.

Lemma draw_lines_positions (lines : list string) :
  forall st,
  50 <= snd st <= 732 ->
  Forall (fun p => fst p = 40 /\ 50 <= snd p <= 732)
         (whole positions (fst st)) ->
  Forall (fun p => fst p = 40 /\ 50 <= snd p <= 732)
         (whole positions (fst (fold_left draw_line lines st))).
Proof.
  induction lines as [|l lines IH]; intros st Hy H; cbn [fold_left]; trivial.
  destruct (draw_line_positions st l Hy H) as [Hy' H'].
  now apply IH.
Qed.

(** No page is closed, or left pending, without a string on it. *)
Lemma draw_line_no_blank (st : canvas * Z) (line : string) :
  Forall (fun page => texts page <> []) (pages (fst st)) ->
  Forall (fun page => texts page <> []) (pages (fst (draw_line st line)))
  /\ (code (fst (draw_line st line)) = []
      \/ texts (code (fst (draw_line st line))) <> []).
Proof.
  destruct st as [pdf y]; cbn [fst]; intros H.
  assert (N : texts (code pdf ++ [DrawString 40 y line]) <> []).
  { rewrite texts_app; cbn. intros E; apply app_eq_nil in E as [_ E]; discriminate. }
  unfold draw_line.
  destruct (y - 14 <? 50); cbn [fst emit showPage pages code].
  - split; [|now left].
    apply Forall_app; split; trivial. now constructor.
  - split; [trivial|now right].
Qed.

Lemma draw_lines_no_blank (lines : list string) :
  forall st,
  Forall (fun page => texts page <> []) (pages (fst st)) ->
  code (fst st) = [] \/ texts (code (fst st)) <> [] ->
  Forall (fun page => texts page <> [])
         (pages (fst (fold_left draw_line lines st)))
  /\ (code (fst (fold_left draw_line lines st)) = []
      \/ texts (code (fst (fold_left draw_line lines st))) <> []).
Proof.
  induction lines as [|l lines IH]; intros st H C; cbn [fold_left]; [auto|].
  destruct (draw_line_no_blank st l H) as [H' C']. now apply IH.
Qed.

(** The fonts are set before the loop only: the pages of a canvas, the
    pending one included, keep the fonts of the first page and add
    none. *)
Lemma draw_line_fonts (F : list (string * Z)) (st : canvas * Z)
    (line : string) :
  map fonts (pages (fst st) ++ [code (fst st)])
  = F :: repeat [] (List.length (pages (fst st))) ->
  map fonts (pages (fst (draw_line st line))
             ++ [code (fst (draw_line st line))])
  = F :: repeat [] (List.length (pages (fst (draw_line st line)))).
Proof.
  destruct st as [pdf y]; cbn [fst]; unfold draw_line.
  assert (E : fonts (code pdf ++ [DrawString 40 y line]) = fonts (code pdf)).
  { rewrite fonts_app; cbn. apply app_nil_r. }
  destruct (y - 14 <? 50); cbn [fst emit showPage pages code]; intros H.
  - rewrite !map_app in *; cbn [map] in *. rewrite E, H.
    rewrite length_app, Nat.add_comm; cbn [List.length Nat.add app].
    f_equal. symmetry. apply (repeat_cons (List.length (pages pdf)) (@nil (string * Z))).
  - rewrite !map_app in *; cbn [map] in *. now rewrite E.
Qed.

Lemma draw_lines_fonts (F : list (string * Z)) (lines : list string) :
  forall st,
  map fonts (pages (fst st) ++ [code (fst st)])
  = F :: repeat [] (List.length (pages (fst st))) ->
  map fonts (pages (fst (fold_left draw_line lines st))
             ++ [code (fst (fold_left draw_line lines st))])
  = F :: repeat [] (List.length (pages (fst (fold_left draw_line lines st)))).
Proof.
  induction lines as [|l lines IH]; intros st H; cbn [fold_left]; trivial.
  apply IH, draw_line_fonts, H.
Qed.

Lemma save_fonts (F : list (string * Z)) (c : canvas) :
  F <> [] ->
  map fonts (pages c ++ [code c]) = F :: repeat [] (List.length (pages c)) ->
  map fonts (save c) = F :: repeat [] (List.length (save c) - 1).
Proof.
  intros NF H; unfold save, showPage.
  destruct (code c) as [|o os] eqn:C; cbn [pages].
  - destruct (List.length (pages c)) as [|n] eqn:L.
    + destruct (pages c); [|discriminate]. cbn in H. congruence.
    + rewrite map_app in H. cbn [map fonts flat_map] in H.
      cbn [repeat] in H.
      rewrite (repeat_cons n (@nil (string * Z))) in H.
      change (F :: repeat [] n ++ [[]])
        with ((F :: repeat (@nil (string * Z)) n) ++ [[]]) in H.
      apply app_inj_tail in H as [H _].
      rewrite H. do 2 f_equal. lia.
  - rewrite H, length_app. do 2 f_equal. cbn [List.length]. lia.
Qed.

End PdfMore.

Module PdfLayout.

Import Pdf PdfView.

Lemma spaced_snoc (y : Z) (l : list Z) :
  spaced l -> Forall (fun p => y <= p - 14) l -> spaced (l ++ [y]).
Proof.
  induction l as [|a [|b r] IH]; intros S H; cbn [app spaced]; trivial.
  - inversion H; subst; auto.
  - destruct S as [S1 S2]; split; trivial.
    apply IH; trivial. now inversion H.
Qed.

Lemma draw_line_spacing (st : canvas * Z) (line : string) :
  line_spacing st -> line_spacing (draw_line st line).
Proof.
  destruct st as [pdf y]; unfold line_spacing; cbn [fst snd].
  intros (P & S & B).
  assert (N : spaced (map snd (positions (code pdf ++ [DrawString 40 y line])))).
  { rewrite PdfMore.positions_app, map_app; cbn. now apply spaced_snoc. }
  unfold draw_line.
  destruct (y - 14 <? 50); cbn [fst snd emit showPage pages code].
  - repeat split; cbn; trivial.
    apply Forall_app; split; trivial. now constructor.
  - repeat split; trivial.
    rewrite PdfMore.positions_app, map_app; cbn.
    apply Forall_app; split.
    + eapply Forall_impl; [|exact B]. cbn; intros; lia.
    + repeat constructor; lia.
Qed.

Lemma draw_lines_spacing (lines : list string) :
  forall st, line_spacing st -> line_spacing (fold_left draw_line lines st).
Proof.
  induction lines as [|l lines IH]; intros st H; cbn [fold_left]; trivial.
  apply IH, draw_line_spacing, H.
Qed.

End PdfLayout.

(** X5.  The document of [recipe_to_pdf_bytes] for a text of [n] lines has
    exactly [1 + (n + 1) / 49] pages, and none of them is blank: every
    page carries at least one string. *)
Theorem pdf_page_count_and_no_blank_page (recipe_text title : string) :
  let n := Z.of_nat (List.length (Str.splitlines recipe_text)) in
  let doc := Pdf.recipe_to_pdf_bytes recipe_text title in
  Z.of_nat (List.length doc) = 1 + (n + 1) / 49
  /\ Forall (fun page => PdfView.texts page <> []) doc.
Proof.
  intros n doc; split; [apply PdfFacts.page_count|].
  unfold doc, Pdf.recipe_to_pdf_bytes.
  destruct (PdfMore.draw_lines_no_blank (Str.splitlines recipe_text)
              (Pdf.start title)) as [P C].
  - constructor.
  - right; cbn; discriminate.
  - unfold Pdf.save, Pdf.showPage.
    destruct (Pdf.code _) as [|o os] eqn:E; cbn [Pdf.pages]; trivial.
    apply Forall_app; split; trivial.
    constructor; [|constructor].
    destruct C as [C|C]; [discriminate|exact C].
Qed.

(** X6.  The strings of the document, read page after page, are the title
    followed by the lines of the text, in order and with nothing lost,
    repeated or cut. *)
Theorem pdf_draws_title_then_lines (recipe_text title : string) :
  List.concat (map PdfView.texts (Pdf.recipe_to_pdf_bytes recipe_text title))
  = title :: Str.splitlines recipe_text.
Proof.
  unfold Pdf.recipe_to_pdf_bytes.
  rewrite PdfMore.save_whole by reflexivity.
  rewrite PdfMore.draw_lines_texts. reflexivity.
Qed.

(** X7.  Every string of the document is drawn at abscissa 40 with an
    ordinate between the bottom margin 50 and the top 732, and on each page
    every string lies at least 14 below the one before it. *)
Theorem pdf_strings_inside_the_page (recipe_text title : string) :
  let doc := Pdf.recipe_to_pdf_bytes recipe_text title in
  Forall (fun p => fst p = 40 /\ 50 <= snd p <= 732)
         (List.concat (map PdfView.positions doc))
  /\ Forall (fun page => PdfView.spaced (map snd (PdfView.positions page)))
            doc.
Proof.
  intros doc; unfold doc, Pdf.recipe_to_pdf_bytes; split.
  - rewrite PdfMore.save_whole by reflexivity.
    apply PdfMore.draw_lines_positions.
    + cbn; unfold Pdf.height; lia.
    + repeat constructor; cbn; unfold Pdf.height; lia.
  - destruct (PdfLayout.draw_lines_spacing (Str.splitlines recipe_text)
                (Pdf.start title)) as (P & S & _).
    + unfold PdfView.line_spacing; cbn.
      repeat split; trivial; try lia.
      repeat constructor; unfold Pdf.height; lia.
    + unfold Pdf.save, Pdf.showPage.
      destruct (Pdf.code _) as [|o os] eqn:E; cbn [Pdf.pages]; trivial.
      apply Forall_app; split; trivial. now constructor.
Qed.

(** X8.  The two fonts are set on the first page only, the bold one for the
    title and the plain one after it: no later page of the document sets a
    font. *)
Theorem pdf_fonts_on_first_page_only (recipe_text title : string) :
  let doc := Pdf.recipe_to_pdf_bytes recipe_text title in
  map PdfView.fonts doc
  = [("Helvetica-Bold", 14); ("Helvetica", 10)]
    :: repeat [] (List.length doc - 1).
Proof.
  intros doc; unfold doc, Pdf.recipe_to_pdf_bytes.
  apply PdfMore.save_fonts; [discriminate|].
  apply PdfMore.draw_lines_fonts. reflexivity.
Qed.

(** ** The nutrition estimator: keys, case, and the "Nutrition" page *)

Module KeyFacts.

Lemma split_lstrip (s : string) : Str.split (Str.lstrip s) = Str.split s.
Proof.
  induction s as [|c r IH]; trivial.
  cbn [Str.lstrip]. destruct (Str.isspace c) eqn:E; trivial.
  rewrite IH. cbn [Str.split]. now rewrite E.
Qed.

Lemma split_rstrip (s : string) : Str.split (Str.rstrip s) = Str.split s.
Proof.
  induction s as [|c r IH]; trivial.
  cbn [Str.rstrip Str.split].
  destruct (Str.isspace c) eqn:E; cbn [andb].
  - destruct (Str.rstrip r) as [|c2 r2] eqn:R; cbn [Str.is_empty].
    + now rewrite <- IH.
    + cbn [Str.split]; rewrite E. exact IH.
  - cbn [Str.split]; rewrite E.
    destruct r as [|c2 r2]; trivial.
    destruct (Str.rstrip (String c2 r2)) as [|c3 r3] eqn:R.
    + cbn [Str.rstrip] in R.
      destruct (Str.isspace c2 && Str.is_empty (Str.rstrip r2)) eqn:B;
        [|discriminate].
      apply andb_true_iff in B as [B _]; rewrite B.
      now rewrite <- IH.
    + cbn [Str.rstrip] in R.
      destruct (Str.isspace c2 && Str.is_empty (Str.rstrip r2)) eqn:B;
        [discriminate|].
      injection R as <- _. now rewrite IH.
Qed.

Lemma split_strip (s : string) : Str.split (Str.strip s) = Str.split s.
Proof. unfold Str.strip; now rewrite split_rstrip, split_lstrip. Qed.

Lemma lower_cons_head (c : ascii) (l : list string) :
  map Str.lower (Str.cons_head c l)
  = Str.cons_head (Str.lower_char c) (map Str.lower l).
Proof. destruct l; reflexivity. Qed.

Lemma split_lower (s : string) :
  Str.split (Str.lower s) = map Str.lower (Str.split s).
Proof.
  induction s as [|c r IH]; trivial.
  cbn [Str.lower Str.split]. rewrite StrFacts.isspace_lower_char.
  destruct (Str.isspace c); trivial.
  destruct r as [|c2 r2]; trivial.
  cbn [Str.lower] in *. rewrite StrFacts.isspace_lower_char.
  destruct (Str.isspace c2).
  - cbn [map]. now rewrite IH.
  - now rewrite lower_cons_head, IH.
Qed.

(** The key is the first word of the ingredient as it stands, in lower
    case: [strip] changes nothing to it. *)
Lemma key_of_split (ing : string) :
  key_of ing = match Str.split ing with
               | k :: _ => Ok (Str.lower k)
               | [] => Raise IndexError
               end.
Proof.
  unfold key_of.
  rewrite StrFacts.lower_strip, split_strip, split_lower.
  now destruct (Str.split ing).
Qed.

Lemma split_blank (pad s : string) :
  Text.blank pad = true -> Str.split (pad ++ s) = Str.split s.
Proof.
  induction pad as [|c r IH]; trivial.
  cbn [Text.blank Text.all_chars]; intros H.
  apply andb_true_iff in H as [H1 H2].
  cbn [append Str.split]. rewrite H1. now apply IH.
Qed.

Lemma split_blank_nil (pad : string) :
  Text.blank pad = true -> Str.split pad = [].
Proof.
  induction pad as [|c r IH]; trivial.
  cbn [Text.blank Text.all_chars]; intros H.
  apply andb_true_iff in H as [H1 H2].
  cbn [Str.split]. rewrite H1. now apply IH.
Qed.

Lemma split_solid (word rest : string) :
  word <> EmptyString -> Text.solid word = true ->
  Str.starts_nonspace rest = false ->
  Str.split (word ++ rest) = word :: Str.split rest.
Proof.
  intros N S R; induction word as [|c w IH]; [contradiction|].
  cbn [Text.solid Text.all_chars] in S.
  apply andb_true_iff in S as [S1 S2]; apply negb_true_iff in S1.
  cbn [append Str.split]; rewrite S1.
  destruct w as [|c' w'].
  - cbn [append]. destruct rest as [|c2 r2]; trivial.
    cbn [Str.starts_nonspace] in R; apply negb_false_iff in R.
    now rewrite R.
  - cbn [append] in *.
    pose proof S2 as S3; cbn [Text.all_chars] in S3.
    apply andb_true_iff in S3 as [S3 _]; apply negb_true_iff in S3.
    rewrite S3, IH; trivial; discriminate.
Qed.

Lemma key_of_lower (a b : string) :
  Str.lower a = Str.lower b -> key_of a = key_of b.
Proof.
  intros E; unfold key_of. now rewrite !StrFacts.lower_strip, E.
Qed.

Lemma nutrition_ingredients_nonblank (sample : string) :
  Forall (fun ing => Str.strip ing <> EmptyString)
         (nutrition_ingredients sample).
Proof.
  unfold nutrition_ingredients.
  apply Forall_forall; intros ing H.
  apply in_map_iff in H as (s & <- & H).
  apply filter_In in H as [_ H].
  rewrite StrFacts.strip_idem.
  destruct (Str.strip s); [discriminate|discriminate].
Qed.

End KeyFacts.

(** X9.  Without ingredients the estimate is zero, whatever the number of
    servings below [2 ^ 1023], zero and negative ones included. *)
Theorem estimate_of_no_ingredient (servings : Z) :
  servings < 2 ^ 1023 ->
  estimate_nutrition [] servings = Ok zero_total.
Proof.
  intros H.
  destruct (F64Facts.of_int_defined (Z.max 1 servings)) as (m & e & E);
    [lia|].
  unfold estimate_nutrition, per_serving; cbn [sum_ingredients bind].
  rewrite E; reflexivity.
Qed.

Lemma estimate_of_no_ingredient_witness :
  estimate_nutrition [] (-4) = Ok zero_total.
Proof. apply (estimate_of_no_ingredient (-4)); lia. Defined.

(** X10.  The key of an ingredient is its first word in lower case, the
    words being the runs of characters that are not whitespace: blanks in
    front of it, and whatever follows it after a blank, do not count; and
    an ingredient without a word has no key. *)
Theorem key_of_first_word (pad word rest : string) :
  Text.blank pad = true ->
  word <> EmptyString -> Text.solid word = true ->
  Str.starts_nonspace rest = false ->
  key_of (pad ++ word ++ rest) = Ok (Str.lower word)
  /\ key_of pad = Raise IndexError.
Proof.
  intros P N S R; rewrite !KeyFacts.key_of_split; split.
  - now rewrite KeyFacts.split_blank, KeyFacts.split_solid.
  - now rewrite KeyFacts.split_blank_nil.
Qed.

Lemma key_of_first_word_witness :
  key_of (" " ++ "Chicken" ++ " breast, diced") = Ok (Str.lower "Chicken")
  /\ key_of " " = Raise IndexError.
Proof.
  apply (key_of_first_word " " "Chicken" " breast, diced");
    (reflexivity || discriminate).
Defined.

(** X11.  The estimate does not depend on the case of the ingredients:
    two lists that agree up to case give the same result, exceptions
    included. *)
Theorem estimate_ignores_case (l1 l2 : list string) (servings : Z) :
  Forall2 (fun a b => Str.lower a = Str.lower b) l1 l2 ->
  estimate_nutrition l1 servings = estimate_nutrition l2 servings.
Proof.
  intros H; unfold estimate_nutrition.
  assert (E : forall total,
            sum_ingredients l1 total = sum_ingredients l2 total).
  { induction H as [|a b l1 l2 Hab _ IH]; intros total; trivial.
    cbn [sum_ingredients]. rewrite (KeyFacts.key_of_lower a b Hab).
    destruct (key_of b); cbn [bind]; trivial. }
  now rewrite E.
Qed.

Lemma estimate_ignores_case_witness :
  estimate_nutrition ["Chicken"; "RICE"] 2
  = estimate_nutrition ["chicken"; "rice"] 2.
Proof.
  apply (estimate_ignores_case ["Chicken"; "RICE"] ["chicken"; "rice"] 2).
  repeat constructor.
Defined.

(** X12.  The "Nutrition" page never hands a blank ingredient to
    [estimate_nutrition]: with the 1 to 10 servings of its number input,
    the handler either warns, which it does exactly when the sample has no
    ingredient, or its call of [estimate_nutrition] returns. *)
Theorem analyze_nutrition_returns (sample : string) (servings : Z) :
  1 <= servings <= 10 ->
  Forall (fun ing => Str.strip ing = ing /\ ing <> EmptyString)
         (nutrition_ingredients sample)
  /\ (nutrition_ingredients sample = [] ->
      analyze_nutrition sample servings = Ok None)
  /\ (nutrition_ingredients sample <> [] ->
      exists per,
        estimate_nutrition (nutrition_ingredients sample) servings = Ok per
        /\ analyze_nutrition sample servings = Ok (Some per)).
Proof.
  intros H; pose proof (KeyFacts.nutrition_ingredients_nonblank sample) as NB.
  split; [|split].
  - unfold nutrition_ingredients.
    apply Forall_forall; intros ing I.
    apply in_map_iff in I as (s & <- & I).
    apply filter_In in I as [_ I].
    rewrite StrFacts.strip_idem; split; trivial.
    destruct (Str.strip s); discriminate.
  - unfold analyze_nutrition; now intros ->.
  - intros N.
    destruct (EstimateFacts.sum_ingredients_defined _ NB zero_total) as [t E].
    destruct (F64Facts.of_int_defined (Z.max 1 servings)) as (m & e & D);
      [lia|].
    assert (P : exists per,
              estimate_nutrition (nutrition_ingredients sample) servings
              = Ok per).
    { unfold estimate_nutrition, per_serving; rewrite E, D; cbn [bind]; eauto. }
    destruct P as [per P]; exists per; split; trivial.
    unfold analyze_nutrition.
    destruct (nutrition_ingredients sample); [contradiction|].
    now rewrite P.
Qed.

Lemma analyze_nutrition_returns_witness :
  exists per, analyze_nutrition "chicken, , Rice ,tomato" 2 = Ok (Some per).
Proof.
  destruct (analyze_nutrition_returns "chicken, , Rice ,tomato" 2)
    as (_ & _ & H); [lia|].
  destruct H as (per & _ & H); [vm_compute; discriminate|].
  exists per; exact H.
Defined.

(** ** The shopping list: what it counts *)

Module TallyFacts.

Import Shopping ShoppingView.

Lemma mem_In (k : string) (keys : list string) :
  mem k keys = true <-> In k keys.
Proof.
  unfold mem; rewrite existsb_exists; split.
  - intros (s & I & E); apply String.eqb_eq in E; now subst.
  - intros I; exists k; split; trivial. apply String.eqb_refl.
Qed.

Lemma keys_set (items : dict) (k : string) (v : Z) :
  map fst (set items k v) = add_key (map fst items) k.
Proof.
  unfold add_key, mem.
  induction items as [|[k' v'] r IH]; trivial.
  cbn [set map fst existsb].
  destruct (k' =? k)%string; cbn [orb map fst]; trivial.
  rewrite IH. now destruct (existsb _ (map fst r)).
Qed.

Lemma keys_fold (ps : list string) :
  forall items,
  map fst (fold_left count ps items) = fold_left add_key ps (map fst items).
Proof.
  induction ps as [|p ps IH]; intros items; cbn [fold_left]; trivial.
  rewrite IH. unfold count. now rewrite keys_set.
Qed.

Lemma add_key_NoDup (keys : list string) (p : string) :
  NoDup keys -> NoDup (add_key keys p).
Proof.
  intros N; unfold add_key.
  destruct (mem p keys) eqn:M; trivial.
  assert (I : ~ In p keys).
  { intros I; apply mem_In in I; congruence. }
  clear M; induction N as [|a l A N IH]; cbn [app].
  - repeat constructor; intros [].
  - constructor.
    + rewrite in_app_iff; intros [H | [H | []]]; [auto|].
      subst; apply I; now left.
    + apply IH. intros H; apply I; now right.
Qed.

Lemma add_keys_NoDup (ps : list string) :
  forall keys, NoDup keys -> NoDup (fold_left add_key ps keys).
Proof.
  induction ps as [|p ps IH]; intros keys N; cbn [fold_left]; trivial.
  now apply IH, add_key_NoDup.
Qed.

Lemma get_fold (ps : list string) (k : string) :
  forall items,
  get (fold_left count ps items) k 0
  = get items k 0 + Z.of_nat (count_occ string_dec ps k).
Proof.
  induction ps as [|p ps IH]; intros items; cbn [fold_left count_occ].
  - lia.
  - rewrite IH. destruct (string_dec p k) as [-> | N].
    + rewrite ShoppingFacts.get_count_same; lia.
    + rewrite ShoppingFacts.get_count_other by congruence; lia.
Qed.

Lemma scan_line_phrases (items : dict) (line : string) :
  scan_line items line
  = (ps <- phrases_of_line line ;; Ok (fold_left count ps items)).
Proof.
  unfold scan_line, phrases_of_line.
  destruct (any_in unit_keywords (Str.lower line) || Str.contains "," line).
  - now rewrite !ShoppingFacts.re_split_commas_unbound.
  - now destruct (any_in name_keywords (Str.lower line)).
Qed.

Lemma scan_lines_phrases (lines : list string) :
  forall items,
  scan_lines lines items
  = (ps <- phrases_of_lines lines ;; Ok (fold_left count ps items)).
Proof.
  induction lines as [|l lines IH]; intros items;
    cbn [scan_lines phrases_of_lines bind]; trivial.
  rewrite scan_line_phrases.
  destruct (phrases_of_line l) as [ps|e]; cbn [bind]; trivial.
  rewrite IH.
  destruct (phrases_of_lines lines) as [qs|e]; cbn [bind]; trivial.
  now rewrite fold_left_app.
Qed.

Lemma scan_recipes_phrases (recipes : list json) (selected : list string) :
  forall items,
  scan_recipes recipes selected items
  = (ps <- phrases recipes selected ;; Ok (fold_left count ps items)).
Proof.
  induction recipes as [|rec rest IH]; intros items;
    cbn [scan_recipes phrases bind]; trivial.
  destruct (text_lines rec) as [ls|e]; cbn [bind]; trivial.
  destruct (first ls) as [t|e]; cbn [bind]; trivial.
  destruct (mem t selected); cbn [bind].
  - rewrite scan_lines_phrases.
    destruct (phrases_of_lines ls) as [ps|e]; cbn [bind]; trivial.
    rewrite IH.
    destruct (phrases rest selected) as [qs|e]; cbn [bind]; trivial.
    now rewrite fold_left_app.
  - rewrite IH.
    destruct (phrases rest selected) as [qs|e]; cbn [bind app]; trivial.
Qed.

(** Records that are not selected can be left out. *)
Lemma scan_recipes_selected (recipes : list json) (selected : list string) :
  forall items items',
  scan_recipes recipes selected items = Ok items' ->
  scan_recipes (filter (is_selected selected) recipes) selected items
  = Ok items'.
Proof.
  induction recipes as [|rec rest IH]; intros items items';
    cbn [scan_recipes filter]; trivial.
  unfold is_selected.
  destruct (text_lines rec) as [ls|e] eqn:T; cbn [bind]; [|discriminate].
  destruct ls as [|t ls']; cbn [first bind]; [discriminate|].
  destruct (mem t selected) eqn:M.
  - intros H; cbn [scan_recipes]. rewrite T; cbn [first bind]. rewrite M.
    destruct (scan_lines (t :: ls') items) as [items1|e]; cbn [bind] in *;
      [now apply IH|discriminate].
  - apply IH.
Qed.

(** What stands behind a mapping that the page has built. *)
Lemma page_builds (json_loads : string -> option json)
    (selected : list string) (pressed : bool) (f : file) (items : dict) :
  fst (shopping_list_page json_loads selected pressed f) = Ok (Some items) ->
  exists recipes recs titles,
    load_saved_recipes json_loads f = Ok recipes
    /\ iterate recipes = Ok recs
    /\ first_lines recs = Ok titles
    /\ pressed = true
    /\ build recs selected = Ok items.
Proof.
  unfold shopping_list_page.
  destruct (load_saved_recipes json_loads f) as [recipes|e] eqn:L;
    [|discriminate].
  destruct (falsy recipes); [discriminate|]; cbn [fst].
  destruct (iterate recipes) as [recs|e] eqn:I; cbn [bind]; [|discriminate].
  destruct (first_lines recs) as [titles|e] eqn:T; cbn [bind];
    [|discriminate].
  destruct pressed; [|discriminate].
  destruct (build recs selected) as [items'|e] eqn:B; cbn [bind];
    [|discriminate].
  intros [= <-]; exists recipes, recs, titles; repeat split; trivial.
Qed.

End TallyFacts.

(** X13.  The mapping that the page builds is the tally of the phrases
    of the selected recipes, which are their lines of the second rule,
    whole and trimmed: its keys are these phrases in the order of their
    first occurrence, each once, and the count of a key is the number of
    times the phrase occurs. *)
Theorem shopping_list_tallies_phrases (json_loads : string -> option json)
    (selected : list string) (pressed : bool) (f : file)
    (items : Shopping.dict) :
  fst (shopping_list_page json_loads selected pressed f) = Ok (Some items) ->
  exists recipes recs ps,
    load_saved_recipes json_loads f = Ok recipes
    /\ iterate recipes = Ok recs
    /\ ShoppingView.phrases recs selected = Ok ps
    /\ map fst items = ShoppingView.first_seen ps
    /\ NoDup (map fst items)
    /\ (forall k, Shopping.get items k 0
                  = Z.of_nat (count_occ string_dec ps k)).
Proof.
  intros H.
  apply TallyFacts.page_builds in H as (recipes & recs & titles & L & I & _ & _ & B).
  unfold Shopping.build in B; rewrite TallyFacts.scan_recipes_phrases in B.
  destruct (ShoppingView.phrases recs selected) as [ps|e] eqn:P;
    cbn [bind] in B; [|discriminate].
  injection B as <-.
  exists recipes, recs, ps; repeat split; trivial.
  - apply TallyFacts.keys_fold.
  - rewrite TallyFacts.keys_fold. apply TallyFacts.add_keys_NoDup; constructor.
  - intros k; now rewrite TallyFacts.get_fold.
Qed.

Lemma shopping_list_tallies_phrases_witness :
  exists recipes recs ps,
    load_saved_recipes MiniJson.loads
      (Some (MiniJson.dumps
               (JList [onion_tart; sample_recipe "Rice"; onion_tart_for_four;
                       sample_recipe "Serve with rice"])))
    = Ok recipes
    /\ iterate recipes = Ok recs
    /\ ShoppingView.phrases recs ["Onion tart"; "Serve with rice"] = Ok ps
    /\ map fst [("Onion tart", 2); ("Serve with rice", 1)]
       = ShoppingView.first_seen ps
    /\ NoDup (map fst [("Onion tart", 2); ("Serve with rice", 1)])
    /\ (forall k,
          Shopping.get [("Onion tart", 2); ("Serve with rice", 1)] k 0
          = Z.of_nat (count_occ string_dec ps k)).
Proof.
  apply (shopping_list_tallies_phrases MiniJson.loads
           ["Onion tart"; "Serve with rice"] true
           (Some (MiniJson.dumps
                    (JList [onion_tart; sample_recipe "Rice";
                            onion_tart_for_four;
                            sample_recipe "Serve with rice"])))).
  vm_compute; reflexivity.
Defined.

(** X14.  Only the selected recipes count: the mapping that the page
    builds is the one that the handler builds from the records whose first
    line is selected alone, and it is empty when none is. *)
Theorem shopping_list_ignores_unselected
    (json_loads : string -> option json) (selected : list string)
    (pressed : bool) (f : file) (items : Shopping.dict) :
  fst (shopping_list_page json_loads selected pressed f) = Ok (Some items) ->
  exists recipes recs,
    load_saved_recipes json_loads f = Ok recipes
    /\ iterate recipes = Ok recs
    /\ Shopping.build (filter (ShoppingView.is_selected selected) recs)
                      selected
       = Ok items
    /\ (forallb (fun r => negb (ShoppingView.is_selected selected r)) recs
        = true -> items = []).
Proof.
  intros H.
  apply TallyFacts.page_builds in H as (recipes & recs & titles & L & I & _ & _ & B).
  pose proof (TallyFacts.scan_recipes_selected _ _ _ _ B) as S.
  exists recipes, recs; repeat split; trivial.
  intros N; unfold Shopping.build in S.
  replace (filter (ShoppingView.is_selected selected) recs)
    with (@nil json) in S.
  - cbn in S; congruence.
  - clear S B I; induction recs as [|r rest IH]; trivial.
    cbn [forallb] in N; apply andb_true_iff in N as [N1 N2].
    cbn [filter]; apply negb_true_iff in N1; rewrite N1; auto.
Qed.

Lemma shopping_list_ignores_unselected_witness :
  exists recipes recs,
    load_saved_recipes MiniJson.loads
      (Some (MiniJson.dumps (JList [tomato_onion; sample_recipe "Rice"])))
    = Ok recipes
    /\ iterate recipes = Ok recs
    /\ Shopping.build (filter (ShoppingView.is_selected ["Rice"]) recs)
                      ["Rice"]
       = Ok [("Rice", 1)]
    /\ (forallb (fun r => negb (ShoppingView.is_selected ["Rice"] r)) recs
        = true -> [("Rice", 1)] = []).
Proof.
  apply (shopping_list_ignores_unselected MiniJson.loads ["Rice"] true
           (Some (MiniJson.dumps (JList [tomato_onion; sample_recipe "Rice"])))).
  vm_compute; reflexivity.
Defined.

(** X15.  One stored record whose text is empty or missing is enough to
    stop the page: when every record has a text, and one of them no first
    line, the options of the multiselect raise [IndexError], before the
    button is looked at and whatever is selected. *)
Theorem shopping_list_needs_first_lines (json_loads : string -> option json)
    (selected : list string) (pressed : bool) (f : file)
    (recipes : list json) :
  load_saved_recipes json_loads f = Ok (JList recipes) ->
  Forall (fun r => exists ls, Shopping.text_lines r = Ok ls) recipes ->
  Exists (fun r => exists kv,
            r = JDict kv
            /\ (assoc "text" kv = None
                \/ assoc "text" kv = Some (JStr EmptyString))) recipes ->
  first_lines recipes = Raise IndexError
  /\ shopping_list_page json_loads selected pressed f = (Raise IndexError, f).
Proof.
  intros L F E.
  assert (T : first_lines recipes = Raise IndexError).
  { apply ShoppingFacts.first_lines_no_first_line; trivial.
    apply Exists_exists in E as (r & I & kv & -> & A).
    apply Exists_exists; exists (JDict kv); split; trivial.
    unfold Shopping.text_lines, Shopping.get_text.
    destruct A as [-> | ->]; reflexivity. }
  split; trivial.
  unfold shopping_list_page; rewrite L.
  destruct recipes as [|r rest]; [inversion E|].
  cbn [falsy iterate bind]. now rewrite T.
Qed.

Lemma shopping_list_needs_first_lines_witness :
  first_lines [onion_tart; JDict [("cuisine", JStr "Any")]] = Raise IndexError
  /\ shopping_list_page MiniJson.loads [] false
       (Some (MiniJson.dumps
                (JList [onion_tart; JDict [("cuisine", JStr "Any")]])))
     = (Raise IndexError,
        Some (MiniJson.dumps
                (JList [onion_tart; JDict [("cuisine", JStr "Any")]]))).
Proof.
  apply (shopping_list_needs_first_lines MiniJson.loads [] false
           (Some (MiniJson.dumps
                    (JList [onion_tart; JDict [("cuisine", JStr "Any")]])))
           [onion_tart; JDict [("cuisine", JStr "Any")]]).
  - vm_compute; reflexivity.
  - repeat constructor; eexists; vm_compute; reflexivity.
  - apply Exists_cons_tl, Exists_cons_hd.
    exists [("cuisine", JStr "Any")]; split; [reflexivity|left; reflexivity].
Defined.

(** ** [re_split_commas] and the keywords *)

Module SplitFacts.

Import Shopping ShoppingView.

Lemma contains_comma_cons (c : ascii) (r : string) :
  Str.contains "," (String c r)
  = ((c =? ",")%char || Str.contains "," r)%bool.
Proof.
  cbn [Str.contains prefix].
  destruct (ascii_dec "," c) as [<- | N].
  - rewrite Ascii.eqb_refl. now destruct r.
  - apply Ascii.eqb_neq in N. rewrite Ascii.eqb_sym in N. now rewrite N.
Qed.

Lemma comma_free_cons_head (c : ascii) (l : list string) :
  (c =? ",")%char = false ->
  Forall (fun p => Str.contains "," p = false) l ->
  Forall (fun p => Str.contains "," p = false) (Str.cons_head c l).
Proof.
  intros C F; destruct l as [|f fs]; cbn [Str.cons_head].
  - repeat constructor. now rewrite contains_comma_cons, C.
  - inversion F; subst; constructor; trivial.
    now rewrite contains_comma_cons, C.
Qed.

Lemma re_split_comma_free (n : nat) :
  forall s b, (String.length s <= n)%nat ->
  Forall (fun p => Str.contains "," p = false) (Str.re_split b s).
Proof.
  induction n as [|n IH]; intros [|c r] b L; cbn [String.length] in L;
    try (repeat constructor; fail); try lia.
  cbn [Str.re_split].
  destruct (c =? ",")%char eqn:C.
  - constructor; [reflexivity|]. apply IH; lia.
  - assert (D : Forall (fun p => Str.contains "," p = false)
                  (Str.cons_head c (Str.re_split (Str.is_word c) r))).
    { apply comma_free_cons_head; trivial. apply IH; lia. }
    destruct r as [|c2 [|c3 r3]]; trivial.
    destruct (_ && _ && _ && _ && _)%bool; trivial.
    constructor; [reflexivity|]. apply IH. cbn [String.length] in L; lia.
Qed.

Lemma lstrip_comma_free (s : string) :
  Str.contains "," s = false -> Str.contains "," (Str.lstrip s) = false.
Proof.
  induction s as [|c r IH]; trivial.
  cbn [Str.lstrip]. destruct (Str.isspace c); trivial.
  rewrite contains_comma_cons. intros H; apply orb_false_iff in H as [_ H].
  auto.
Qed.

Lemma rstrip_comma_free (s : string) :
  Str.contains "," s = false -> Str.contains "," (Str.rstrip s) = false.
Proof.
  induction s as [|c r IH]; trivial.
  rewrite contains_comma_cons. intros H; apply orb_false_iff in H as [H1 H2].
  cbn [Str.rstrip].
  destruct (Str.isspace c && Str.is_empty (Str.rstrip r)); trivial.
  rewrite contains_comma_cons, H1; cbn [orb]. auto.
Qed.

Lemma strip_comma_free (s : string) :
  Str.contains "," s = false -> Str.contains "," (Str.strip s) = false.
Proof.
  intros H; unfold Str.strip. now apply rstrip_comma_free, lstrip_comma_free.
Qed.

(** Without a comma and without ["and"] there is nothing to split at. *)
Lemma re_split_whole (s : string) :
  forall b,
  Str.contains "," s = false -> Str.contains "and" s = false ->
  Str.re_split b s = [s].
Proof.
  induction s as [|c r IH]; intros b C A; trivial.
  rewrite contains_comma_cons in C; apply orb_false_iff in C as [C1 C2].
  cbn [Str.contains] in A; apply orb_false_iff in A as [A1 A2].
  cbn [Str.re_split]; rewrite C1.
  assert (E : Str.cons_head c (Str.re_split (Str.is_word c) r) = [String c r]).
  { now rewrite IH. }
  destruct r as [|c2 [|c3 r3]]; trivial.
  destruct (c =? "a")%char eqn:E1; cbn [andb]; trivial.
  destruct (c2 =? "n")%char eqn:E2; cbn [andb]; trivial.
  destruct (c3 =? "d")%char eqn:E3; cbn [andb]; trivial.
  apply Ascii.eqb_eq in E1, E2, E3; subst.
  destruct r3; cbn in A1; discriminate.
Qed.

Lemma re_split_commas_whole (line : string) :
  Str.contains "," line = false -> Str.contains "and" line = false ->
  re_split_commas line
  = if Str.is_empty (Str.strip line) then [] else [Str.strip line].
Proof.
  intros C A; unfold re_split_commas.
  rewrite (re_split_whole line false C A); cbn [filter].
  now destruct (Str.is_empty (Str.strip line)).
Qed.

(** A character of the needle is a character of the hay. *)
Lemma prefix_char (c : ascii) (n h : string) :
  Str.contains (String c EmptyString) n = true -> prefix n h = true ->
  Str.contains (String c EmptyString) h = true.
Proof.
  revert h; induction n as [|a n IH]; intros h Cn P; [discriminate|].
  destruct h as [|b h]; [discriminate|].
  apply StrFacts.prefix_cons in P as [<- P].
  cbn [Str.contains] in *.
  apply orb_true_iff in Cn as [Cn | Cn]; apply orb_true_iff.
  - left. cbn [prefix] in *.
    destruct (ascii_dec c a); [now destruct h|discriminate].
  - right. now apply IH.
Qed.

Lemma contains_char (c : ascii) (n h : string) :
  Str.contains (String c EmptyString) n = true -> Str.contains n h = true ->
  Str.contains (String c EmptyString) h = true.
Proof.
  intros Cn; induction h as [|b h IH]; intros H.
  - cbn [Str.contains] in H; rewrite orb_false_r in H.
    apply StrFacts.prefix_nil_r in H; subst; discriminate.
  - pose proof H as H'; cbn [Str.contains] in H'.
    apply orb_true_iff in H' as [P | P].
    + exact (prefix_char c n (String b h) Cn P).
    + cbn [Str.contains]; apply orb_true_iff; right; auto.
Qed.

Lemma no_char_no_word (c : ascii) (n h : string) :
  Str.contains (String c EmptyString) n = true ->
  Str.contains (String c EmptyString) h = false ->
  Str.contains n h = false.
Proof.
  intros Cn Ch; destruct (Str.contains n h) eqn:E; trivial.
  rewrite (contains_char c n h Cn E) in Ch; discriminate.
Qed.

End SplitFacts.

(** X16.  The fragments of [re_split_commas] are never empty, have no
    blank at either end and no comma, so that the second [strip] of the
    shopping list changes none of them. *)
Theorem re_split_commas_fragments (line : string) :
  Forall (fun p => p <> EmptyString /\ Str.strip p = p
                   /\ Str.contains "," p = false)
         (re_split_commas line)
  /\ map Str.strip (re_split_commas line) = re_split_commas line.
Proof.
  assert (F : Forall (fun p => p <> EmptyString /\ Str.strip p = p
                               /\ Str.contains "," p = false)
                     (re_split_commas line)).
  { unfold re_split_commas; apply Forall_forall; intros p I.
    apply in_map_iff in I as (s & <- & I).
    apply filter_In in I as [I N]; repeat split.
    - destruct (Str.strip s); discriminate.
    - apply StrFacts.strip_idem.
    - apply SplitFacts.strip_comma_free.
      pose proof (SplitFacts.re_split_comma_free (String.length line) line
                    false (Nat.le_refl _)) as C.
      rewrite Forall_forall in C; auto. }
  split; trivial.
  induction F as [|p l (_ & S & _) _ IH]; cbn [map]; congruence.
Qed.

(** X17.  On a line with neither a comma nor ["and"], [re_split_commas]
    finds nothing to split at: its only fragment is the trimmed line, and
    a blank line has none. *)
Theorem line_without_separator (line : string) :
  Str.contains "," line = false -> Str.contains "and" line = false ->
  re_split_commas line
  = if Str.is_empty (Str.strip line) then [] else [Str.strip line].
Proof. apply SplitFacts.re_split_commas_whole. Qed.

Lemma line_without_separator_witness :
  re_split_commas "  3 eggs "
  = if Str.is_empty (Str.strip "  3 eggs ") then []
    else [Str.strip "  3 eggs "].
Proof.
  apply (line_without_separator "  3 eggs "); reflexivity.
Defined.

(** X18.  The unit keyword ["g"] takes every line with the letter g: the
    keyword ["kg"] never decides the first rule, and the names ["garlic"]
    and ["egg"] never decide the second, which a line reaches only without
    that letter. *)
Theorem keywords_without_effect (low : string) :
  Shopping.any_in Shopping.unit_keywords low
  = Shopping.any_in ["cup"; "tsp"; "tbsp"; "g"; "ml"; "slice"; "pieces"; "pinch"]
                    low
  /\ (Shopping.any_in Shopping.unit_keywords low = false ->
      Shopping.any_in Shopping.name_keywords low
      = Shopping.any_in ["tomato"; "onion"; "chicken"; "rice"; "pasta"; "cheese"]
                        low).
Proof.
  unfold Shopping.any_in, Shopping.unit_keywords, Shopping.name_keywords.
  cbn [existsb]; split.
  - destruct (Str.contains "g" low) eqn:G.
    + now rewrite !orb_true_r.
    + rewrite (SplitFacts.no_char_no_word "g" "kg" low) by trivial.
      destruct (Str.contains "cup" low), (Str.contains "tsp" low),
        (Str.contains "tbsp" low), (Str.contains "ml" low),
        (Str.contains "slice" low), (Str.contains "pieces" low),
        (Str.contains "pinch" low); reflexivity.
  - intros H.
    assert (G : Str.contains "g" low = false).
    { destruct (Str.contains "g" low); trivial.
      rewrite !orb_true_r in H; discriminate. }
    rewrite (SplitFacts.no_char_no_word "g" "garlic" low),
      (SplitFacts.no_char_no_word "g" "egg" low) by trivial.
    destruct (Str.contains "tomato" low), (Str.contains "onion" low),
      (Str.contains "chicken" low), (Str.contains "rice" low),
      (Str.contains "pasta" low), (Str.contains "cheese" low); reflexivity.
Qed.

Lemma keywords_without_effect_witness :
  Shopping.any_in Shopping.name_keywords "2 tomatoes"
  = Shopping.any_in ["tomato"; "onion"; "chicken"; "rice"; "pasta"; "cheese"]
                    "2 tomatoes".
Proof.
  apply (keywords_without_effect "2 tomatoes"). reflexivity.
Defined.

(** ** Titles *)

Module TitleFacts.

Lemma linebreak_isspace (c : ascii) :
  Str.is_linebreak c = true -> Str.isspace c = true.
Proof. destruct c as [[] [] [] [] [] [] [] []]; trivial. Qed.

Lemma splitlines_cons (c : ascii) (r : string) :
  exists l ls, Str.splitlines (String c r) = l :: ls.
Proof.
  cbn [Str.splitlines]. destruct (Str.is_linebreak c).
  - destruct r as [|c2 r2]; [eauto|].
    destruct (_ && _)%bool; eauto.
  - destruct (Str.splitlines r); cbn [Str.cons_head]; eauto.
Qed.

Lemma splitlines_nil (s : string) :
  Str.splitlines s = [] <-> s = EmptyString.
Proof.
  split; [|now intros ->].
  destruct s as [|c r]; trivial.
  destruct (splitlines_cons c r) as (l & ls & ->); discriminate.
Qed.

Lemma splitlines_starts (s : string) :
  Str.starts_nonspace s = true ->
  exists t rest,
    Str.splitlines s = t :: rest /\ Str.starts_nonspace t = true.
Proof.
  destruct s as [|c r]; [discriminate|].
  cbn [Str.starts_nonspace Str.splitlines]; intros H.
  destruct (Str.is_linebreak c) eqn:L.
  - apply linebreak_isspace in L. rewrite L in H; discriminate.
  - destruct (Str.splitlines r); cbn [Str.cons_head]; eauto.
Qed.

End TitleFacts.

(** X19.  The first line of a text is missing for the empty text alone:
    the guarded title of the expanders and of the "Discover" download
    never raises, while the download of "My Recipes" raises [IndexError] on
    the empty text, and only there. *)
Theorem first_line_defined (text : string) :
  (first_line text = Raise IndexError <-> text = EmptyString)
  /\ (exists t, title_or_default text = Ok t
                /\ (text <> EmptyString -> first_line text = Ok t))
  /\ (exists doc, discover_pdf text = Ok doc)
  /\ (my_recipes_pdf text = Raise IndexError <-> text = EmptyString).
Proof.
  assert (A : first_line text = Raise IndexError <-> text = EmptyString).
  { unfold first_line; split; [|now intros ->].
    destruct text as [|c r]; trivial.
    destruct (TitleFacts.splitlines_cons c r) as (l & ls & ->); discriminate. }
  assert (B : exists t, title_or_default text = Ok t
                        /\ (text <> EmptyString -> first_line text = Ok t)).
  { unfold title_or_default, first_line.
    destruct text as [|c r]; cbn [Str.is_empty].
    - exists "Recipe"%string; split; trivial. now intros [].
    - destruct (TitleFacts.splitlines_cons c r) as (l & ls & ->).
      exists l; split; trivial. }
  repeat split; try apply A.
  - exact B.
  - destruct B as (t & B & _). unfold discover_pdf; rewrite B; cbn [bind]; eauto.
  - unfold my_recipes_pdf, first_line; intros H.
    destruct text as [|c r]; trivial.
    destruct (TitleFacts.splitlines_cons c r) as (l & ls & E).
    rewrite E in H; discriminate.
  - intros ->; reflexivity.
Qed.

(** X20.  A generated recipe, the answer of the model once stripped, has a
    title when it is not empty: the first line then exists, is not empty
    and begins with a character that is not whitespace; on an answer of
    whitespace alone the preview raises [IndexError]. *)
Theorem generated_title (answer : string) :
  (Str.strip answer = EmptyString ->
   first_line (Str.strip answer) = Raise IndexError)
  /\ (Str.strip answer <> EmptyString ->
      exists t rest,
        Str.splitlines (Str.strip answer) = t :: rest
        /\ first_line (Str.strip answer) = Ok t
        /\ t <> EmptyString /\ Str.starts_nonspace t = true).
Proof.
  split; [now intros ->|]; intros N.
  destruct (TitleFacts.splitlines_starts _ (EstimateFacts.strip_starts _ N))
    as (t & rest & E & S).
  exists t, rest; unfold first_line; rewrite E; repeat split; trivial.
  intros ->; discriminate.
Qed.

Lemma generated_title_witness :
  exists t rest,
    Str.splitlines (Str.strip ("  Tomato soup" ++ newline ++ "Simmer. "))
    = t :: rest
    /\ first_line (Str.strip ("  Tomato soup" ++ newline ++ "Simmer. ")) = Ok t
    /\ t <> EmptyString /\ Str.starts_nonspace t = true.
Proof.
  apply (generated_title ("  Tomato soup" ++ newline ++ "Simmer. ")).
  vm_compute; discriminate.
Defined.

(** X21.  The PDF of a recipe shows its first line twice, as the title and
    again as the first line of the body, followed by the other lines; both
    download buttons give this same document for a text that is not
    empty. *)
Theorem pdf_repeats_first_line (text : string) :
  text <> EmptyString ->
  exists t rest doc,
    Str.splitlines text = t :: rest
    /\ discover_pdf text = Ok doc
    /\ my_recipes_pdf text = Ok doc
    /\ List.concat (map PdfView.texts doc) = t :: t :: rest.
Proof.
  intros N; destruct text as [|c r]; [contradiction|].
  destruct (TitleFacts.splitlines_cons c r) as (t & rest & E).
  exists t, rest, (Pdf.recipe_to_pdf_bytes (String c r) t).
  unfold discover_pdf, my_recipes_pdf, title_or_default, first_line.
  rewrite E; cbn [Str.is_empty Shopping.first bind]; repeat split; trivial.
  unfold Pdf.recipe_to_pdf_bytes.
  rewrite PdfMore.save_whole by reflexivity.
  rewrite PdfMore.draw_lines_texts, E. reflexivity.
Qed.

Lemma pdf_repeats_first_line_witness :
  exists t rest doc,
    Str.splitlines ("Tomato soup" ++ newline ++ "Simmer.") = t :: rest
    /\ discover_pdf ("Tomato soup" ++ newline ++ "Simmer.") = Ok doc
    /\ my_recipes_pdf ("Tomato soup" ++ newline ++ "Simmer.") = Ok doc
    /\ List.concat (map PdfView.texts doc) = t :: t :: rest.
Proof.
  apply (pdf_repeats_first_line ("Tomato soup" ++ newline ++ "Simmer.")).
  vm_compute; discriminate.
Defined.

(** ** The search of "My Recipes" *)

Section SearchFacts.

Variable py_str : json -> string.
Variable json_loads : string -> option json.
Variable json_dumps : json -> string.

Lemma contains_nil (hay : string) : Str.contains EmptyString hay = true.
Proof. now destruct hay. Qed.


Lemma keeps_blank (search_q : string) (rec : json) (k : bool) :
  Str.strip search_q = EmptyString ->
  keeps py_str search_q rec = Ok k -> k = true.
Proof.
  intros B; unfold keeps; rewrite B.
  destruct (search_text rec); cbn [bind]; [|discriminate].
  destruct (search_meta py_str rec); cbn [bind]; [|discriminate].
  cbn [Str.lower]; rewrite contains_nil; congruence.
Qed.

Lemma search_loop_blank (search_q : string) (recipes : list json) :
  Str.strip search_q = EmptyString ->
  forall idx filtered fl,
  search_loop py_str idx search_q recipes filtered = Ok fl ->
  fl = filtered
       ++ combine (map (fun n => idx + Z.of_nat n)
                       (seq 0 (List.length recipes)))
                  recipes.
Proof.
  intros B; induction recipes as [|rec rest IH]; intros idx filtered fl;
    cbn [search_loop].
  - intros [= <-]; cbn. now rewrite app_nil_r.
  - destruct (keeps py_str search_q rec) as [k|e] eqn:K; cbn [bind];
      [|discriminate].
    apply keeps_blank in K; trivial; subst k.
    intros H; apply IH in H; subst fl.
    rewrite <- app_assoc; f_equal.
    cbn [List.length seq map combine app]; rewrite Z.add_0_r; f_equal.
    rewrite <- seq_shift, map_map. f_equal.
    apply map_ext; intros n; lia.
Qed.

Lemma keeps_query (q1 q2 : string) (rec : json) :
  Str.lower (Str.strip q1) = Str.lower (Str.strip q2) ->
  keeps py_str q1 rec = keeps py_str q2 rec.
Proof.
  intros E; unfold keeps; rewrite E.
  now rewrite <- (StrFacts.is_empty_lower (Str.strip q1)), E,
    StrFacts.is_empty_lower.
Qed.


(** X23.  A blank query shows every record, in the order of the store and
    with its index; what decides is the first test alone, the empty string
    being part of every string. *)
Theorem blank_query_shows_all (search_q : string) (recipes : list json)
    (filtered : list (Z * json)) :
  Str.strip search_q = EmptyString ->
  search py_str search_q recipes = Ok filtered ->
  filtered = combine (map Z.of_nat (seq 0 (List.length recipes))) recipes
  /\ map snd filtered = recipes.
Proof.
  intros B H; unfold search in H.
  apply (search_loop_blank _ _ B) in H; cbn [app] in H.
  assert (E : filtered
              = combine (map Z.of_nat (seq 0 (List.length recipes))) recipes).
  { exact H. }
  split; trivial.
  rewrite E. clear.
  generalize 0%nat; induction recipes as [|r l IH]; intros s; trivial.
  cbn [List.length seq map combine snd]. now rewrite IH.
Qed.

(** X24.  The search does not depend on the case of the query, nor on
    the blanks around it. *)
Theorem search_ignores_case_of_query (q1 q2 : string) (recipes : list json) :
  Str.lower (Str.strip q1) = Str.lower (Str.strip q2) ->
  search py_str q1 recipes = search py_str q2 recipes.
Proof.
  intros E; unfold search; generalize 0, (@nil (Z * json)).
  induction recipes as [|rec rest IH]; intros idx acc; cbn [search_loop];
    trivial.
  rewrite (keeps_query q1 q2 rec E).
  destruct (keeps py_str q2 rec); cbn [bind]; trivial.
Qed.

End SearchFacts.


Lemma blank_query_shows_all_witness :
  [(0, tomato_soup); (1, sample_recipe "Rice")]
  = combine (map Z.of_nat
               (seq 0 (List.length [tomato_soup; sample_recipe "Rice"])))
            [tomato_soup; sample_recipe "Rice"]
  /\ map snd [(0, tomato_soup); (1, sample_recipe "Rice")]
     = [tomato_soup; sample_recipe "Rice"].
Proof.
  apply (blank_query_shows_all MiniJson.dumps "  "
           [tomato_soup; sample_recipe "Rice"]).
  - reflexivity.
  - vm_compute; reflexivity.
Defined.

Lemma search_ignores_case_of_query_witness :
  search MiniJson.dumps " Tomato " [tomato_soup; sample_recipe "Rice"]
  = search MiniJson.dumps "tomato" [tomato_soup; sample_recipe "Rice"].
Proof.
  apply (search_ignores_case_of_query MiniJson.dumps " Tomato " "tomato").
  reflexivity.
Defined.

(** ** The store: several additions *)

Section StoreOrder.

Variable json_loads : string -> option json.
Variable json_dumps : json -> string.


End StoreOrder.


(** ** The nutrition table *)

Module TableFacts.

(** The keys of the table are words in lower case. *)
Lemma table_key_shape (k : string) (d : macros) :
  assoc k NUTRITION_DB = Some d ->
  k <> EmptyString /\ Text.solid k = true /\ Str.lower k = k.
Proof.
  unfold NUTRITION_DB; cbn [assoc]; intros H.
  repeat (match type of H with
          | context [String.eqb ?a k] =>
              destruct (String.eqb_spec a k) as [<- | _];
              [repeat split; (discriminate || reflexivity)|]
          end).
  discriminate.
Qed.

End TableFacts.

(** X26.  Every entry of the table can be reached: an ingredient whose
    first word is a key of the table, whatever blanks precede it and
    whatever follows it after a blank, adds the entry of that key to the
    totals. *)
Theorem table_entries_reachable (k pad rest : string) (d total : macros) :
  assoc k NUTRITION_DB = Some d ->
  Text.blank pad = true ->
  Str.starts_nonspace rest = false ->
  key_of (pad ++ k ++ rest)%string = Ok k
  /\ sum_ingredients [(pad ++ k ++ rest)%string] total = Ok (add_macros total d).
Proof.
  intros A P R.
  destruct (TableFacts.table_key_shape k d A) as (N & S & L).
  assert (K : key_of (pad ++ k ++ rest)%string = Ok k).
  { rewrite KeyFacts.key_of_split, KeyFacts.split_blank,
      KeyFacts.split_solid by trivial. now rewrite L. }
  split; trivial.
  cbn [sum_ingredients]; rewrite K; cbn [bind].
  unfold contribution; now rewrite A.
Qed.

Lemma table_entries_reachable_witness :
  key_of (" " ++ "butter" ++ " (unsalted), 50 g") = Ok "butter"%string
  /\ sum_ingredients [(" " ++ "butter" ++ " (unsalted), 50 g")%string] zero_total
     = Ok (add_macros zero_total
             (entry (F64.of_Z 717) (F64.tenth 9) (F64.of_Z 81) (F64.tenth 1))).
Proof.
  apply (table_entries_reachable "butter" " " " (unsalted), 50 g");
    reflexivity.
Defined.

(** ** The shopping list as a text *)

Module TxtFacts.

Import Shopping ShoppingView.

(** A string without a line boundary. *)
Local Abbreviation one_line :=
  (Text.all_chars (fun c => negb (Str.is_linebreak c))).

Lemma all_chars_lstrip (p : ascii -> bool) (s : string) :
  Text.all_chars p s = true -> Text.all_chars p (Str.lstrip s) = true.
Proof.
  induction s as [|c r IH]; trivial.
  cbn [Str.lstrip]; destruct (Str.isspace c); trivial.
  cbn [Text.all_chars]; intros H; apply andb_true_iff in H as [_ H]; auto.
Qed.

Lemma all_chars_rstrip (p : ascii -> bool) (s : string) :
  Text.all_chars p s = true -> Text.all_chars p (Str.rstrip s) = true.
Proof.
  induction s as [|c r IH]; trivial.
  cbn [Text.all_chars]; intros H; apply andb_true_iff in H as [H1 H2].
  cbn [Str.rstrip].
  destruct (Str.isspace c && Str.is_empty (Str.rstrip r)); trivial.
  cbn [Text.all_chars]; rewrite H1; cbn [andb]; auto.
Qed.

Lemma all_chars_strip (p : ascii -> bool) (s : string) :
  Text.all_chars p s = true -> Text.all_chars p (Str.strip s) = true.
Proof.
  intros H; unfold Str.strip. now apply all_chars_rstrip, all_chars_lstrip.
Qed.

Lemma all_chars_cons_head (p : ascii -> bool) (c : ascii) (l : list string) :
  p c = true ->
  Forall (fun s => Text.all_chars p s = true) l ->
  Forall (fun s => Text.all_chars p s = true) (Str.cons_head c l).
Proof.
  intros C F; destruct l as [|f fs]; cbn [Str.cons_head].
  - repeat constructor. cbn [Text.all_chars]. now rewrite C.
  - inversion F; subst; constructor; trivial.
    cbn [Text.all_chars]. now rewrite C.
Qed.

(** The lines of a text have no line boundary. *)
Lemma splitlines_one_line (s : string) :
  Forall (fun l => one_line l = true) (Str.splitlines s).
Proof.
  remember (String.length s) as n eqn:E.
  assert (L : (String.length s <= n)%nat) by lia; clear E.
  revert s L; induction n as [|n IH]; intros [|c r] L;
    cbn [String.length] in L; try constructor; try lia.
  cbn [Str.splitlines].
  destruct (Str.is_linebreak c) eqn:B.
  - destruct r as [|c2 r2]; [repeat constructor|].
    destruct (_ && _)%bool; constructor; trivial; apply IH;
      cbn [String.length] in *; lia.
  - apply all_chars_cons_head; [now rewrite B|]. apply IH; lia.
Qed.

Lemma phrases_of_line_one_line (line : string) (ps : list string) :
  one_line line = true ->
  phrases_of_line line = Ok ps ->
  Forall (fun p => one_line p = true) ps.
Proof.
  intros A; unfold phrases_of_line.
  destruct (any_in unit_keywords (Str.lower line) || Str.contains "," line).
  - rewrite ShoppingFacts.re_split_commas_unbound; discriminate.
  - destruct (any_in name_keywords (Str.lower line)); intros [= <-];
      repeat constructor.
    now apply all_chars_strip.
Qed.

Lemma phrases_of_lines_one_line (lines : list string) :
  Forall (fun l => one_line l = true) lines ->
  forall ps,
  phrases_of_lines lines = Ok ps -> Forall (fun p => one_line p = true) ps.
Proof.
  induction 1 as [|l lines A _ IH]; intros ps; cbn [phrases_of_lines].
  - intros [= <-]; constructor.
  - destruct (phrases_of_line l) as [p1|e] eqn:P; cbn [bind]; [|discriminate].
    destruct (phrases_of_lines lines) as [p2|e]; cbn [bind]; [|discriminate].
    intros [= <-]; apply Forall_app; split; [|now apply IH].
    now apply (phrases_of_line_one_line l).
Qed.

Lemma text_lines_one_line (rec : json) (ls : list string) :
  text_lines rec = Ok ls -> Forall (fun l => one_line l = true) ls.
Proof.
  unfold text_lines.
  destruct (get_text rec) as [v|e]; cbn [bind]; [|discriminate].
  destruct v; try discriminate.
  intros [= <-]; apply splitlines_one_line.
Qed.

Lemma phrases_one_line (recipes : list json) (selected : list string) :
  forall ps,
  phrases recipes selected = Ok ps -> Forall (fun p => one_line p = true) ps.
Proof.
  induction recipes as [|rec rest IH]; intros ps; cbn [phrases].
  - intros [= <-]; constructor.
  - destruct (text_lines rec) as [ls|e] eqn:T; cbn [bind]; [|discriminate].
    destruct (first ls) as [t|e]; cbn [bind]; [|discriminate].
    apply text_lines_one_line in T.
    destruct (mem t selected).
    + destruct (phrases_of_lines ls) as [p1|e] eqn:P; cbn [bind];
        [|discriminate].
      destruct (phrases rest selected) as [p2|e]; cbn [bind]; [|discriminate].
      intros [= <-]; apply Forall_app; split; [|now apply IH].
      now apply (phrases_of_lines_one_line ls).
    + cbn [bind].
      destruct (phrases rest selected) as [p2|e]; cbn [bind]; [|discriminate].
      intros [= <-]; cbn [app]; now apply IH.
Qed.

Lemma add_keys_In (ps : list string) (k : string) :
  forall keys, In k (fold_left add_key ps keys) -> In k keys \/ In k ps.
Proof.
  induction ps as [|p ps IH]; intros keys; cbn [fold_left]; [auto|].
  intros H; apply IH in H as [H | H]; [|right; now right].
  unfold add_key in H. destruct (mem p keys); [auto|].
  apply in_app_iff in H as [H | [<- | []]]; [auto|right; now left].
Qed.

(** Reading the lines of lines joined by a line feed. *)
Lemma splitlines_line (a rest : string) :
  one_line a = true ->
  Str.splitlines (a ++ String (ascii_of_nat 10) rest)
  = a :: Str.splitlines rest.
Proof.
  induction a as [|c a IH]; intros A.
  - cbn [append Str.splitlines]. now destruct rest.
  - cbn [Text.all_chars] in A; apply andb_true_iff in A as [A1 A2].
    apply negb_true_iff in A1.
    cbn [append Str.splitlines]; rewrite A1, IH by trivial. reflexivity.
Qed.

Lemma splitlines_single (a : string) :
  one_line a = true -> a <> EmptyString -> Str.splitlines a = [a].
Proof.
  induction a as [|c a IH]; intros A N; [contradiction|].
  cbn [Text.all_chars] in A; apply andb_true_iff in A as [A1 A2].
  apply negb_true_iff in A1.
  cbn [Str.splitlines]; rewrite A1.
  destruct a as [|c' a']; [reflexivity|].
  rewrite IH; trivial; discriminate.
Qed.

Lemma splitlines_join (keys : list string) :
  Forall (fun k => one_line k = true /\ k <> EmptyString) keys ->
  Str.splitlines (String.concat newline keys) = keys.
Proof.
  induction 1 as [|k [|k' ks] [A N] _ IH]; trivial.
  - cbn [String.concat]. now apply splitlines_single.
  - change (String.concat newline (k :: k' :: ks))
      with (k ++ String (ascii_of_nat 10)
                   (String.concat newline (k' :: ks)))%string.
    rewrite splitlines_line by trivial. now rewrite IH.
Qed.

End TxtFacts.

(** X27.  The text of the "Download as TXT" button has one phrase on each
    line: its lines are the keys of the mapping that the page has built,
    in their order. *)
Theorem shopping_list_txt_lines (json_loads : string -> option json)
    (selected : list string) (pressed : bool) (f : file)
    (items : Shopping.dict) :
  fst (shopping_list_page json_loads selected pressed f) = Ok (Some items) ->
  Str.splitlines (shopping_list_txt items) = map fst items.
Proof.
  intros H.
  apply TallyFacts.page_builds in H as (recipes & recs & titles & _ & _ & _ & _ & H).
  unfold shopping_list_txt; apply TxtFacts.splitlines_join.
  pose proof (ShoppingFacts.scan_recipes_well_formed recs selected [] items
                (Forall_nil _) H) as W.
  unfold Shopping.build in H.
  rewrite TallyFacts.scan_recipes_phrases in H.
  destruct (ShoppingView.phrases recs selected) as [ps|e] eqn:P;
    cbn [bind] in H; [|discriminate].
  injection H as <-.
  pose proof (TxtFacts.phrases_one_line _ _ _ P) as O.
  rewrite Forall_forall in *; intros k I; split.
  - apply O. rewrite TallyFacts.keys_fold in I.
    apply TxtFacts.add_keys_In in I as [[] | I]; trivial.
  - apply in_map_iff in I as ([k0 v] & <- & I).
    destruct (W _ I) as (_ & L & _); cbn [fst] in *.
    intros E; rewrite E in L; cbn in L; lia.
Qed.

Lemma shopping_list_txt_lines_witness :
  Str.splitlines
    (shopping_list_txt [("Onion tart", 1); ("Serve with rice", 1)])
  = map fst [("Onion tart", 1); ("Serve with rice", 1)].
Proof.
  apply (shopping_list_txt_lines MiniJson.loads
           ["Onion tart"; "Serve with rice"] true
           (Some (MiniJson.dumps
                    (JList [onion_tart; sample_recipe "Rice";
                            sample_recipe "Serve with rice"])))).
  vm_compute; reflexivity.
Defined.
